(** * LAS-state transition density matrices: the hopping classifier, the
      fragment intermediate store, the intermediate builder and the assembly
      engine of [my_pyscf/mcscf/lassi_op.py], and the hybrid predicate, the
      code tables and the exchange-correlation splitter of
      [my_pyscf/mcpdft/_libxc.py].

    Every definition is a transcription of the Python source; the line numbers
    in the comments refer to the source files.  Python exceptions are values of
    [Py.exn]; a computation that can raise returns a [Py.result].  Array
    elements are exact complex numbers, so no rounding is modelled.  Three
    lines of [lassi_op.py] are not well-formed Python: the loop header of line
    237 ends in a semicolon and the header of [_crunch_1e] on line 278 lacks
    its colon, both are read with the colon; line 248 is discussed at
    [Hop.ncharge_index].  Names that are not bound when they are read
    ([nop_idnex], [self.ci], [d2_ikjk]) raise as they do in Python.  The
    timing and logging calls are left out.  Two rules of the assembly are
    parameters: [_crunch_null], whose blocks are assigned from stored values
    that may be [None], and [_crunch_spin_hop], which applies [np.where] to
    a zero-dimensional array; what numpy does there is not transcribed. *)

From Stdlib Require Import ZArith List Bool Lia String Arith Floats.
Import ListNotations.
Local Open Scope Z_scope.
#[local] Set Warnings "-inexact-float".

(* ------------------------------------------------------------------------- *)
(** ** Python exceptions and the error monad *)

Module Py.

Inductive exn : Type :=
| NameError (name : string)
| AttributeError (attr : string)
| TypeError (what : string)
| ValueError (what : string)
| IndexError (what : string)
| AxisError (axis ndim : nat)
| AssertionError (message : string).

Inductive result (A : Type) : Type :=
| Ok (a : A)
| Raise (e : exn).
Arguments Ok {A} a.
Arguments Raise {A} e.

Definition bind {A B} (c : result A) (k : A -> result B) : result B :=
  match c with
  | Ok a => k a
  | Raise e => Raise e
  end.

(** [assert cond, msg] *)
Definition assert (cond : bool) (message : string) : result unit :=
  if cond then Ok tt else Raise (AssertionError message).

(** A [for] loop whose body may raise, threading the state [S]. *)
Fixpoint for_each {X S} (xs : list X) (body : X -> S -> result S) (s : S)
  : result S :=
  match xs with
  | [] => Ok s
  | x :: rest => bind (body x s) (for_each rest body)
  end.

End Py.

Declare Scope py_scope.
Delimit Scope py_scope with py.
Notation "x <- c ;; k" := (Py.bind c (fun x => k))
  (at level 61, c at next level, right associativity) : py_scope.

(* ------------------------------------------------------------------------- *)
(** ** A few numpy reductions over one axis *)

Module NpInt.

(** [x.sum ()] of a one-dimensional integer array. *)
Definition sum (xs : list Z) : Z := fold_right Z.add 0 xs.

(** [np.count_nonzero (x)] *)
Definition count_nonzero (xs : list Z) : Z :=
  Z.of_nat (List.length (filter (fun x => negb (x =? 0)) xs)).

(** [np.all (x == 0)] *)
Definition all_zero (xs : list Z) : bool := forallb (fun x => x =? 0) xs.

(** [np.amin (x)] of a non-empty array (0 stands for the empty one, which
    numpy rejects). *)
Definition amin (xs : list Z) : Z :=
  match xs with
  | [] => 0
  | x :: rest => fold_right Z.min x rest
  end.

(** [np.where (mask)[0]] of a one-dimensional mask over [range (n)]. *)
Definition where1 (n : nat) (mask : nat -> bool) : list nat :=
  filter mask (seq 0 n).

End NpInt.

(* ------------------------------------------------------------------------- *)
(** ** Scalars: exact complex numbers with integer parts.  Conjugation is the
       only operation of the source that distinguishes them from reals. *)

Module Cx.

Record t : Type := mk { re : Z; im : Z }.

Definition zero : t := mk 0 0.
Definition add (x y : t) : t := mk (re x + re y) (im x + im y).
Definition opp (x : t) : t := mk (- re x) (- im x).
Definition sub (x y : t) : t := mk (re x - re y) (im x - im y).
Definition mul (x y : t) : t :=
  mk (re x * re y - im x * im y) (re x * im y + im x * re y).
Definition conj (x : t) : t := mk (re x) (- im x).
Definition eqb (x y : t) : bool := (re x =? re y) && (im x =? im y).

(** [abs (x) < 1e-8], decided on the squared modulus:
    [|x|^2 * 10^16 < 1]. *)
Definition abs_lt_1e8 (x : t) : bool :=
  (re x * re x + im x * im x) * 10 ^ 16 <? 1.

End Cx.

(* ------------------------------------------------------------------------- *)
(** ** numpy arrays: a shape and an element function on index lists *)

Module Np.

Import Py.

Record ndarray : Type := mk { shape : list nat; item : list nat -> Cx.t }.

Definition ndim (a : ndarray) : nat := List.length (shape a).

Fixpoint in_bounds (sh idx : list nat) : bool :=
  match sh, idx with
  | [], [] => true
  | n :: sh', i :: idx' => (i <? n)%nat && in_bounds sh' idx'
  | _, _ => false
  end.

Definition zeros (sh : list nat) : ndarray := mk sh (fun _ => Cx.zero).

(** A one-dimensional array from a list of scalars. *)
Definition of_list (xs : list Cx.t) : ndarray :=
  mk [List.length xs]
     (fun idx => nth (nth 0 idx 0%nat) xs Cx.zero).

(** [a.conj ()] *)
Definition conj (a : ndarray) : ndarray :=
  mk (shape a) (fun idx => Cx.conj (item a idx)).

(** [-a] *)
Definition neg (a : ndarray) : ndarray :=
  mk (shape a) (fun idx => Cx.opp (item a idx)).

Definition is_perm (axes : list nat) (n : nat) : bool :=
  (List.length axes =? n)%nat &&
  forallb (fun d => existsb (Nat.eqb d) axes) (seq 0 n).

Fixpoint index_of (d : nat) (axes : list nat) : nat :=
  match axes with
  | [] => 0%nat
  | x :: rest => if (x =? d)%nat then 0%nat else S (index_of d rest)
  end.

(** [a.transpose (axes)]: the result's axis [m] is the axis [axes[m]] of
    [a]; numpy raises ValueError unless [axes] is a permutation of
    [range (a.ndim)]. *)
Definition transpose (axes : list nat) (a : ndarray) : result ndarray :=
  if is_perm axes (ndim a) then
    Ok (mk (map (fun ax => nth ax (shape a) 0%nat) axes)
           (fun idx => item a (map (fun d => nth (index_of d axes) idx 0%nat)
                                   (seq 0 (ndim a)))))
  else Raise (ValueError "axes don't match array").

(** [a.T] *)
Definition T (a : ndarray) : ndarray :=
  mk (rev (shape a)) (fun idx => item a (rev idx)).

(** [np.multiply.outer (a, b)] *)
Definition outer (a b : ndarray) : ndarray :=
  mk (shape a ++ shape b)
     (fun idx => Cx.mul (item a (firstn (ndim a) idx))
                        (item b (skipn (ndim a) idx))).

(** [np.stack (arrs, axis=-1)]; numpy needs at least one array, all of one
    shape. *)
Definition shape_eqb (s1 s2 : list nat) : bool :=
  (List.length s1 =? List.length s2)%nat &&
  forallb (fun p => (fst p =? snd p)%nat) (combine s1 s2).

Definition stack_last (arrs : list ndarray) : result ndarray :=
  match arrs with
  | [] => Raise (ValueError "need at least one array to stack")
  | a0 :: _ =>
      if forallb (fun a => shape_eqb (shape a) (shape a0)) arrs then
        Ok (mk (shape a0 ++ [List.length arrs])
               (fun idx => item (nth (last idx 0%nat) arrs a0) (removelast idx)))
      else Raise (ValueError "all input arrays must have the same shape")
  end.

(** *** Broadcasting *)

(** [value] of shape [sv] can be broadcast to [st] (shapes aligned at their
    last axes). *)
Fixpoint bc_ok_rev (st sv : list nat) : bool :=
  match sv, st with
  | [], _ => true
  | _ :: _, [] => false
  | v :: sv', n :: st' => ((v =? n)%nat || (v =? 1)%nat) && bc_ok_rev st' sv'
  end.

Definition bc_ok (st sv : list nat) : bool := bc_ok_rev (rev st) (rev sv).

(** The index of the value read for the target index [idx]. *)
Definition bc_index (sv idx : list nat) : list nat :=
  map (fun p => if (fst p =? 1)%nat then 0%nat else snd p)
      (combine sv (skipn (List.length idx - List.length sv) idx)).

(** In an assignment numpy first drops leading axes of length one that the
    value has in excess of the target. *)
Fixpoint strip_ones (extra : nat) (sv : list nat) : option (list nat) :=
  match extra, sv with
  | O, _ => Some sv
  | S e, 1%nat :: sv' => strip_ones e sv'
  | S _, _ => None
  end.

(** [a += b] and [a -= b] *)
Definition iop (op : Cx.t -> Cx.t -> Cx.t) (a b : ndarray) : result ndarray :=
  if bc_ok (shape a) (shape b) then
    Ok (mk (shape a)
           (fun idx => op (item a idx) (item b (bc_index (shape b) idx))))
  else Raise (ValueError "operands could not be broadcast together").

Definition iadd := iop Cx.add.
Definition isub := iop Cx.sub.

(** The common shape of two operands, on reversed shapes. *)
Fixpoint bc_shape_rev (s1 s2 : list nat) : option (list nat) :=
  match s1, s2 with
  | [], s => Some s
  | s, [] => Some s
  | a :: s1', b :: s2' =>
      if (a =? b)%nat || (b =? 1)%nat then option_map (cons a) (bc_shape_rev s1' s2')
      else if (a =? 1)%nat then option_map (cons b) (bc_shape_rev s1' s2')
      else None
  end.

(** [a + b] *)
Definition add (a b : ndarray) : result ndarray :=
  match bc_shape_rev (rev (shape a)) (rev (shape b)) with
  | Some r =>
      Ok (mk (rev r)
             (fun idx => Cx.add (item a (bc_index (shape a) idx))
                                (item b (bc_index (shape b) idx))))
  | None => Raise (ValueError "operands could not be broadcast together")
  end.

(** *** Basic indexing with integers and slices *)

Inductive index : Type :=
| Int (i : nat)
| Slice (lo hi : nat)
| Full.

(** The axes selected by [idxs] on shape [sh]: for every axis the offset of
    the selection and, for a slice, its length ([None] for an integer, whose
    axis disappears).  More indices than axes, or an integer outside its
    axis, is an IndexError. *)
Fixpoint select (sh : list nat) (idxs : list index)
  : result (list (nat * option nat)) :=
  match idxs, sh with
  | [], _ => Ok (map (fun n => (0%nat, Some n)) sh)
  | _ :: _, [] => Raise (IndexError "too many indices for array")
  | ix :: idxs', n :: sh' =>
      match ix with
      | Int i =>
          if (i <? n)%nat then
            rest <- select sh' idxs' ;; Ok ((i, None) :: rest)
          else Raise (IndexError "index is out of bounds for axis")
      | Slice lo hi =>
          rest <- select sh' idxs' ;;
          Ok ((Nat.min lo n, Some (Nat.min hi n - Nat.min lo n)%nat) :: rest)
      | Full =>
          rest <- select sh' idxs' ;; Ok ((0%nat, Some n) :: rest)
      end
  end%py.

Definition region_shape (sel : list (nat * option nat)) : list nat :=
  flat_map (fun p => match snd p with Some n => [n] | None => [] end) sel.

(** Index in the array of the element at [rel] in the selection. *)
Fixpoint abs_index (sel : list (nat * option nat)) (rel : list nat) : list nat :=
  match sel with
  | [] => []
  | (off, None) :: sel' => off :: abs_index sel' rel
  | (off, Some _) :: sel' =>
      (off + hd 0%nat rel)%nat :: abs_index sel' (tl rel)
  end.

(** Index in the selection of the array element [idx], if it is selected. *)
Fixpoint rel_index (sel : list (nat * option nat)) (idx : list nat)
  : option (list nat) :=
  match sel, idx with
  | [], [] => Some []
  | (off, None) :: sel', i :: idx' =>
      if (i =? off)%nat then rel_index sel' idx' else None
  | (off, Some n) :: sel', i :: idx' =>
      if ((off <=? i) && (i <? off + n))%nat then
        option_map (cons (i - off)%nat) (rel_index sel' idx')
      else None
  | _, _ => None
  end.

(** [a[idxs]] *)
Definition getitem (a : ndarray) (idxs : list index) : result ndarray :=
  (sel <- select (shape a) idxs ;;
   Ok (mk (region_shape sel) (fun rel => item a (abs_index sel rel))))%py.

(** [a[idxs] = v] *)
Definition setitem (a : ndarray) (idxs : list index) (v : ndarray)
  : result ndarray :=
  (sel <- select (shape a) idxs ;;
   let st := region_shape sel in
   match strip_ones (ndim v - List.length st) (shape v) with
   | Some sv =>
       if bc_ok st sv then
         Ok (mk (shape a)
                (fun idx =>
                   match rel_index sel idx with
                   | Some rel =>
                       item v (repeat 0%nat (ndim v - List.length st)
                               ++ bc_index sv rel)
                   | None => item a idx
                   end))
       else Raise (ValueError "could not broadcast input array")
   | None => Raise (ValueError "could not broadcast input array")
   end)%py.

End Np.

(* ------------------------------------------------------------------------- *)
(** ** Further array helpers used by the intermediate builder *)

Module NpMore.

Import Py Np.

Fixpoint map_m {X Y} (f : X -> result Y) (xs : list X) : result (list Y) :=
  match xs with
  | [] => Ok []
  | x :: rest => (y <- f x ;; ys <- map_m f rest ;; Ok (y :: ys))%py
  end.

(** All indices of a shape, in row-major order. *)
Fixpoint indices (sh : list nat) : list (list nat) :=
  match sh with
  | [] => [[]]
  | n :: sh' => flat_map (fun i => map (cons i) (indices sh')) (seq 0 n)
  end.

(** [a.ravel ()] *)
Definition ravel (a : ndarray) : list Cx.t := map (item a) (indices (shape a)).

(** [x.dot (y)] of two flat vectors. *)
Definition dot (x y : list Cx.t) : result Cx.t :=
  if (List.length x =? List.length y)%nat then
    Ok (fold_right Cx.add Cx.zero (map (fun p => Cx.mul (fst p) (snd p)) (combine x y)))
  else Raise (ValueError "shapes not aligned").

(** [np.stack (arrs, axis=0)], kept as the list of its components along
    axis 0. *)
Definition stack0 (arrs : list ndarray) : result (list ndarray) :=
  match arrs with
  | [] => Raise (ValueError "need at least one array to stack")
  | a0 :: _ =>
      if forallb (fun a => shape_eqb (shape a) (shape a0)) arrs then Ok arrs
      else Raise (ValueError "all input arrays must have the same shape")
  end.

(** [np.array (rows)] of a list of rows of equal length [n]. *)
Definition of_rows (n : nat) (rows : list (list Cx.t)) : ndarray :=
  mk [List.length rows; n]
     (fun idx => nth (nth 1 idx 0%nat) (nth (nth 0 idx 0%nat) rows []) Cx.zero).

(** [combinations (range (n), 2)], which is also the order of
    [np.triu_indices (n, k=1)]. *)
Definition combinations2 (n : nat) : list (nat * nat) :=
  flat_map (fun q => map (fun p => (q, p)) (seq (S q) (n - S q))) (seq 0 n).

Definition pair_eqb (x y : nat * nat) : bool :=
  (fst x =? fst y)%nat && (snd x =? snd y)%nat.

(** [hh = np.zeros ((n, n)); hh[np.triu_indices (n, k=1)] = vals] *)
Definition fill_triu (n : nat) (vals : list Cx.t) : ndarray :=
  mk [n; n]
     (fun idx =>
        match find (fun e => pair_eqb (fst e) (nth 0 idx 0%nat, nth 1 idx 0%nat))
                   (combine (combinations2 n) vals) with
        | Some e => snd e
        | None => Cx.zero
        end).

End NpMore.

(* ------------------------------------------------------------------------- *)
(** ** Fragment intermediate store: class [LSTDMint] without its kernel *)

Module Store.

Import Py Np.

(** A value bound to [nroots]: the constructor iterates over it, the kernel
    uses it as an integer.  Two kinds of value are modelled, a Python int
    and a list; other iterables (a numpy array, say) are not. *)
Inductive pynroots : Type :=
| PyInt (n : nat)
| PyIter (items : list nat).

Definition table : Type := list (list (option ndarray)).

(** The attributes of an instance.  The field [ci] is the attribute
    [self.ci]: [None] while no such attribute is bound, as after the
    constructor. *)
Record LSTDMint : Type := mkLSTDMint {
  norb : nat;
  nroots : pynroots;
  nelec_r : list (Z * Z);
  _h : list table;
  _hh : list table;
  _phh : list table;
  _sm : table;
  dm1 : table;
  dm2 : table;
  ci : option (list ndarray)
}.

Definition iter_len (v : pynroots) : result nat :=
  match v with
  | PyInt _ => Raise (TypeError "'int' object is not iterable")
  | PyIter items => Ok (List.length items)
  end.

Definition as_int (v : pynroots) : result nat :=
  match v with
  | PyInt n => Ok n
  | PyIter _ => Raise (TypeError "'list' object cannot be interpreted as an integer")
  end.

Definition empty_table (n : nat) : table := repeat (repeat None n) n.

(** Lines 48-62.  The solver handles and link tables are the collaborator's;
    [nelec_r] stands for [fcibox._get_nelec] of every solver.  The tables are
    built by comprehensions [for i in nroots], which need an iterable. *)
Definition init (norb0 : nat) (nelec_r0 : list (Z * Z)) (nroots0 : pynroots)
  : result LSTDMint :=
  (n <- iter_len nroots0 ;;
   Ok {| norb := norb0; nroots := nroots0; nelec_r := nelec_r0;
         _h := repeat (empty_table n) 2;
         _hh := repeat (empty_table n) 3;
         _phh := repeat (empty_table n) 2;
         _sm := empty_table n;
         dm1 := empty_table n;
         dm2 := empty_table n;
         ci := None |})%py.

(** *** Python list indexing *)

Definition getl {A} (l : list A) (i : nat) : result A :=
  match nth_error l i with
  | Some x => Ok x
  | None => Raise (IndexError "list index out of range")
  end.

Fixpoint setl {A} (l : list A) (i : nat) (x : A) : result (list A) :=
  match l, i with
  | [], _ => Raise (IndexError "list assignment index out of range")
  | _ :: rest, O => Ok (x :: rest)
  | y :: rest, S i' => (rest' <- setl rest i' x ;; Ok (y :: rest'))%py
  end.

Definition get2 (t : table) (i j : nat) : result (option ndarray) :=
  (row <- getl t i ;; getl row j)%py.

Definition set2 (t : table) (i j : nat) (x : ndarray) : result table :=
  (row <- getl t i ;; row' <- setl row j (Some x) ;; setl t i row')%py.

Definition get3 (ts : list table) (s i j : nat) : result (option ndarray) :=
  (t <- getl ts s ;; get2 t i j)%py.

Definition set3 (ts : list table) (s i j : nat) (x : ndarray)
  : result (list table) :=
  (t <- getl ts s ;; t' <- set2 t i j x ;; setl ts s t')%py.

(** A method call on a value that may be [None]. *)
Definition attr (method : string) (v : option ndarray) : result ndarray :=
  match v with
  | Some a => Ok a
  | None => Raise (AttributeError method)
  end.

Section Methods.

Variable self : LSTDMint.

Definition with_h (x : list table) : LSTDMint :=
  mkLSTDMint (norb self) (nroots self) (nelec_r self) x (_hh self)
             (_phh self) (_sm self) (dm1 self) (dm2 self) (ci self).
Definition with_hh (x : list table) : LSTDMint :=
  mkLSTDMint (norb self) (nroots self) (nelec_r self) (_h self) x
             (_phh self) (_sm self) (dm1 self) (dm2 self) (ci self).
Definition with_phh (x : list table) : LSTDMint :=
  mkLSTDMint (norb self) (nroots self) (nelec_r self) (_h self) (_hh self)
             x (_sm self) (dm1 self) (dm2 self) (ci self).
Definition with_sm (x : table) : LSTDMint :=
  mkLSTDMint (norb self) (nroots self) (nelec_r self) (_h self) (_hh self)
             (_phh self) x (dm1 self) (dm2 self) (ci self).
Definition with_dm1 (x : table) : LSTDMint :=
  mkLSTDMint (norb self) (nroots self) (nelec_r self) (_h self) (_hh self)
             (_phh self) (_sm self) x (dm2 self) (ci self).
Definition with_dm2 (x : table) : LSTDMint :=
  mkLSTDMint (norb self) (nroots self) (nelec_r self) (_h self) (_hh self)
             (_phh self) (_sm self) (dm1 self) x (ci self).

(** Lines 66-74: 1-particle 1-operator intermediate. *)
Definition get_h (i j s : nat) : result (option ndarray) :=
  get3 (_h self) s i j.

Definition set_h (i j s : nat) (x : ndarray) : result LSTDMint :=
  (h' <- set3 (_h self) s i j x ;; Ok (with_h h'))%py.

Definition get_p (i j s : nat) : result ndarray :=
  (v <- get3 (_h self) s j i ;; a <- attr "conj" v ;; Ok (conj a))%py.

(** Lines 78-86: 2-particle intermediate. *)
Definition get_hh (i j s : nat) : result (option ndarray) :=
  get3 (_hh self) s i j.

Definition set_hh (i j s : nat) (x : ndarray) : result LSTDMint :=
  (h' <- set3 (_hh self) s i j x ;; Ok (with_hh h'))%py.

Definition get_pp (i j s : nat) : result ndarray :=
  (v <- get3 (_hh self) s j i ;; a <- attr "conj" v ;; Ok (T (conj a)))%py.

(** Lines 90-98: 1-particle 3-operator intermediate. *)
Definition get_phh (i j s : nat) : result (option ndarray) :=
  get3 (_phh self) s i j.

Definition set_phh (i j s : nat) (x : ndarray) : result LSTDMint :=
  (h' <- set3 (_phh self) s i j x ;; Ok (with_phh h'))%py.

Definition get_pph (i j s : nat) : result ndarray :=
  (v <- get3 (_phh self) s j i ;; a <- attr "conj" v ;;
   transpose [0; 2; 1]%nat (conj a))%py.

(** Lines 102-110: spin-hop intermediate. *)
Definition get_sm (i j : nat) : result (option ndarray) :=
  get2 (_sm self) i j.

Definition set_sm (i j : nat) (x : ndarray) : result LSTDMint :=
  (t' <- set2 (_sm self) i j x ;; Ok (with_sm t'))%py.

Definition get_sp (i j : nat) : result ndarray :=
  (v <- get2 (_sm self) j i ;; a <- attr "conj" v ;; Ok (conj a))%py.

(** Lines 114-122: 1-density intermediate. *)
Definition get_dm1 (i j : nat) : result (option ndarray) :=
  let k := Nat.max i j in
  let l := Nat.min i j in
  get2 (dm1 self) k l.

Definition set_dm1 (i j : nat) (x : ndarray) : result LSTDMint :=
  (if (i <? j)%nat then
     xt <- transpose [0; 2; 1]%nat (conj x) ;;
     t' <- set2 (dm1 self) j i xt ;; Ok (with_dm1 t')
   else
     t' <- set2 (dm1 self) i j x ;; Ok (with_dm1 t'))%py.

(** Lines 126-134: 2-density intermediate. *)
Definition get_dm2 (i j : nat) : result (option ndarray) :=
  let k := Nat.max i j in
  let l := Nat.min i j in
  get2 (dm2 self) k l.

Definition set_dm2 (i j : nat) (x : ndarray) : result LSTDMint :=
  (if (i <? j)%nat then
     xt <- transpose [0; 2; 1; 4; 3]%nat (conj x) ;;
     t' <- set2 (dm2 self) j i xt ;; Ok (with_dm2 t')
   else
     t' <- set2 (dm2 self) i j x ;; Ok (with_dm2 t'))%py.

(** [self.ci[k]] *)
Definition self_ci (k : nat) : result ndarray :=
  match ci self with
  | None => Raise (AttributeError "ci")
  | Some vecs => getl vecs k
  end.

End Methods.

(** A table that holds nothing above its diagonal (row < column). *)
Definition upper_empty (t : table) : Prop :=
  forall a b v, (a < b)%nat -> get2 t a b = Ok v -> v = None.

(** Two stores that differ at most in their tables. *)
Definition same_attrs (a b : LSTDMint) : Prop :=
  ci a = ci b /\ nelec_r a = nelec_r b /\ norb a = norb b /\ nroots a = nroots b.

End Store.

(* ------------------------------------------------------------------------- *)
(** ** Intermediate builder: [LSTDMint.kernel], lines 136-220 *)

Module Kernel.

Import Py Np NpMore Store.

Section Kernel.

(** The solver collaborator. [trans_rdm12s i bra ket norb nelec] is
    [self.fcisolvers[i].trans_rdm12s (bra, ket, norb, nelec,
    link_index=self.linkstr[i])]; [des_a], [des_b] are the annihilation
    operators of [pyscf.fci.addons]. *)
Variable trans_rdm12s :
  nat -> ndarray -> ndarray -> nat -> Z * Z -> ndarray * ndarray.
Variable des_a des_b : ndarray -> nat -> Z * Z -> nat -> ndarray.

(** The arguments of the call: the amplitude vectors [ci], the fragment's
    slice [hopping_index[ifrag]] of shape (2, R, R), and the two masks. *)
Variable ci_arg : list ndarray.
Variable R : nat.
Variable hopping_index : nat -> nat -> nat -> Z.
Variable zerop_index onep_index : nat -> nat -> bool.

(** [np.all (hopping_index[:,bra,ket] == [x, y])] *)
Definition hop_is (bra ket : nat) (x y : Z) : bool :=
  (hopping_index 0 bra ket =? x) && (hopping_index 1 bra ket =? y).

(** Lines 141-142: the spectator mask.  [n] is [self.nroots]. *)
Definition spectator_mask (n i j : nat) : bool :=
  hop_is i j 0 0 && negb ((i <? j)%nat && (j <? n)%nat).

(** Line 143: [np.where] lists the marked positions in row-major order and
    returns the row indices and the column indices; [np.stack (...,
    axis=0)] makes them the two rows of one array. *)
Definition marked (n : nat) : list (nat * nat) :=
  filter (fun ij => spectator_mask n (fst ij) (snd ij))
         (list_prod (seq 0 R) (seq 0 R)).

Definition spectator_index (n : nat) : list (list nat) :=
  [map fst (marked n); map snd (marked n)].

(** [i, j = row] *)
Definition unpack2 (row : list nat) : result (nat * nat) :=
  match row with
  | [i; j] => Ok (i, j)
  | [] | [_] => Raise (ValueError "not enough values to unpack")
  | _ => Raise (ValueError "too many values to unpack")
  end.

(** The state of a run: the store and the list of pairs for which the
    spectator pass has requested the solver's transition densities. *)
Definition state : Type := LSTDMint * list (nat * nat).

(** Lines 145-150: the body of the spectator loop. *)
Definition spectator_body (i j : nat) (st : state) : result state :=
  let self := fst st in
  (nelec <- getl (nelec_r self) i ;;
   ci_i <- getl ci_arg i ;;
   ci_j <- getl ci_arg j ;;
   let dms := trans_rdm12s i ci_i ci_j (norb self) nelec in
   self1 <- set_dm1 self i j (fst dms) ;;
   self2 <- (if zerop_index i j then set_dm2 self1 i j (snd dms) else Ok self1) ;;
   Ok (self2, snd st ++ [(i, j)]))%py.

(** Lines 141-150. *)
Definition spectator_pass (st : state) : result state :=
  (n <- as_int (nroots (fst st)) ;;
   _ <- (if (n <=? R)%nat || (n <? 2)%nat then Ok tt
         else Raise (IndexError "index is out of bounds for axis")) ;;
   for_each (spectator_index n)
            (fun row st => ij <- unpack2 row ;; spectator_body (fst ij) (snd ij) st)
            st)%py.

(** Lines 153-154: the kets from which an electron of spin [s] departs. *)
Definition hidx_ket (s : nat) : list nat :=
  NpInt.where1 R (fun ket => existsb (fun bra => hopping_index s bra ket <? 0) (seq 0 R)).

(** [np.where (hopping_index[s,:,ket] < 0)[0]] *)
Definition bras_of (s ket : nat) : list nat :=
  NpInt.where1 R (fun bra => hopping_index s bra ket <? 0).

(** [np.stack ([des (self.ci[ket], norb, nelec, p) for p in range (norb)],
    axis=0)] *)
Definition apply_des (des : ndarray -> nat -> Z * Z -> nat -> ndarray)
           (self : LSTDMint) (ket : nat) (nelec : Z * Z)
  : result (list ndarray) :=
  (vecs <- map_m (fun p => c <- self_ci self ket ;; Ok (des c (norb self) nelec p))
                 (seq 0 (norb self)) ;;
   stack0 vecs)%py.

(** Line 157: [np.any (np.all (hopping_index[:,:,ket] == [1,-1]), axis=1)].
    [np.all] without an axis returns a scalar, and [np.any (..., axis=1)]
    of a scalar is rejected by numpy.  (With more than two states the
    comparison of the (2, R) slice with a pair does not broadcast either;
    the statement raises in every case.) *)
Definition line157 (ket : nat) : result bool := Raise (AxisError 1 0).

(** Lines 155-158: the cache of [b_p|ket>]. *)
Definition bpvec_pass (self : LSTDMint)
  : result (list (option (list ndarray))) :=
  (n <- as_int (nroots self) ;;
   for_each (hidx_ket 1)
            (fun ket bpl =>
               cond <- line157 ket ;;
               if cond : bool then
                 nelec <- getl (nelec_r self) ket ;;
                 v <- apply_des des_b self ket nelec ;;
                 setl bpl ket (Some v)
               else Ok bpl)
            (repeat None n))%py.

(** [bravec.dot (pket.reshape (norb,-1).T)] *)
Definition h_amplitude (bravec : list Cx.t) (pket : list ndarray)
  : result ndarray :=
  (xs <- map_m (fun v => dot bravec (ravel v)) pket ;; Ok (of_list xs))%py.

(** Lines 173-175 and 208-210. *)
Definition phh_amplitude (self : LSTDMint) (bra : nat) (pket : list ndarray)
  : result ndarray :=
  (dms <- map_m (fun ketmat =>
                   c <- self_ci self bra ;;
                   nelec <- getl (nelec_r self) bra ;;
                   Ok (fst (trans_rdm12s bra c ketmat (norb self) nelec)))
                pket ;;
   stack_last dms)%py.

(** Lines 187-191 and 213-217: the same-spin 2-operator amplitude, from
    its upper triangle. *)
Definition hh_same_spin (des : ndarray -> nat -> Z * Z -> nat -> ndarray)
           (n : nat) (nelec : Z * Z) (bravec : list Cx.t) (pket : list ndarray)
  : result ndarray :=
  (hh_triu <- map_m (fun qp =>
                       pk <- getl pket (snd qp) ;;
                       dot bravec (ravel (des pk n nelec (fst qp))))
                    (combinations2 n) ;;
   let hh := fill_triu n hh_triu in
   isub hh (T hh))%py.

(** Lines 167-192: the body of the loop over the bras of one ket, alpha. *)
Definition alpha_bra (bpvec_list : list (option (list ndarray)))
           (ket : nat) (nelec : Z * Z) (apket : list ndarray)
           (bra : nat) (st : state) : result state :=
  let self := fst st in
  (c <- self_ci self bra ;;
   let bravec := ravel c in
   h <- h_amplitude bravec apket ;;
   self1 <- set_h self bra ket 0 h ;;
   self2 <-
     (if hop_is bra ket (-1) 0 && onep_index bra ket then
        phh <- phh_amplitude self1 bra apket ;;
        set_phh self1 bra ket 0 phh
      else if hop_is bra ket (-1) 1 then
        cached <- getl bpvec_list bra ;;
        bqbra <- (match cached with
                  | Some v => Ok v
                  | None => Raise (AttributeError "reshape")
                  end) ;;
        rows <- map_m (fun bq =>
                         map_m (fun pk => dot (ravel (conj bq)) (ravel pk)) apket)
                      bqbra ;;
        set_sm self1 bra ket (of_rows (List.length apket) rows)
      else if hop_is bra ket (-1) (-1) then
        rows <- map_m (fun q =>
                         map_m (fun pk => dot bravec (ravel (des_b pk (norb self1) nelec q)))
                               apket)
                      (seq 0 (norb self1)) ;;
        set_hh self1 bra ket 1 (of_rows (norb self1) rows)
      else if hop_is bra ket (-2) 0 then
        hh <- hh_same_spin des_a (norb self1) nelec bravec apket ;;
        set_hh self1 bra ket 0 hh
      else Ok self1) ;;
   Ok (self2, snd st))%py.

(** Lines 161-192. *)
Definition alpha_ket (bpvec_list : list (option (list ndarray)))
           (ket : nat) (st : state) : result state :=
  let self := fst st in
  (nelec <- getl (nelec_r self) ket ;;
   apket <- apply_des des_a self ket nelec ;;
   let nelec := (fst nelec - 1, snd nelec) in
   for_each (bras_of 0 ket) (alpha_bra bpvec_list ket nelec apket) st)%py.

(** Lines 201-218: the body of the loop over the bras of one ket, beta. *)
Definition beta_bra (ket : nat) (nelec : Z * Z) (bpvec : list ndarray)
           (bra : nat) (st : state) : result state :=
  let self := fst st in
  (c <- self_ci self bra ;;
   let bravec := ravel c in
   h <- h_amplitude bravec bpvec ;;
   self1 <- set_h self bra ket 1 h ;;
   self2 <-
     (if hop_is bra ket 0 (-1) && onep_index bra ket then
        phh <- phh_amplitude self1 bra bpvec ;;
        set_phh self1 bra ket 1 phh
      else if hop_is bra ket 0 (-2) then
        hh <- hh_same_spin des_b (norb self1) nelec bravec bpvec ;;
        set_hh self1 bra ket 2 hh
      else Ok self1) ;;
   Ok (self2, snd st))%py.

(** Lines 195-218. *)
Definition beta_ket (bpvec_list : list (option (list ndarray)))
           (ket : nat) (st : state) : result state :=
  let self := fst st in
  (nelec <- getl (nelec_r self) ket ;;
   cached <- getl bpvec_list ket ;;
   bpvec <- (match cached with
             | None => apply_des des_b self ket nelec
             | Some v => Ok v
             end) ;;
   let nelec := (fst nelec, snd nelec - 1) in
   for_each (bras_of 1 ket) (beta_bra ket nelec bpvec) st)%py.

(** Lines 152-218: every step that applies an operator. *)
Definition operator_pass (st : state) : result state :=
  (bpvec_list <- bpvec_pass (fst st) ;;
   st1 <- for_each (hidx_ket 0) (alpha_ket bpvec_list) st ;;
   for_each (hidx_ket 1) (beta_ket bpvec_list) st1)%py.

Definition kernel (self : LSTDMint) : result state :=
  (st <- spectator_pass (self, []) ;; operator_pass st)%py.

End Kernel.

End Kernel.

(* ------------------------------------------------------------------------- *)
(** ** Hopping classifier: [lst_hopping_index] and the connectivity data of
       [make_stdm12s] *)

Module Hop.

Section Classifier.

(** [nelec_fsr], lines 35-36: the array of shape (nfrags, 2, nroots) with
    the electron count of spin [s] in fragment [f] for LAS state [r].  The
    counts themselves come from the solver ([fcibox._get_nelec]). *)
Variable nelec_fsr : list (list (list Z)).

Definition nfrags : nat := List.length nelec_fsr.

Definition nelec (f s r : nat) : Z :=
  nth r (nth s (nth f nelec_fsr []) []) 0.

(** Lines 37-38: [np.subtract.outer (spin, spin)[b,k] = spin[b] - spin[k]]. *)
Definition hopping_index (f s b k : nat) : Z := nelec f s b - nelec f s k.

Definition frags : list nat := seq 0 nfrags.
Definition spins : list nat := [0%nat; 1%nat].

(** [hopping_index.sum (0)[s,b,k]] *)
Definition hop_sum0 (s b k : nat) : Z :=
  NpInt.sum (map (fun f => hopping_index f s b k) frags).

(** [hopping_index.sum (1)[f,b,k]] *)
Definition hop_sum1 (f b k : nat) : Z :=
  NpInt.sum (map (fun s => hopping_index f s b k) spins).

(** Line 39: [np.all (hopping_index.sum (0) == 0, axis=0)]. *)
Definition symm_index (b k : nat) : bool :=
  NpInt.all_zero (map (fun s => hop_sum0 s b k) spins).

(** Line 40. *)
Definition zerop_index (b k : nat) : bool :=
  symm_index b k &&
  (NpInt.sum (map (fun f =>
      NpInt.count_nonzero (map (fun s => hopping_index f s b k) spins))
      frags) =? 0).

(** Line 41. *)
Definition onep_index (b k : nat) : bool :=
  symm_index b k &&
  (NpInt.sum (map (fun f =>
      NpInt.sum (map (fun s => Z.abs (hopping_index f s b k)) spins))
      frags) =? 2).

(** Line 244: [np.all (hopping_index.sum (1) == 0, axis=0)]: the sum runs
    over axis 1 (the two spins of one fragment), the conjunction over
    axis 0 (the fragments). *)
Definition conserv_index (b k : nat) : bool :=
  NpInt.all_zero (map (fun f => hop_sum1 f b k) frags).

(** Line 245: [np.abs (hopping_index).sum (0)], shape (2, nroots, nroots). *)
Definition nsop_index (s b k : nat) : Z :=
  NpInt.sum (map (fun f => Z.abs (hopping_index f s b k)) frags).

(** Line 246: [nsop_index.sum (0)]. *)
Definition nop_index (b k : nat) : Z :=
  NpInt.sum (map (fun s => nsop_index s b k) spins).

(** Line 247: [np.count_nonzero (np.abs (hopping_index).sum (1), axis=0)]. *)
Definition nfrag_index (b k : nat) : Z :=
  NpInt.count_nonzero
    (map (fun f => NpInt.sum (map (fun s => Z.abs (hopping_index f s b k)) spins))
         frags).

(** Modelled from the spec: line 248 of the source is not a well-formed
    statement ([np.count_nonzero (hopping_index).sum (1), axis=0]); the
    specification defines chargeCount as the number of fragments whose
    net, both-spin-combined hop is nonzero, i.e.
    [np.count_nonzero (hopping_index.sum (1), axis=0)]. *)
Definition ncharge_index (b k : nat) : Z :=
  NpInt.count_nonzero (map (fun f => hop_sum1 f b k) frags).

(** Line 249: [nsop_index[1,:,:] // 2]. *)
Definition nspin_index (b k : nat) : Z := nsop_index 1 b k / 2.


End Classifier.

End Hop.

(* ------------------------------------------------------------------------- *)
(** ** Assembly engine: the dispatch and the rules of [make_stdm12s] *)

Module Assembly.

Import Py Np NpMore Store.

(** The output tensors [tdm1s] and [tdm2s] are modified in place, so a rule
    that raises leaves behind what it has written: a computation maps the
    two tensors to their new contents and a result. *)
Definition arrays : Type := ndarray * ndarray.
Definition M (A : Type) : Type := arrays -> arrays * result A.

Definition ret {A} (a : A) : M A := fun st => (st, Ok a).

Definition bindM {A B} (c : M A) (k : A -> M B) : M B :=
  fun st =>
    match c st with
    | (st', Ok a) => k a st'
    | (st', Raise e) => (st', Raise e)
    end.

Definition lift {A} (c : result A) : M A := fun st => (st, c).

Definition read_tdm1s : M ndarray := fun st => (st, Ok (fst st)).
Definition read_tdm2s : M ndarray := fun st => (st, Ok (snd st)).

(** [tdm1s[idxs] = v] and [tdm2s[idxs] = v] *)
Definition write_tdm1s (idxs : list index) (v : ndarray) : M unit :=
  fun st =>
    match setitem (fst st) idxs v with
    | Ok t => ((t, snd st), Ok tt)
    | Raise e => (st, Raise e)
    end.

Definition write_tdm2s (idxs : list index) (v : ndarray) : M unit :=
  fun st =>
    match setitem (snd st) idxs v with
    | Ok t => ((fst st, t), Ok tt)
    | Raise e => (st, Raise e)
    end.

Fixpoint for_eachM {X} (xs : list X) (body : X -> M unit) : M unit :=
  match xs with
  | [] => ret tt
  | x :: rest => bindM (body x) (fun _ => for_eachM rest body)
  end.

(** A computation that leaves [tdm2s] as it found it. *)
Definition keeps_tdm2s {A} (c : M A) : Prop :=
  forall st, snd (fst (c st)) = snd st.

(** A computation that leaves [tdm1s] as it found it. *)
Definition keeps_tdm1s {A} (c : M A) : Prop :=
  forall st, fst (fst (c st)) = fst st.

(** A computation that keeps the shapes of both tensors and changes no
    element outside the blocks [tdm1s[bra,ket]] and [tdm2s[bra,ket]]. *)
Definition local_to (bra ket : nat) {A} (c : M A) : Prop :=
  forall st,
    shape (fst (fst (c st))) = shape (fst st) /\
    shape (snd (fst (c st))) = shape (snd st) /\
    forall idx, (forall rest, idx <> bra :: ket :: rest) ->
                item (fst (fst (c st))) idx = item (fst st) idx /\
                item (snd (fst (c st))) idx = item (snd st) idx.

Declare Scope asm_scope.
Delimit Scope asm_scope with asm.
Notation "x <~ c ;; k" := (bindM c (fun x => k))
  (at level 61, c at next level, right associativity) : asm_scope.

(** The rules the dispatch can call, with their arguments. *)
Inductive call : Type :=
| crunch_null (bra ket : nat)
| crunch_1e (bra ket : nat) (s1 : Z)
| crunch_spin_hop (bra ket : nat)
| crunch_pair_hop (bra ket : nat) (s2lt : Z)
| crunch_pair_split (bra ket : nat) (s2lt : Z)
| crunch_2e (bra ket : nat) (s2lt : Z).

(** [np.where (xs == v)[0][0]] of a one-dimensional array. *)
Fixpoint first_index (v : Z) (xs : list Z) : result nat :=
  match xs with
  | [] => Raise (IndexError "index 0 is out of bounds for axis 0 with size 0")
  | x :: rest => if x =? v then Ok 0%nat
                 else (i <- first_index v rest ;; Ok (S i))%py
  end.

(** [sum (nlas[:i])] *)
Definition offset (nlas : list nat) (i : nat) : nat :=
  fold_right Nat.add 0%nat (firstn i nlas).

Section Engine.

Variable nelec_fsr : list (list (list Z)).
Variable nroots : nat.
Variable nlas : list nat.
Variable ints : list LSTDMint.

Let hop := Hop.hopping_index nelec_fsr.
Let frags := Hop.frags nelec_fsr.

(** Lines 408-419: the body of the branch for two-electron interactions. *)
Definition dispatch_2e (bra ket : nat) : result (option call) :=
  let spin := Hop.nspin_index nelec_fsr bra ket in
  if Hop.ncharge_index nelec_fsr bra ket =? 0 then
    (_ <- assert (spin =? 1) "" ;; Ok (Some (crunch_spin_hop bra ket)))%py
  else if Hop.nfrag_index nelec_fsr bra ket =? 2 then
    Ok (Some (crunch_pair_hop bra ket spin))
  else if Hop.nfrag_index nelec_fsr bra ket =? 3 then
    if NpInt.amin (map (fun f => Hop.hop_sum1 nelec_fsr f bra ket) frags) =? -2
    then Ok (Some (crunch_pair_split bra ket spin))
    else Ok (Some (crunch_pair_split ket bra spin))
  else if Hop.nfrag_index nelec_fsr bra ket =? 4 then
    Ok (Some (crunch_2e bra ket spin))
  else Ok None.

(** Lines 400-419: the body of the loop of the second pass.  [Ok None]
    is a pair for which no rule is called.  The condition of the third
    [elif] reads the name [nop_idnex], which is bound nowhere. *)
Definition dispatch (bra ket : nat) : result (option call) :=
  let spin := Hop.nspin_index nelec_fsr bra ket in
  if negb (Hop.conserv_index nelec_fsr bra ket) then Ok None
  else if Hop.nop_index nelec_fsr bra ket =? 0 then
    Ok (Some (crunch_null bra ket))
  else if Hop.nop_index nelec_fsr bra ket =? 2 then
    Ok (Some (crunch_1e bra ket spin))
  else
    (nop <- Raise (NameError "nop_idnex") ;;
     if (nop : Z) =? 4 then dispatch_2e bra ket else Ok None)%py.

(** *** [_crunch_1e], lines 278-312 *)

(** Line 281: [hopping_index[:,bra,ket]] indexes the axes (fragment, spin,
    bra) of the four-dimensional tensor and keeps the last one. *)
Definition frag_hop_list (bra ket : nat) : result (list (list Z)) :=
  if (bra <? 2)%nat && (ket <? nroots)%nat then
    Ok (map (fun f => map (fun r => hop f bra ket r) (seq 0 nroots)) frags)
  else Raise (IndexError "index is out of bounds for axis").

(** [np.where (a == v)[0]] of a two-dimensional array: the row of every
    entry equal to [v], in row-major order. *)
Definition rows_where (v : Z) (a : list (list Z)) : list nat :=
  flat_map (fun fr => map (fun _ => fst fr) (filter (fun x => x =? v) (snd fr)))
           (combine (seq 0 (List.length a)) a).

Definition first_row (v : Z) (a : list (list Z)) : result nat :=
  match rows_where v a with
  | [] => Raise (IndexError "index 0 is out of bounds for axis 0 with size 0")
  | f :: _ => Ok f
  end.

Definition amax2 (a : list (list Z)) : Z :=
  match List.concat a with
  | [] => 0
  | x :: rest => fold_right Z.max x rest
  end.

(** The second operand of [np.multiply.outer] must not be [None]. *)
Definition operand (v : option ndarray) : result ndarray :=
  match v with
  | Some a => Ok a
  | None => Raise (TypeError "unsupported operand type(s) for *")
  end.

(** Lines 295-299.  [d2] is the name bound on line 280, that is
    [tdm1s[bra,ket]]. *)
Definition crunch_1e_tdm2 (bra ket s1 : nat) (d2_ijkk : ndarray)
           (i0 i1 j0 j1 k0 k1 : nat) : M unit :=
  let s1a := (s1 * 2)%nat in
  let s1b := (s1a + 2)%nat in
  let s1s1 := (s1 * 3)%nat in
  let d2 := fun idxs => write_tdm1s (Int bra :: Int ket :: idxs) in
  (_ <~ d2 [Slice s1a s1b; Slice i0 i1; Slice j0 j1; Slice k0 k1; Slice k0 k1]
           d2_ijkk ;;
   v <~ lift (transpose [0; 3; 4; 1; 2]%nat d2_ijkk) ;;
   _ <~ d2 [Slice s1a s1b; Slice k0 k1; Slice k0 k1; Slice i0 i1; Slice j0 j1] v ;;
   x <~ lift (getitem d2_ijkk [Int s1]) ;;
   v <~ lift (transpose [0; 3; 2; 1]%nat x) ;;
   _ <~ d2 [Int s1s1; Slice i0 i1; Slice k0 k1; Slice k0 k1; Slice j0 j1] (neg v) ;;
   x <~ lift (getitem d2_ijkk [Int s1]) ;;
   v <~ lift (transpose [2; 1; 0; 3]%nat x) ;;
   d2 [Int s1s1; Slice k0 k1; Slice j0 j1; Slice i0 i1; Slice k0 k1] (neg v))%asm.

(** Lines 278-312.  The spin argument [s1] is used as an index throughout. *)
Definition crunch_1e_rule (bra ket s1 : nat) : M unit :=
  (* lines 279-280: d1 and d2 are both [tdm1s[bra,ket]] *)
  (_ <~ (t1 <~ read_tdm1s ;; lift (getitem t1 [Int bra; Int ket])) ;;
   (* lines 281-284 *)
   fhl <~ lift (frag_hop_list bra ket) ;;
   _ <~ lift (assert (NpInt.count_nonzero (List.concat fhl) =? 2) "") ;;
   _ <~ lift (assert (NpInt.sum (List.concat fhl) =? 0) "") ;;
   _ <~ lift (assert (amax2 fhl =? 1) "") ;;
   (* lines 285-290 *)
   i <~ lift (first_row 1 fhl) ;;
   j <~ lift (first_row (-1) fhl) ;;
   inti <~ lift (getl ints i) ;;
   intj <~ lift (getl ints j) ;;
   let p := offset nlas i in
   let r := offset nlas j in
   ni <~ lift (getl nlas i) ;;
   nj <~ lift (getl nlas j) ;;
   let q := (p + ni)%nat in
   let s := (r + nj)%nat in
   (* line 291 *)
   pi <~ lift (get_p inti bra ket s1) ;;
   hj <~ lift (v <- get_h intj bra ket s1 ;; operand v)%py ;;
   _ <~ write_tdm1s [Int bra; Int ket; Int s1; Full; Full] (outer pi hj) ;;
   (* lines 301-302 *)
   pph <~ lift (get_pph inti bra ket s1) ;;
   hj <~ lift (v <- get_h intj bra ket s1 ;; operand v)%py ;;
   d2_ijii <~ lift (transpose [0; 1; 4; 2; 3]%nat (outer pph hj)) ;;
   _ <~ crunch_1e_tdm2 bra ket s1 d2_ijii p q r s p q ;;
   (* lines 304-305 *)
   pi <~ lift (get_p inti bra ket s1) ;;
   phh <~ lift (v <- get_phh intj bra ket s1 ;; operand v)%py ;;
   d2_ijjj <~ lift (transpose [1; 0; 4; 2; 3]%nat (outer pi phh)) ;;
   _ <~ crunch_1e_tdm2 bra ket s1 d2_ijjj p q r s r s ;;
   (* lines 307-312 *)
   for_eachM (rows_where 0 fhl)
     (fun k =>
        let t := offset nlas k in
        nk <~ lift (getl nlas k) ;;
        let u := (t + nk)%nat in
        intk <~ lift (getl ints k) ;;
        _ <~ lift (get_dm1 intk bra ket) ;;
        d1 <~ (t1 <~ read_tdm1s ;; lift (getitem t1 [Int bra; Int ket])) ;;
        dk <~ lift (v <- get_dm1 intk bra ket ;; operand v)%py ;;
        d2_ijkk <~ lift (transpose [2; 0; 1; 3; 4]%nat (outer d1 dk)) ;;
        crunch_1e_tdm2 bra ket s1 d2_ijkk p q r s t u))%asm.

(** *** [_crunch_pair_hop], lines 324-340 *)

(** The text of an assertion message, ['{}'.format (np.amax (np.abs (x)))]. *)
Variable format_amax : ndarray -> string.

(** [np.all (np.abs (x)) < 1e-8]: [np.all] is closed before the
    comparison, so a boolean is compared with the tolerance; [True] is 1
    and [False] is 0. *)
Definition all_abs_lt_tol (x : ndarray) : bool :=
  negb (forallb (fun z => negb (Cx.eqb z Cx.zero)) (ravel x)).

(** [assert (np.all (np.abs (x + x.T)) < 1e-8), '{}'.format (...)] *)
Definition assert_antisymmetric (x : ndarray) : result unit :=
  (y <- add x (T x) ;; assert (all_abs_lt_tol y) (format_amax y))%py.

(** Lines 324-340. *)
Definition crunch_pair_hop_rule (bra ket s2lt : nat) : M unit :=
  (s2 <~ lift (getl [0; 1; 3]%nat s2lt) ;;
   _ <~ (t2 <~ read_tdm2s ;; lift (getitem t2 [Int bra; Int ket])) ;;
   let net := map (fun f => Hop.hop_sum1 nelec_fsr f bra ket) frags in
   _ <~ lift (if (bra <? nroots)%nat && (ket <? nroots)%nat then Ok tt
              else Raise (IndexError "index is out of bounds for axis")) ;;
   i <~ lift (first_index 2 net) ;;
   j <~ lift (first_index (-2) net) ;;
   let p := offset nlas i in
   let r := offset nlas j in
   ni <~ lift (getl nlas i) ;;
   nj <~ lift (getl nlas j) ;;
   let q := (p + ni)%nat in
   let s := (r + nj)%nat in
   inti <~ lift (getl ints i) ;;
   pp <~ lift (get_pp inti bra ket s2lt) ;;
   _ <~ lift (if (s2lt =? 1)%nat then assert_antisymmetric pp else Ok tt) ;;
   intj <~ lift (getl ints j) ;;
   hh <~ lift (get_hh intj bra ket s2lt) ;;
   _ <~ lift (if (s2lt =? 1)%nat then
                (x <- attr "T" hh ;; assert_antisymmetric x)%py
              else Ok tt) ;;
   hh <~ lift (operand hh) ;;
   d2_ijij <~ lift (transpose [0; 3; 1; 2]%nat (outer pp hh)) ;;
   _ <~ write_tdm2s [Int bra; Int ket; Int s2; Slice p q; Slice r s; Slice p q; Slice r s]
                    d2_ijij ;;
   if (s2lt =? 1)%nat then
     v <~ lift (transpose [2; 3; 0; 1]%nat d2_ijij) ;;
     write_tdm2s [Int bra; Int ket; Int 2; Slice p q; Slice r s; Slice p q; Slice r s] v
   else ret tt)%asm.

(** *** [_crunch_pair_split], lines 344-368 *)

(** [np.where (xs == v)[0]] of a one-dimensional array. *)
Definition where_eq (v : Z) (xs : list Z) : list nat :=
  NpInt.where1 (List.length xs) (fun f => nth f xs 0 =? v).

(** The state indices of [hopping_index[...,bra,ket]] must be in range. *)
Definition pair_in_range (bra ket : nat) : result unit :=
  if (bra <? nroots)%nat && (ket <? nroots)%nat then Ok tt
  else Raise (IndexError "index is out of bounds for axis").

(** Lines 344-368. *)
Definition crunch_pair_split_rule (bra ket s2lt : nat) : M unit :=
  (s2 <~ lift (getl [0; 1; 3]%nat s2lt) ;;
   s2T <~ lift (getl [0; 2; 3]%nat s2lt) ;;
   _ <~ (t2 <~ read_tdm2s ;; lift (getitem t2 [Int bra; Int ket])) ;;
   _ <~ lift (pair_in_range bra ket) ;;
   let net := map (fun f => Hop.hop_sum1 nelec_fsr f bra ket) frags in
   (* lines 350-356 *)
   sel <~ lift (if (s2lt =? 1)%nat then
                  (i <- first_index 1 (map (fun f => hop f 0%nat bra ket) frags) ;;
                   j <- first_index 1 (map (fun f => hop f 1%nat bra ket) frags) ;;
                   Ok (0%nat, 1%nat, (i, j)))%py
                else
                  (ij <- Kernel.unpack2 (where_eq 1 net) ;;
                   Ok ((s2lt / 2)%nat, (s2lt / 2)%nat, ij))%py) ;;
   let s1i := fst (fst sel) in
   let s1j := snd (fst sel) in
   let i := fst (snd sel) in
   let j := snd (snd sel) in
   k <~ lift (first_index (-2) net) ;;
   (* line 358 *)
   inti <~ lift (getl ints i) ;;
   pi <~ lift (get_p inti bra ket s1i) ;;
   intj <~ lift (getl ints j) ;;
   pj <~ lift (get_p intj bra ket s1j) ;;
   let pp := outer pi pj in
   (* lines 359-361 *)
   intk <~ lift (getl ints k) ;;
   hh <~ lift (get_hh intk bra ket s2lt) ;;
   _ <~ lift (if (s2lt =? 1)%nat then
                (x <- attr "T" hh ;; assert_antisymmetric x)%py
              else Ok tt) ;;
   hh <~ lift (operand hh) ;;
   d2_ikjk <~ lift (transpose [0; 3; 1; 2]%nat (outer pp hh)) ;;
   (* lines 362-363 *)
   let p := offset nlas i in
   let r := offset nlas j in
   let t := offset nlas k in
   ni <~ lift (getl nlas i) ;;
   nj <~ lift (getl nlas j) ;;
   nk <~ lift (getl nlas k) ;;
   let q := (p + ni)%nat in
   let s := (r + nj)%nat in
   let u := (t + nk)%nat in
   (* lines 364-365 *)
   _ <~ write_tdm2s [Int bra; Int ket; Int s2; Slice p q; Slice t u; Slice r s; Slice t u]
                    d2_ikjk ;;
   v <~ lift (transpose [2; 3; 0; 1]%nat d2_ikjk) ;;
   _ <~ write_tdm2s [Int bra; Int ket; Int s2T; Slice r s; Slice t u; Slice p q; Slice t u]
                    v ;;
   (* lines 366-368 *)
   if (s2 =? s2T)%nat then
     t2 <~ read_tdm2s ;;
     a <~ lift (getitem t2 [Int bra; Int ket; Int s2;
                             Slice p q; Slice t u; Slice r s; Slice t u]) ;;
     b <~ lift (getitem t2 [Int bra; Int ket; Int s2;
                             Slice r s; Slice t u; Slice p q; Slice t u]) ;;
     bt <~ lift (transpose [2; 3; 0; 1]%nat b) ;;
     test <~ lift (add a bt) ;;
     lift (assert (all_abs_lt_tol test) (format_amax test))
   else ret tt)%asm.

(** *** [_crunch_2e], lines 370-395 *)

(** Lines 370-395.  Line 392 reads the name [d2_ikjk], which this function
    binds nowhere (the block it computes is [d2_ijkl]); lines 393-395 are
    never reached. *)
Definition crunch_2e_rule (bra ket s2lt : nat) : M unit :=
  (s2 <~ lift (getl [0; 1; 3]%nat s2lt) ;;
   s2T <~ lift (getl [0; 2; 3]%nat s2lt) ;;
   _ <~ (t2 <~ read_tdm2s ;; lift (getitem t2 [Int bra; Int ket])) ;;
   _ <~ lift (pair_in_range bra ket) ;;
   let net := map (fun f => Hop.hop_sum1 nelec_fsr f bra ket) frags in
   (* lines 376-385 *)
   sel <~ lift (if (s2lt =? 1)%nat then
                  (i <- first_index 1 (map (fun f => hop f 0%nat bra ket) frags) ;;
                   k <- first_index 1 (map (fun f => hop f 1%nat bra ket) frags) ;;
                   j <- first_index (-1) (map (fun f => hop f 0%nat bra ket) frags) ;;
                   l <- first_index (-1) (map (fun f => hop f 1%nat bra ket) frags) ;;
                   Ok (0%nat, 1%nat, ((i, k), (j, l))))%py
                else
                  (ik <- Kernel.unpack2 (where_eq 1 net) ;;
                   jl <- Kernel.unpack2 (where_eq (-1) net) ;;
                   Ok ((s2lt / 2)%nat, (s2lt / 2)%nat, (ik, jl)))%py) ;;
   let s11 := fst (fst sel) in
   let s12 := snd (fst sel) in
   let i := fst (fst (snd sel)) in
   let k := snd (fst (snd sel)) in
   let j := fst (snd (snd sel)) in
   let l := snd (snd (snd sel)) in
   (* line 386 *)
   inti <~ lift (getl ints i) ;;
   pi <~ lift (get_p inti bra ket s11) ;;
   intk <~ lift (getl ints k) ;;
   pk <~ lift (get_p intk bra ket s12) ;;
   let pp := outer pi pk in
   (* line 387 *)
   intl <~ lift (getl ints l) ;;
   hl <~ lift (get_h intl bra ket s11) ;;
   intj <~ lift (getl ints j) ;;
   pj <~ lift (get_p intj bra ket s12) ;;
   hl <~ lift (operand hl) ;;
   let hh := outer hl pj in
   (* line 388 *)
   d2_ijkl <~ lift (transpose [0; 3; 1; 2]%nat (outer pp hh)) ;;
   (* lines 389-390 *)
   let p := offset nlas i in
   let r := offset nlas j in
   let t := offset nlas k in
   let v := offset nlas l in
   ni <~ lift (getl nlas i) ;;
   nj <~ lift (getl nlas j) ;;
   nk <~ lift (getl nlas k) ;;
   nl <~ lift (getl nlas l) ;;
   let q := (p + ni)%nat in
   let s := (r + nj)%nat in
   let u := (t + nk)%nat in
   let w := (v + nl)%nat in
   (* line 391 *)
   _ <~ write_tdm2s [Int bra; Int ket; Int s2; Slice p q; Slice r s; Slice t u; Slice v w]
                    d2_ijkl ;;
   (* line 392 *)
   d2_ikjk <~ lift (Raise (NameError "d2_ikjk")) ;;
   x <~ lift (transpose [2; 3; 0; 1]%nat d2_ikjk) ;;
   _ <~ write_tdm2s [Int bra; Int ket; Int s2T; Slice r s; Slice t u; Slice p q; Slice t u]
                    x ;;
   (* lines 393-395 *)
   if (s2 =? s2T)%nat then
     x <~ lift (transpose [0; 3; 2; 1]%nat d2_ijkl) ;;
     _ <~ write_tdm2s [Int bra; Int ket; Int s2;
                       Slice p q; Slice v w; Slice t u; Slice r s] (neg x) ;;
     x <~ lift (transpose [2; 1; 0; 3]%nat d2_ijkl) ;;
     write_tdm2s [Int bra; Int ket; Int s2;
                  Slice t u; Slice r s; Slice p q; Slice v w] (neg x)
   else ret tt)%asm.

(** *** Third pass, lines 422-426 *)

(** [tdm1s += x] and [tdm2s += x] *)
Definition iadd_tdm1s (x : ndarray) : M unit :=
  fun st =>
    match iadd (fst st) x with
    | Ok t => ((t, snd st), Ok tt)
    | Raise e => (st, Raise e)
    end.

Definition iadd_tdm2s (x : ndarray) : M unit :=
  fun st =>
    match iadd (snd st) x with
    | Ok t => ((fst st, t), Ok tt)
    | Raise e => (st, Raise e)
    end.

(** Line 423. *)
Definition add_adjoint_tdm1s : M unit :=
  (t1 <~ read_tdm1s ;;
   a <~ lift (transpose [1; 0; 2; 4; 3]%nat (conj t1)) ;;
   iadd_tdm1s a)%asm.

(** Line 424: the right-hand side reads [tdm1s]. *)
Definition add_adjoint_tdm2s : M unit :=
  (t1 <~ read_tdm1s ;;
   a <~ lift (transpose [1; 0; 2; 4; 3; 6; 5]%nat (conj t1)) ;;
   iadd_tdm2s a)%asm.

(** The null rule [_crunch_null] (lines 257-276) is a parameter of the
    third pass. *)
Variable crunch_null_rule : nat -> nat -> M unit.

Definition third_pass : M unit :=
  (_ <~ add_adjoint_tdm1s ;;
   _ <~ add_adjoint_tdm2s ;;
   for_eachM (seq 0 nroots) (fun ket => crunch_null_rule ket ket))%asm.

(** *** Second pass, lines 399-419 *)

(** The spin-hop rule [_crunch_spin_hop] (lines 314-322) is a parameter of
    the second pass. *)
Variable crunch_spin_hop_rule : nat -> nat -> M unit.

(** The call of a rule; the spin argument is used as an index. *)
Definition run (c : call) : M unit :=
  match c with
  | crunch_null bra ket => crunch_null_rule bra ket
  | crunch_1e bra ket s1 => crunch_1e_rule bra ket (Z.to_nat s1)
  | crunch_spin_hop bra ket => crunch_spin_hop_rule bra ket
  | crunch_pair_hop bra ket s2lt => crunch_pair_hop_rule bra ket (Z.to_nat s2lt)
  | crunch_pair_split bra ket s2lt => crunch_pair_split_rule bra ket (Z.to_nat s2lt)
  | crunch_2e bra ket s2lt => crunch_2e_rule bra ket (Z.to_nat s2lt)
  end.

(** Lines 400-419: the body of the loop. *)
Definition second_pass_body (bra ket : nat) : M unit :=
  (c <~ lift (dispatch bra ket) ;;
   match c with
   | Some c => run c
   | None => ret tt
   end)%asm.

(** Lines 399-419. *)
Definition second_pass : M unit :=
  for_eachM (combinations2 nroots)
            (fun bk => second_pass_body (fst bk) (snd bk)).

End Engine.

End Assembly.

(* ------------------------------------------------------------------------- *)
(** ** [is_hybrid_or_rsh] of [my_pyscf/mcpdft/_libxc.py], lines 68-72 *)

Module Libxc.

Import Py.

Section Predicate.

(** The collaborator routines of [pyscf.dft.libxc]; they raise on a code
    they do not accept. *)
Variable hybrid_coeff : string -> result float.
Variable rsh_coeff : string -> result (float * float * float).

(** [abs (x) > 1e-10] *)
Definition non0 (x : float) : bool := PrimFloat.ltb 1e-10 (PrimFloat.abs x).

Definition is_hybrid_or_rsh (xc_code : string) : result bool :=
  (hyb <- hybrid_coeff xc_code ;;
   oab <- rsh_coeff xc_code ;;
   let '(omega, alpha, beta) := oab in
   Ok (existsb (fun b : bool => b) (map non0 [hyb; omega])))%py.

End Predicate.

End Libxc.

(* ------------------------------------------------------------------------- *)
(** ** [my_pyscf/mcpdft/_libxc.py]: the tables and [split_x_c_comma] *)

Module LibxcSplit.

(** A value of the dictionary [XC_CODES]: an integer code or a string. *)
Inductive code_value : Type :=
| IntCode (n : Z)
| StrCode (s : string).

Definition code_eqb (a b : code_value) : bool :=
  match a, b with
  | IntCode n, IntCode m => n =? m
  | StrCode x, StrCode y => String.eqb x y
  | _, _ => false
  end.

(** The exceptions of this file.  [XCSplitError] (lines 19-29) carries the
    attribute [path] and, once the instance has been called, [message]. *)
Inductive exn : Type :=
| KeyError (key : code_value)
| XCSplitError (message : option string) (path : string).

Inductive result (A : Type) : Type :=
| Ok (a : A)
| Raise (e : exn).
Arguments Ok {A} a.
Arguments Raise {A} e.

Definition bind {A B} (c : result A) (k : A -> result B) : result B :=
  match c with
  | Ok a => k a
  | Raise e => Raise e
  end.

(** *** Python strings *)

(** [c in s] for a one-character string [c] *)
Fixpoint has_char (c : Ascii.ascii) (s : string) : bool :=
  match s with
  | EmptyString => false
  | String a rest => Ascii.eqb a c || has_char c rest
  end.

(** [s.split (c)] *)
Fixpoint split_on (c : Ascii.ascii) (s : string) : list string :=
  match s with
  | EmptyString => [EmptyString]
  | String a rest =>
      if Ascii.eqb a c then EmptyString :: split_on c rest
      else match split_on c rest with
           | w :: ws => String a w :: ws
           | [] => [String a EmptyString]
           end
  end.

(** [c.join (words)] *)
Fixpoint join (c : Ascii.ascii) (words : list string) : string :=
  match words with
  | [] => EmptyString
  | [w] => w
  | w :: rest => (w ++ String c (join c rest))%string
  end.

(** [s[:-1]] *)
Fixpoint drop_last (s : string) : string :=
  match s with
  | EmptyString => EmptyString
  | String a EmptyString => EmptyString
  | String a rest => String a (drop_last rest)
  end.

Definition comma : Ascii.ascii := Ascii.ascii_of_nat 44.
Definition underscore : Ascii.ascii := Ascii.ascii_of_nat 95.

(** *** Dictionaries as lists of items, in insertion order *)

Fixpoint lookup {V} (d : list (string * V)) (k : string) : option V :=
  match d with
  | [] => None
  | (k', v) :: rest => if String.eqb k' k then Some v else lookup rest k
  end.

(** A dictionary keyed by code values; the item written last comes first. *)
Fixpoint lookup_code {V} (d : list (code_value * V)) (k : code_value) : option V :=
  match d with
  | [] => None
  | (k', v) :: rest => if code_eqb k' k then Some v else lookup_code rest k
  end.

Section Tables.

(** The tables of [pyscf.dft.libxc], and the two string operations of
    Python that are left to the interpreter: [str.upper] and the formatting
    of an integer. *)
Variable XC_ALIAS : list (string * string).
Variable XC_CODES : list (string * code_value).
Variable XC_KEYS : list string.
Variable upper : string -> string.
Variable str_int : Z -> string.

(** Line 6. *)
Definition XC_TYPE_HDR : list string := ["LDA_"; "GGA_"; "MGGA_"]%string.

(** Lines 11-13: [mykey]. *)
Definition strip_hyb (key : string) : string :=
  if String.prefix "HYB_" key
  then String.substring 4 (String.length key - 4) key
  else key.

(** Line 14: [mykey.startswith (XC_TYPE_HDR)]. *)
Definition has_header (mykey : string) : bool :=
  existsb (fun h => String.prefix h mykey) XC_TYPE_HDR.

(** Lines 15-16: [mykey.split ('_')[1]]; the word exists because [mykey]
    starts with a header that ends in an underscore. *)
Definition type_word (mykey : string) : string :=
  nth 1 (split_on underscore mykey) EmptyString.

(** Lines 9-16: one round of the loop over [XC_CODES.items ()]; the state is
    [(INTCODES_TYPES, INTCODES_HYB)]. *)
Definition table_step (st : list (code_value * string) * list code_value)
           (item : string * code_value)
  : list (code_value * string) * list code_value :=
  let key := fst item in
  let val := snd item in
  let hyb := if String.prefix "HYB_" key then snd st ++ [val] else snd st in
  let mykey := strip_hyb key in
  if has_header mykey then ((val, type_word mykey) :: fst st, hyb)
  else (fst st, hyb).

Definition tables : list (code_value * string) * list code_value :=
  fold_left table_step XC_CODES ([], []).

Definition INTCODES_TYPES : list (code_value * string) := fst tables.

(** Line 17. *)
Definition INTCODES_HYB : list code_value := snd tables.

(** Lines 22 and 26: the path of the error object. *)
Definition path_init (xc : string) : string := (xc ++ "->?")%string.
Definition path_extend (path xc : string) : string :=
  (drop_last path ++ xc ++ "->?")%string.

(** Lines 41-62: the branches of one round of the loop that do not leave
    it; the result is the new value of [xc]. *)
Definition body (xc path : string) : result string :=
  match lookup XC_ALIAS xc with
  | Some alias => Ok alias
  | None =>
      match lookup XC_CODES xc with
      | None => Raise (KeyError (StrCode xc))
      | Some (IntCode xc_int) =>
          if existsb (code_eqb (IntCode xc_int)) INTCODES_HYB then
            Raise (XCSplitError (Some "LibXC built-in hybrid"%string) path)
          else
            match lookup_code INTCODES_TYPES (IntCode xc_int) with
            | None => Raise (KeyError (IntCode xc_int))
            | Some xc_type =>
                if String.eqb xc_type "X" then Ok (xc ++ ",")%string
                else if String.eqb xc_type "C" then Ok ("," ++ xc)%string
                else if String.eqb xc_type "XC" then
                  Raise (XCSplitError (Some "LibXC built-in X+C functional"%string) path)
                else if String.eqb xc_type "K" then
                  Raise (XCSplitError (Some "Kinetic energy functional"%string) path)
                else
                  Raise (XCSplitError
                           (Some ("Unknown functional type " ++ xc_type ++
                                  " for code " ++ str_int xc_int)%string) path)
            end
      | Some (StrCode code) =>
          if existsb (String.eqb xc) XC_KEYS then Ok code
          else Raise (XCSplitError None path)
      end
  end.

(** Lines 38-63: [n] rounds of the loop; the result is the state at its
    exit. *)
Fixpoint loop (n : nat) (xc path : string) : result (string * string) :=
  match n with
  | O => Ok (xc, path)
  | S n' =>
      if has_char comma xc then Ok (xc, path)
      else bind (body xc path)
                (fun xc' => loop n' xc' (path_extend path xc'))
  end.

Definition max_recurse : nat := 5.

(** Lines 31-66. *)
Definition split_x_c_comma (xc : string) : result (list string) :=
  let xc := upper xc in
  bind (loop max_recurse xc (path_init xc))
       (fun st =>
          if negb (has_char comma (fst st)) then
            Raise (XCSplitError (Some "Maximum XC alias recursion depth"%string)
                                (snd st))
          else Ok (split_on comma (fst st))).

End Tables.

End LibxcSplit.

(* ------------------------------------------------------------------------- *)
(** ** Concrete systems used in the examples *)

Module Examples.

(** Two fragments, two states; one alpha electron sits in fragment 0 in
    state 0 and in fragment 1 in state 1. *)
Definition one_hop : list (list (list Z)) :=
  [ [[1; 0]; [0; 0]];
    [[0; 1]; [0; 0]] ].

(** One fragment, two states with the same electron numbers. *)
Definition same_counts : list (list (list Z)) :=
  [ [[1; 1]; [0; 0]] ].


(** One fragment, two states that differ by a spin flip. *)
Definition spin_flip : list (list (list Z)) :=
  [ [[1; 0]; [0; 1]] ].



(** Two fragments, two states; spin exchange between the fragments. *)
Definition spin_exchange : list (list (list Z)) :=
  [ [[1; 0]; [0; 1]];
    [[0; 1]; [1; 0]] ].

(** *** Stores and a stand-in for the solver *)

Import Np Store.

Definition empty2 : table := [[None; None]; [None; None]].

(** A store of two states with empty tables; [self.ci] is not bound. *)
Definition blank (norb0 : nat) (nelec_r0 : list (Z * Z)) : LSTDMint :=
  {| norb := norb0; nroots := PyInt 2; nelec_r := nelec_r0;
     _h := [empty2; empty2];
     _hh := [empty2; empty2; empty2];
     _phh := [empty2; empty2];
     _sm := empty2; dm1 := empty2; dm2 := empty2;
     ci := None |}.

Definition one : Cx.t := Cx.mk 1 0.
Definition imag : Cx.t := Cx.mk 0 1.

(** A 2 x 2 x 2 array whose only non-zero element is [x[0,0,1] = i]. *)
Definition dm_i : ndarray :=
  Np.mk [2; 2; 2]%nat
        (fun idx => match idx with
                    | [0; 0; 1]%nat => imag
                    | _ => Cx.zero
                    end).

(** A symmetric matrix, which is not antisymmetric. *)
Definition sym2 : ndarray :=
  Np.mk [2; 2]%nat
        (fun idx => match idx with
                    | [0; 1]%nat | [1; 0]%nat => one
                    | _ => Cx.zero
                    end).

(** A matrix without a zero in [x + x.T]. *)
Definition ones2 : ndarray := Np.mk [2; 2]%nat (fun _ => one).

(** The stores of the two fragments of [one_hop], one orbital each, with a
    1-operator amplitude in the slots that [_crunch_1e (0, 1, 0)] reads. *)
Definition frag0 : LSTDMint :=
  with_h (blank 1 [(1, 0); (0, 0)])
         [[[None; Some (of_list [one])]; [None; None]]; empty2].

Definition frag1 : LSTDMint :=
  with_h (blank 1 [(0, 0); (1, 0)])
         [[[None; None]; [Some (of_list [imag]); None]]; empty2].

(** The stores of the same fragments with the amplitudes where the builder
    puts them: at the pair whose bra has lost the electron. *)
Definition frag0_built : LSTDMint :=
  with_h (blank 1 [(1, 0); (0, 0)])
         [[[None; None]; [Some (of_list [one]); None]]; empty2].

Definition frag1_built : LSTDMint :=
  with_h (blank 1 [(0, 0); (1, 0)])
         [[[None; Some (of_list [one])]; [None; None]]; empty2].

Definition tdm1s0 : ndarray := zeros [2; 2; 2; 2; 2]%nat.
Definition tdm2s0 : ndarray := zeros [2; 2; 4; 2; 2; 2; 2]%nat.

(** A solver that returns zero densities of the right shapes and whose
    annihilation operators return their argument. *)
Definition trans_rdm12s0 (i : nat) (bra ket : ndarray) (norb : nat)
           (nelec : Z * Z) : ndarray * ndarray :=
  (zeros [2; norb; norb]%nat, zeros [4; norb; norb; norb; norb]%nat).

Definition des0 (c : ndarray) (norb : nat) (nelec : Z * Z) (p : nat) : ndarray := c.

Definition ci0 : list ndarray := [of_list [one]; of_list [one]].

(** Two fragments, two states: nothing changes in fragment 0, one alpha
    electron leaves fragment 1. *)
Definition idle_and_loss : list (list (list Z)) :=
  [ [[1; 1]; [0; 0]];
    [[1; 0]; [0; 0]] ].

(** One fragment, two states; state 0 has two alpha electrons less. *)
Definition pair_loss : list (list (list Z)) :=
  [ [[0; 2]; [0; 0]] ].

Definition format0 (x : ndarray) : string := "amax".

(** The store of the single fragment of [pair_loss], two orbitals, to which
    the amplitude vectors have been attached from outside as [self.ci]. *)
Definition attached : LSTDMint :=
  {| norb := 2; nroots := PyInt 2; nelec_r := [(0, 0); (2, 0)];
     _h := [empty2; empty2];
     _hh := [empty2; empty2; empty2];
     _phh := [empty2; empty2];
     _sm := empty2; dm1 := empty2; dm2 := empty2;
     ci := Some [of_list [one; imag]; of_list [imag; one]] |}.

(** An annihilation operator that scales its argument by the orbital
    number plus one. *)
Definition des_scale (c : ndarray) (norb : nat) (nelec : Z * Z) (p : nat) : ndarray :=
  Np.mk (shape c) (fun idx => Cx.mul (Cx.mk (Z.of_nat (S p)) 0) (item c idx)).

(** Two fragments of two orbitals, two states; two alpha electrons move
    together from fragment 1 to fragment 0.  The stores hold a symmetric
    2-operator amplitude where the builder stores the alpha-alpha one. *)
Definition pair_hop : list (list (list Z)) :=
  [ [[2; 0]; [0; 0]];
    [[0; 2]; [0; 0]] ].

Definition pair0 (x : ndarray) : LSTDMint :=
  with_hh (blank 2 [(2, 0); (0, 0)])
          [[[None; None]; [Some x; None]]; [[None; None]; [Some x; None]]; empty2].

Definition pair1 (x : ndarray) : LSTDMint :=
  with_hh (blank 2 [(0, 0); (2, 0)])
          [[[None; Some x]; [None; None]]; [[None; Some x]; [None; None]]; empty2].

(** A 2-body tensor of two states and two orbitals whose only non-zero
    element belongs to the pair (0,1). *)
Definition tdm2s_upper : ndarray :=
  Np.mk [2; 2; 4; 2; 2; 2; 2]%nat
        (fun idx => match idx with
                    | [0; 1; 0; 0; 0; 0; 0]%nat => imag
                    | _ => Cx.zero
                    end).

Definition tdm1s4 : ndarray := zeros [2; 2; 2; 4; 4]%nat.
Definition tdm2s4 : ndarray := zeros [2; 2; 4; 4; 4; 4; 4]%nat.

(** Four fragments of one orbital, two states; fragments 0 and 1 each gain
    an alpha electron that fragments 2 and 3 lose.  The stores hold the
    1-operator amplitudes that [_crunch_2e (0, 1, 0)] reads. *)
Definition four_hop : list (list (list Z)) :=
  [ [[1; 0]; [0; 0]];
    [[1; 0]; [0; 0]];
    [[0; 1]; [0; 0]];
    [[0; 1]; [0; 0]] ].

Definition ints4 : list LSTDMint := [frag0_built; frag1; frag0_built; frag0].

(** Three fragments of one, one and two orbitals, two states; fragment 0
    gains an alpha electron and fragment 1 a beta electron that fragment 2
    loses.  The stores hold the amplitudes that
    [_crunch_pair_split (0, 1, 1)] reads. *)
Definition split_hop : list (list (list Z)) :=
  [ [[1; 0]; [0; 0]];
    [[0; 0]; [1; 0]];
    [[0; 1]; [0; 1]] ].

Definition ints3 : list LSTDMint :=
  [ frag0_built;
    with_h (blank 1 [(0, 1); (0, 0)])
           [empty2; [[None; None]; [Some (of_list [imag]); None]]];
    with_hh (blank 2 [(0, 0); (1, 1)])
            [empty2; [[None; Some sym2]; [None; None]]; empty2] ].

(** *** Tables for [split_x_c_comma] *)

(** [str.upper] on the letters of the ASCII alphabet. *)
Definition upper_char (c : Ascii.ascii) : Ascii.ascii :=
  let n := Ascii.nat_of_ascii c in
  if ((97 <=? n) && (n <=? 122))%nat then Ascii.ascii_of_nat (n - 32) else c.

Fixpoint upper_ascii (s : string) : string :=
  match s with
  | EmptyString => EmptyString
  | String c rest => String (upper_char c) (upper_ascii rest)
  end.

Definition xc_alias : list (string * string) :=
  [("PBE", "PBE,PBE"); ("LOOP", "LOOP")]%string.

Definition xc_codes : list (string * LibxcSplit.code_value) :=
  [("GGA_X_PBE", LibxcSplit.IntCode 101);
   ("GGA_C_PBE", LibxcSplit.IntCode 130);
   ("HYB_GGA_XC_B3LYP", LibxcSplit.IntCode 402);
   ("B3LYP5", LibxcSplit.IntCode 402);
   ("SLATER", LibxcSplit.StrCode "LDA_X")]%string.

Definition xc_keys : list string := map fst xc_codes.

Definition str_int0 (n : Z) : string := "n"%string.

End Examples.

(* ------------------------------------------------------------------------- *)
(** ** Quantities in the words of the specification *)

Module Spec.

(** "The total absolute hop magnitude over all fragments and spins" of a
    state pair. *)
Definition total_abs_hop (nelec_fsr : list (list (list Z))) (b k : nat) : Z :=
  NpInt.sum (map (fun f => Z.abs (Hop.hopping_index nelec_fsr f 0 b k)
                           + Z.abs (Hop.hopping_index nelec_fsr f 1 b k))
                 (Hop.frags nelec_fsr)).


(** "TDM1[k,b] equals the conjugate transpose of TDM1[b,k] over orbital
    indices", for [R] states and [n] orbitals. *)
Definition tdm1_hermitian (R n : nat) (t : Np.ndarray) : Prop :=
  forall b k s p q,
    (b < R)%nat -> (k < R)%nat -> (s < 2)%nat -> (p < n)%nat -> (q < n)%nat ->
    Np.item t [k; b; s; q; p] = Cx.conj (Np.item t [b; k; s; p; q]).

(** "Analogous for TDM2 with a four-index transpose": the orbital indices
    are exchanged pairwise. *)
Definition tdm2_hermitian (R n : nat) (t : Np.ndarray) : Prop :=
  forall b k s p q r u,
    (b < R)%nat -> (k < R)%nat -> (s < 4)%nat ->
    (p < n)%nat -> (q < n)%nat -> (r < n)%nat -> (u < n)%nat ->
    Np.item t [k; b; s; q; p; u; r] = Cx.conj (Np.item t [b; k; s; p; q; r; u]).

End Spec.

(* ========================================================================= *)
(** * Properties *)

(* ------------------------------------------------------------------------- *)
(** ** Sums and counts over the fragments *)

Lemma sum_nil : NpInt.sum [] = 0.
Proof. reflexivity. Qed.

Lemma sum_cons (x : Z) (xs : list Z) : NpInt.sum (x :: xs) = x + NpInt.sum xs.
Proof. reflexivity. Qed.

Ltac sum_step := simpl map; rewrite ?sum_cons, ?sum_nil.

Section FragmentSums.

Variables a b : nat -> Z.

Lemma sum_abs_parity (g : nat -> Z) (l : list nat) :
  exists m, 0 <= m /\
    NpInt.sum (map (fun f => Z.abs (g f)) l) = NpInt.sum (map g l) + 2 * m.
Proof.
  induction l as [|f l [m [Hm IH]]]; sum_step.
  - exists 0. lia.
  - rewrite IH. destruct (Z_lt_le_dec (g f) 0).
    + exists (m - g f). lia.
    + exists m. lia.
Qed.

Lemma sum_abs_nonneg (g : nat -> Z) (l : list nat) :
  0 <= NpInt.sum (map (fun f => Z.abs (g f)) l).
Proof. induction l; sum_step; lia. Qed.

(** Summing over the spins first or over the fragments first. *)
Lemma sum_swap (l : list nat) :
  NpInt.sum (map (fun f => Z.abs (a f) + (Z.abs (b f) + 0)) l) =
  NpInt.sum (map (fun f => Z.abs (a f)) l)
  + NpInt.sum (map (fun f => Z.abs (b f)) l).
Proof. induction l; sum_step; lia. Qed.

Lemma count_nonzero_cons (h : nat -> Z) (f : nat) (l : list nat) :
  NpInt.count_nonzero (map h (f :: l)) =
  (if h f =? 0 then 0 else 1) + NpInt.count_nonzero (map h l).
Proof.
  unfold NpInt.count_nonzero. cbn [map filter].
  destruct (h f =? 0); cbn [negb List.length]; [lia|].
  rewrite Nat2Z.inj_succ. lia.
Qed.

Lemma count_nonzero_nonneg (h : nat -> Z) (l : list nat) :
  0 <= NpInt.count_nonzero (map h l).
Proof. unfold NpInt.count_nonzero. lia. Qed.

(** A fragment that takes part in the hop moves at least one electron. *)
Lemma count_le_sum (l : list nat) :
  NpInt.count_nonzero (map (fun f => Z.abs (a f) + (Z.abs (b f) + 0)) l)
  <= NpInt.sum (map (fun f => Z.abs (a f) + (Z.abs (b f) + 0)) l).
Proof.
  induction l as [|f l IH].
  - unfold NpInt.count_nonzero. simpl. lia.
  - rewrite count_nonzero_cons. sum_step.
    destruct (Z.eqb_spec (Z.abs (a f) + (Z.abs (b f) + 0)) 0); lia.
Qed.

Lemma count_zero_sums (l : list nat) :
  NpInt.count_nonzero (map (fun f => Z.abs (a f) + (Z.abs (b f) + 0)) l) = 0 ->
  NpInt.sum (map a l) = 0 /\ NpInt.sum (map b l) = 0 /\
  NpInt.sum (map (fun f => Z.abs (a f) + (Z.abs (b f) + 0)) l) = 0.
Proof.
  induction l as [|f l IH]; [sum_step; auto|].
  rewrite count_nonzero_cons. sum_step.
  pose proof (count_nonzero_nonneg (fun f => Z.abs (a f) + (Z.abs (b f) + 0)) l).
  destruct (Z.eqb_spec (Z.abs (a f) + (Z.abs (b f) + 0)) 0); intros Hc; [|lia].
  destruct IH as [Ha [Hb Hh]]; lia.
Qed.

(** With a single fragment taking part, the hops cannot cancel. *)
Lemma count_one_sums (l : list nat) :
  NpInt.count_nonzero (map (fun f => Z.abs (a f) + (Z.abs (b f) + 0)) l) = 1 ->
  Z.abs (NpInt.sum (map a l)) + Z.abs (NpInt.sum (map b l)) <> 0.
Proof.
  induction l as [|f l IH]; [unfold NpInt.count_nonzero; simpl; lia|].
  rewrite count_nonzero_cons. sum_step.
  pose proof (count_nonzero_nonneg (fun f => Z.abs (a f) + (Z.abs (b f) + 0)) l).
  destruct (Z.eqb_spec (Z.abs (a f) + (Z.abs (b f) + 0)) 0); intros Hc.
  - assert (Hl : NpInt.count_nonzero
              (map (fun f => Z.abs (a f) + (Z.abs (b f) + 0)) l) = 1) by lia.
    specialize (IH Hl). lia.
  - assert (Hl : NpInt.count_nonzero
              (map (fun f => Z.abs (a f) + (Z.abs (b f) + 0)) l) = 0) by lia.
    destruct (count_zero_sums l Hl) as [Ha [Hb _]]. lia.
Qed.

(** Fragments without net charge transfer move as many alpha as beta
    electrons. *)
Lemma all_net_zero (l : list nat) :
  NpInt.all_zero (map (fun f => a f + (b f + 0)) l) = true ->
  NpInt.sum (map (fun f => Z.abs (a f)) l) =
  NpInt.sum (map (fun f => Z.abs (b f)) l) /\
  NpInt.count_nonzero (map (fun f => a f + (b f + 0)) l) = 0.
Proof.
  induction l as [|f l IH]; [sum_step; auto|].
  unfold NpInt.all_zero. simpl forallb. intros H.
  apply andb_true_iff in H. destruct H as [Hf Hl].
  rewrite count_nonzero_cons. sum_step.
  destruct (IH Hl) as [Hs Hc]. rewrite Hf.
  apply Z.eqb_eq in Hf. lia.
Qed.

Lemma count_net_zero (l : list nat) :
  NpInt.count_nonzero (map (fun f => a f + (b f + 0)) l) = 0 ->
  NpInt.sum (map (fun f => Z.abs (a f)) l) =
  NpInt.sum (map (fun f => Z.abs (b f)) l).
Proof.
  induction l as [|f l IH]; [sum_step; auto|].
  rewrite count_nonzero_cons. sum_step.
  pose proof (count_nonzero_nonneg (fun f => a f + (b f + 0)) l).
  destruct (Z.eqb_spec (a f + (b f + 0)) 0); intros Hc; [|lia].
  assert (Hl : NpInt.count_nonzero (map (fun f => a f + (b f + 0)) l) = 0) by lia.
  specialize (IH Hl). lia.
Qed.

End FragmentSums.

(* ------------------------------------------------------------------------- *)
(** ** The classification of a state pair *)

Section Classification.

Variable nelec_fsr : list (list (list Z)).
Variables b k : nat.

Let ha := fun f => Hop.hopping_index nelec_fsr f 0 b k.
Let hb := fun f => Hop.hopping_index nelec_fsr f 1 b k.
Let fs := Hop.frags nelec_fsr.

Lemma nsop_alpha :
  Hop.nsop_index nelec_fsr 0 b k = NpInt.sum (map (fun f => Z.abs (ha f)) fs).
Proof. reflexivity. Qed.

Lemma nsop_beta :
  Hop.nsop_index nelec_fsr 1 b k = NpInt.sum (map (fun f => Z.abs (hb f)) fs).
Proof. reflexivity. Qed.

Lemma nop_split :
  Hop.nop_index nelec_fsr b k =
  Hop.nsop_index nelec_fsr 0 b k + Hop.nsop_index nelec_fsr 1 b k.
Proof. unfold Hop.nop_index, Hop.spins. sum_step. lia. Qed.

Lemma nfrag_unfold :
  Hop.nfrag_index nelec_fsr b k =
  NpInt.count_nonzero (map (fun f => Z.abs (ha f) + (Z.abs (hb f) + 0)) fs).
Proof. reflexivity. Qed.

Lemma ncharge_unfold :
  Hop.ncharge_index nelec_fsr b k =
  NpInt.count_nonzero (map (fun f => ha f + (hb f + 0)) fs).
Proof. reflexivity. Qed.

Lemma conserv_unfold :
  Hop.conserv_index nelec_fsr b k =
  NpInt.all_zero (map (fun f => ha f + (hb f + 0)) fs).
Proof. reflexivity. Qed.

Lemma symm_unfold :
  Hop.symm_index nelec_fsr b k = true ->
  NpInt.sum (map ha fs) = 0 /\ NpInt.sum (map hb fs) = 0.
Proof.
  unfold Hop.symm_index, Hop.spins, NpInt.all_zero. cbn [map forallb].
  intros H. apply andb_true_iff in H. destruct H as [H0 H1].
  apply andb_true_iff in H1. destruct H1 as [H1 _].
  apply Z.eqb_eq in H0, H1. split; assumption.
Qed.

Lemma nsop_nonneg (s : nat) : 0 <= Hop.nsop_index nelec_fsr s b k.
Proof. apply sum_abs_nonneg. Qed.

(** Per-spin conservation makes each spin's absolute hop even. *)
Lemma symm_even :
  Hop.symm_index nelec_fsr b k = true ->
  exists ma mb, 0 <= ma /\ 0 <= mb /\
    Hop.nsop_index nelec_fsr 0 b k = 2 * ma /\
    Hop.nsop_index nelec_fsr 1 b k = 2 * mb.
Proof.
  intros H. destruct (symm_unfold H) as [Ha Hb].
  destruct (sum_abs_parity ha fs) as [ma [Hma Ea]].
  destruct (sum_abs_parity hb fs) as [mb [Hmb Eb]].
  exists ma, mb. rewrite nsop_alpha, nsop_beta. lia.
Qed.

(** Without net charge transfer in any fragment the two spins move the
    same number of electrons. *)
Lemma conserv_balanced :
  Hop.conserv_index nelec_fsr b k = true ->
  Hop.nsop_index nelec_fsr 0 b k = Hop.nsop_index nelec_fsr 1 b k /\
  Hop.ncharge_index nelec_fsr b k = 0.
Proof.
  rewrite conserv_unfold. intros H.
  destruct (all_net_zero ha hb fs H) as [Hs Hc].
  rewrite nsop_alpha, nsop_beta, ncharge_unfold. auto.
Qed.

Lemma nop_even :
  Hop.conserv_index nelec_fsr b k = true \/ Hop.symm_index nelec_fsr b k = true ->
  exists m, 0 <= m /\ Hop.nop_index nelec_fsr b k = 2 * m.
Proof.
  rewrite nop_split. intros [H|H].
  - destruct (conserv_balanced H) as [E _].
    exists (Hop.nsop_index nelec_fsr 1 b k).
    pose proof (nsop_nonneg 1). lia.
  - destruct (symm_even H) as [ma [mb [? [? [Ea Eb]]]]].
    exists (ma + mb). lia.
Qed.

Lemma nop_is_total : Hop.nop_index nelec_fsr b k = Spec.total_abs_hop nelec_fsr b k.
Proof.
  rewrite nop_split, nsop_alpha, nsop_beta. unfold Spec.total_abs_hop.
  fold fs. change (map
    (fun f => Z.abs (Hop.hopping_index nelec_fsr f 0 b k)
              + Z.abs (Hop.hopping_index nelec_fsr f 1 b k)) fs)
    with (map (fun f => Z.abs (ha f) + Z.abs (hb f)) fs).
  induction fs as [|f l IH]; sum_step; lia.
Qed.

(** The number of fragments taking part in a two-electron interaction. *)
Lemma symm_nfrag :
  Hop.symm_index nelec_fsr b k = true ->
  Hop.nop_index nelec_fsr b k = 4 ->
  Hop.nfrag_index nelec_fsr b k = 2 \/ Hop.nfrag_index nelec_fsr b k = 3 \/
  Hop.nfrag_index nelec_fsr b k = 4.
Proof.
  intros Hs Hn. destruct (symm_unfold Hs) as [Ha Hb].
  rewrite nop_split, nsop_alpha, nsop_beta in Hn.
  pose proof (sum_swap ha hb fs) as Hsw.
  pose proof (count_le_sum ha hb fs) as Hle.
  pose proof (count_nonzero_nonneg (fun f => Z.abs (ha f) + (Z.abs (hb f) + 0)) fs) as H0.
  rewrite nfrag_unfold.
  destruct (Z.eq_dec
    (NpInt.count_nonzero (map (fun f => Z.abs (ha f) + (Z.abs (hb f) + 0)) fs)) 0)
    as [E0|N0].
  { destruct (count_zero_sums ha hb fs E0) as [_ [_ Hz]]. lia. }
  destruct (Z.eq_dec
    (NpInt.count_nonzero (map (fun f => Z.abs (ha f) + (Z.abs (hb f) + 0)) fs)) 1)
    as [E1|N1].
  { pose proof (count_one_sums ha hb fs E1). lia. }
  lia.
Qed.

(** A two-electron interaction without net charge transfer is a mixed-spin
    one. *)
Lemma spin_hop_channel :
  Hop.ncharge_index nelec_fsr b k = 0 ->
  Hop.nop_index nelec_fsr b k = 4 ->
  Hop.nspin_index nelec_fsr b k = 1.
Proof.
  rewrite ncharge_unfold, nop_split. intros Hc Hn.
  pose proof (count_net_zero ha hb fs Hc) as E.
  rewrite <- nsop_alpha, <- nsop_beta in E.
  unfold Hop.nspin_index.
  replace (Hop.nsop_index nelec_fsr 1 b k) with 2 by lia. reflexivity.
Qed.

End Classification.

(* ------------------------------------------------------------------------- *)
(** ** opCount and the dispatch *)

(** C2, as stated, fails: for the single alpha hop of [Examples.one_hop] the
    classification value [nop_index] is 2, the total absolute hop magnitude,
    and not half of it. *)
Lemma C2_opcount_is_not_half :
  Hop.nop_index Examples.one_hop 0 1 = 2 /\
  Spec.total_abs_hop Examples.one_hop 0 1 = 2 /\
  Hop.nop_index Examples.one_hop 0 1 <> Spec.total_abs_hop Examples.one_hop 0 1 / 2.
Proof. vm_compute. repeat split; discriminate. Qed.

(** A pair without any hop has no net charge transfer in any fragment. *)
Lemma nop_zero_conserv (nelec_fsr : list (list (list Z))) (b k : nat) :
  Hop.nop_index nelec_fsr b k = 0 -> Hop.conserv_index nelec_fsr b k = true.
Proof.
  rewrite nop_is_total. unfold Spec.total_abs_hop, Hop.conserv_index, NpInt.all_zero.
  set (g := fun f => Z.abs (Hop.hopping_index nelec_fsr f 0 b k)
                     + Z.abs (Hop.hopping_index nelec_fsr f 1 b k)).
  assert (Hnn : forall l, 0 <= NpInt.sum (map g l)).
  { intros l. induction l as [|f l IH]; [cbn; lia|].
    cbn [map]. rewrite sum_cons. unfold g at 1. lia. }
  induction (Hop.frags nelec_fsr) as [|f l IH]; [reflexivity|].
  cbn [map forallb]. rewrite sum_cons. intros H.
  specialize (Hnn l).
  assert (Hrest : NpInt.sum (map g l) = 0) by (unfold g at 1 in H; lia).
  rewrite (IH Hrest), andb_true_r. apply Z.eqb_eq.
  unfold Hop.hop_sum1, Hop.spins. cbn [map]. rewrite !sum_cons, sum_nil.
  unfold g at 1 in H. lia.
Qed.

(** C2, amended: for every state pair opCount equals the total absolute hop
    magnitude summed over all fragments and both spins; for a conserving pair
    (per-spin conservation, as [symm_index] tests, or no net charge transfer
    in any fragment) with opCount at most 4 it is 0, 2 or 4; and for every
    pair with opCount 0 the dispatch selects the null rule.  Which pairs with
    opCount 2 or 4 reach a rule is not part of the statement: the test of
    line 244 and the name of line 407 decide it, and both are slips. *)
Theorem C2_opcount_and_dispatch (nelec_fsr : list (list (list Z))) (b k : nat) :
  Hop.nop_index nelec_fsr b k = Spec.total_abs_hop nelec_fsr b k /\
  (Hop.conserv_index nelec_fsr b k = true \/ Hop.symm_index nelec_fsr b k = true ->
   Hop.nop_index nelec_fsr b k <= 4 ->
   Hop.nop_index nelec_fsr b k = 0 \/ Hop.nop_index nelec_fsr b k = 2 \/
   Hop.nop_index nelec_fsr b k = 4) /\
  (Hop.nop_index nelec_fsr b k = 0 ->
   Assembly.dispatch nelec_fsr b k = Py.Ok (Some (Assembly.crunch_null b k))).
Proof.
  split; [apply nop_is_total|]. split.
  - intros Hc Hle. destruct (nop_even nelec_fsr b k Hc) as [m [Hm E]]. lia.
  - intros Hn. unfold Assembly.dispatch.
    rewrite (nop_zero_conserv nelec_fsr b k Hn), Hn. reflexivity.
Qed.

Lemma C2_opcount_and_dispatch_witness :
  Hop.nop_index Examples.same_counts 0 1 = 0 /\
  Assembly.dispatch Examples.same_counts 0 1 = Py.Ok (Some (Assembly.crunch_null 0 1)) /\
  Hop.symm_index Examples.one_hop 0 1 = true /\
  (Hop.nop_index Examples.one_hop 0 1 = 0 \/ Hop.nop_index Examples.one_hop 0 1 = 2 \/
   Hop.nop_index Examples.one_hop 0 1 = 4).
Proof.
  assert (Hn : Hop.nop_index Examples.same_counts 0 1 = 0) by reflexivity.
  assert (Hs : Hop.symm_index Examples.one_hop 0 1 = true) by reflexivity.
  split; [exact Hn|]. split.
  - destruct (C2_opcount_and_dispatch Examples.same_counts 0 1) as [_ [_ H0]].
    exact (H0 Hn).
  - split; [exact Hs|].
    destruct (C2_opcount_and_dispatch Examples.one_hop 0 1) as [_ [H _]].
    apply H; [right; exact Hs|vm_compute; discriminate].
Defined.

(* ------------------------------------------------------------------------- *)
(** ** Combinations without an assembly rule *)




(* ------------------------------------------------------------------------- *)
(** ** The spin channel *)

(** C8: for every pair that conserves the electron number of each spin and
    has transition order 1 or 2 (opCount 2 or 4), spinChannel is the total
    absolute beta hop divided by 2, the division being exact; it is 0 for an
    alpha-alpha transition, 1 for a mixed one and 2 for a beta-beta one, and
    the table of the comment of lines 250-253 lists every case.  Conservation
    is the per-spin test of line 39, [symm_index]. *)
Theorem C8_spin_channel (nelec_fsr : list (list (list Z))) (b k : nat) :
  Hop.symm_index nelec_fsr b k = true ->
  Hop.nop_index nelec_fsr b k = 2 \/ Hop.nop_index nelec_fsr b k = 4 ->
  let na := Hop.nsop_index nelec_fsr 0 b k in
  let nb := NpInt.sum (map (fun f => Z.abs (Hop.hopping_index nelec_fsr f 1 b k))
                           (Hop.frags nelec_fsr)) in
  let spin := Hop.nspin_index nelec_fsr b k in
  spin = nb / 2 /\ 2 * spin = nb /\
  (na = 4 -> nb = 0 -> spin = 0) /\
  (na = 2 -> nb = 2 -> spin = 1) /\
  (na = 0 -> nb = 4 -> spin = 2) /\
  ((na, nb, spin) = (2, 0, 0) \/ (na, nb, spin) = (0, 2, 1) \/
   (na, nb, spin) = (4, 0, 0) \/ (na, nb, spin) = (2, 2, 1) \/
   (na, nb, spin) = (0, 4, 2)).
Proof.
  intros Hs Hn na nb spin.
  destruct (symm_even nelec_fsr b k Hs) as [ma [mb [Hma [Hmb [Ea Eb]]]]].
  rewrite nop_split in Hn.
  assert (Hnb : nb = 2 * mb) by exact Eb.
  assert (Hna : na = 2 * ma) by exact Ea.
  assert (Hspin : spin = mb).
  { unfold spin, Hop.nspin_index. rewrite Eb.
    rewrite Z.mul_comm. apply Z.div_mul. lia. }
  fold na in Hn. change (Hop.nsop_index nelec_fsr 1 b k) with nb in Hn.
  assert (Hdiv : nb / 2 = mb).
  { rewrite Hnb, Z.mul_comm. apply Z.div_mul. lia. }
  split; [lia|]. split; [lia|].
  split; [lia|]. split; [lia|]. split; [lia|].
  rewrite Hspin, Hna, Hnb.
  assert (Hc : (ma = 1 /\ mb = 0) \/ (ma = 0 /\ mb = 1) \/ (ma = 2 /\ mb = 0) \/
               (ma = 1 /\ mb = 1) \/ (ma = 0 /\ mb = 2)) by lia.
  destruct Hc as [[-> ->]|[[-> ->]|[[-> ->]|[[-> ->]|[-> ->]]]]]; auto 6.
Qed.

Lemma C8_spin_channel_witness :
  Hop.nspin_index Examples.one_hop 0 1 = 0 /\
  Hop.nspin_index Examples.spin_exchange 0 1 = 1.
Proof.
  split.
  - destruct (C8_spin_channel Examples.one_hop 0 1 eq_refl (or_introl eq_refl))
      as [H _].
    exact H.
  - destruct (C8_spin_channel Examples.spin_exchange 0 1 eq_refl (or_intror eq_refl))
      as [H _].
    exact H.
Defined.

(* ------------------------------------------------------------------------- *)
(** ** The hybrid predicate *)

(** C10: for a code that both collaborator routines accept,
    [is_hybrid_or_rsh] returns true exactly when the hybrid coefficient or
    the range-separation parameter omega exceeds 1e-10 in absolute value; two
    range-separation triples with one omega give one answer, whatever their
    alpha and beta. *)
Theorem C10_is_hybrid_or_rsh
  (hybrid_coeff : string -> Py.result float)
  (rsh_coeff rsh_coeff' : string -> Py.result (float * float * float))
  (xc_code : string) (hyb omega alpha beta alpha' beta' : float) :
  hybrid_coeff xc_code = Py.Ok hyb ->
  rsh_coeff xc_code = Py.Ok (omega, alpha, beta) ->
  rsh_coeff' xc_code = Py.Ok (omega, alpha', beta') ->
  exists r,
    Libxc.is_hybrid_or_rsh hybrid_coeff rsh_coeff xc_code = Py.Ok r /\
    Libxc.is_hybrid_or_rsh hybrid_coeff rsh_coeff' xc_code = Py.Ok r /\
    (r = true <->
     PrimFloat.ltb 1e-10 (PrimFloat.abs hyb) = true \/
     PrimFloat.ltb 1e-10 (PrimFloat.abs omega) = true).
Proof.
  intros Hh Hr Hr'.
  exists (PrimFloat.ltb 1e-10 (PrimFloat.abs hyb)
          || PrimFloat.ltb 1e-10 (PrimFloat.abs omega)).
  unfold Libxc.is_hybrid_or_rsh. rewrite Hh, Hr, Hr'. cbn [Py.bind map existsb].
  unfold Libxc.non0. rewrite orb_false_r.
  split; [reflexivity|]. split; [reflexivity|].
  apply orb_true_iff.
Qed.

Lemma C10_is_hybrid_or_rsh_witness :
  Libxc.is_hybrid_or_rsh (fun _ => Py.Ok 0.25%float)
                         (fun _ => Py.Ok (0%float, 0%float, 0%float)) "B3LYP"
  = Py.Ok true /\
  Libxc.is_hybrid_or_rsh (fun _ => Py.Ok 0.25%float)
                         (fun _ => Py.Ok (0%float, 1%float, (-1)%float)) "B3LYP"
  = Py.Ok true.
Proof.
  destruct (C10_is_hybrid_or_rsh
              (fun _ => Py.Ok 0.25%float)
              (fun _ => Py.Ok (0%float, 0%float, 0%float))
              (fun _ => Py.Ok (0%float, 1%float, (-1)%float))
              "B3LYP" 0.25%float 0%float 0%float 0%float 1%float (-1)%float
              eq_refl eq_refl eq_refl) as [r [H1 [H2 H3]]].
  assert (Hr : r = true) by (apply H3; left; reflexivity).
  rewrite H1, H2, Hr. split; reflexivity.
Defined.

(* ------------------------------------------------------------------------- *)
(** ** Python lists: reading after writing *)

Section ListAccess.

Import Py Store.

Context {A : Type}.

Lemma getl_setl_same (l l' : list A) (i : nat) (x : A) :
  setl l i x = Ok l' -> getl l' i = Ok x.
Proof.
  revert i l'. induction l as [|y l IH]; intros [|i] l' H; simpl in H;
    try discriminate.
  - inversion H. reflexivity.
  - destruct (setl l i x) as [r|e] eqn:E; simpl in H; [|discriminate].
    inversion H. subst. unfold getl. simpl.
    specialize (IH i r E). unfold getl in IH. exact IH.
Qed.

Lemma getl_setl_other (l l' : list A) (i i' : nat) (x : A) :
  setl l i x = Ok l' -> i' <> i -> getl l' i' = getl l i'.
Proof.
  revert i i' l'. induction l as [|y l IH]; intros [|i] i' l' H Hne;
    simpl in H; try discriminate.
  - inversion H. subst. destruct i'; [contradiction|reflexivity].
  - destruct (setl l i x) as [r|e] eqn:E; simpl in H; [|discriminate].
    inversion H. subst. destruct i'; [reflexivity|].
    unfold getl. simpl.
    assert (Hne' : i' <> i) by congruence.
    specialize (IH i i' r E Hne'). unfold getl in IH. exact IH.
Qed.

End ListAccess.

Section TableAccess.

Import Py Np Store.

Lemma bind_ok {A B} (c : result A) (k : A -> result B) (b : B) :
  bind c k = Ok b -> exists a, c = Ok a /\ k a = Ok b.
Proof. destruct c; simpl; intros H; [eauto|discriminate]. Qed.

Lemma get2_set2_same (t t' : table) (i j : nat) (x : ndarray) :
  set2 t i j x = Ok t' -> get2 t' i j = Ok (Some x).
Proof.
  unfold set2, get2. intros H.
  apply bind_ok in H. destruct H as [row [Hrow H]].
  apply bind_ok in H. destruct H as [row' [Hrow' H]].
  rewrite (getl_setl_same _ _ _ _ H). simpl.
  exact (getl_setl_same _ _ _ _ Hrow').
Qed.

Lemma get2_set2_other (t t' : table) (i j a b : nat) (x : ndarray) :
  set2 t i j x = Ok t' -> (a, b) <> (i, j) -> get2 t' a b = get2 t a b.
Proof.
  unfold set2, get2. intros H Hne.
  apply bind_ok in H. destruct H as [row [Hrow H]].
  apply bind_ok in H. destruct H as [row' [Hrow' H]].
  destruct (Nat.eq_dec a i) as [->|Ha].
  - rewrite (getl_setl_same _ _ _ _ H), Hrow. simpl.
    apply (getl_setl_other _ _ _ _ _ Hrow'). congruence.
  - rewrite (getl_setl_other _ _ _ _ _ H Ha). reflexivity.
Qed.

Lemma get3_set3_same (ts ts' : list table) (s i j : nat) (x : ndarray) :
  set3 ts s i j x = Ok ts' -> get3 ts' s i j = Ok (Some x).
Proof.
  unfold set3, get3. intros H.
  apply bind_ok in H. destruct H as [t [Ht H]].
  apply bind_ok in H. destruct H as [t' [Ht' H]].
  rewrite (getl_setl_same _ _ _ _ H). simpl.
  exact (get2_set2_same _ _ _ _ _ Ht').
Qed.

Lemma upper_empty_set2 (t t' : table) (i j : nat) (x : ndarray) :
  (j <= i)%nat -> upper_empty t -> set2 t i j x = Ok t' -> upper_empty t'.
Proof.
  intros Hji Hu Hset a b v Hab Hget.
  rewrite (get2_set2_other _ _ _ _ _ _ _ Hset) in Hget.
  - exact (Hu a b v Hab Hget).
  - intros E. inversion E. subst. lia.
Qed.

End TableAccess.

(* ------------------------------------------------------------------------- *)
(** ** The fragment intermediate store *)

(** C5, as stated, fails.  [set_h] stores a 1-operator amplitude at the pair
    (bra 0, ket 1), below which nothing is kept for the opposite order; and
    [get_dm1], asked for the pair (0,1) after a density was stored for (1,0),
    returns the stored array itself: its element [0,0,1] is [i], while the
    conjugate transpose of the stored array has 0 there. *)
Lemma C5_store_not_as_claimed :
  (exists st,
     Store.set_h (Examples.blank 1 []) 0 1 0 (Np.of_list [Examples.one]) = Py.Ok st /\
     Store.get_h st 0 1 0 = Py.Ok (Some (Np.of_list [Examples.one])) /\
     Store.get_h st 1 0 0 = Py.Ok None) /\
  (exists st xt,
     Store.set_dm1 (Examples.blank 2 []) 1 0 Examples.dm_i = Py.Ok st /\
     Store.get_dm1 st 0 1 = Py.Ok (Some Examples.dm_i) /\
     Np.transpose [0; 2; 1]%nat (Np.conj Examples.dm_i) = Py.Ok xt /\
     Np.item Examples.dm_i [0; 0; 1]%nat = Examples.imag /\
     Np.item xt [0; 0; 1]%nat = Cx.zero /\
Examples.imag <> Cx.zero).
Proof.
  split.
  - eexists. split; [reflexivity|]. split; reflexivity.
  - eexists. eexists. split; [reflexivity|]. split; [reflexivity|].
    split; [reflexivity|]. split; [reflexivity|]. split; [reflexivity|].
    discriminate.
Qed.

Section StoreFacts.

Import Py Np Store.

Lemma set_dm1_slot (self self' : LSTDMint) (i j : nat) (x : ndarray) :
  set_dm1 self i j x = Ok self' ->
  exists v, set2 (dm1 self) (Nat.max i j) (Nat.min i j) v = Ok (dm1 self') /\
    (if (i <? j)%nat then transpose [0; 2; 1]%nat (conj x) = Ok v else v = x).
Proof.
  unfold set_dm1. destruct (Nat.ltb_spec i j) as [Hlt|Hge]; intros H.
  - apply bind_ok in H. destruct H as [xt [Hxt H]].
    apply bind_ok in H. destruct H as [t' [Ht' H]].
    inversion H. subst. simpl.
    rewrite Nat.max_r, Nat.min_l by lia. eauto.
  - apply bind_ok in H. destruct H as [t' [Ht' H]].
    inversion H. subst. simpl.
    rewrite Nat.max_l, Nat.min_r by lia. eauto.
Qed.

Lemma set_dm2_slot (self self' : LSTDMint) (i j : nat) (x : ndarray) :
  set_dm2 self i j x = Ok self' ->
  exists v, set2 (dm2 self) (Nat.max i j) (Nat.min i j) v = Ok (dm2 self') /\
    (if (i <? j)%nat then transpose [0; 2; 1; 4; 3]%nat (conj x) = Ok v else v = x).
Proof.
  unfold set_dm2. destruct (Nat.ltb_spec i j) as [Hlt|Hge]; intros H.
  - apply bind_ok in H. destruct H as [xt [Hxt H]].
    apply bind_ok in H. destruct H as [t' [Ht' H]].
    inversion H. subst. simpl.
    rewrite Nat.max_r, Nat.min_l by lia. eauto.
  - apply bind_ok in H. destruct H as [t' [Ht' H]].
    inversion H. subst. simpl.
    rewrite Nat.max_l, Nat.min_r by lia. eauto.
Qed.

End StoreFacts.

(** C5, amended.  The densities dm1 and dm2 are stored only for bra >= ket:
    [set_dm1] and [set_dm2] write the slot (max, min) and no other, putting
    there the conjugate transpose of their argument when bra < ket, and for
    bra >= ket [get_dm1] and [get_dm2] return the stored slot.  The
    amplitudes h, hh, phh and sm are stored at the ordered pair given to the
    setter, whatever the order of bra and ket.  The adjoint accessors read
    the swapped pair and derive their value on the fly: [get_p] and [get_sp]
    conjugate it, [get_pp] conjugates and transposes it, [get_pph]
    conjugates it and exchanges its last two axes.  Every accessor returns a
    value and no store. *)
Theorem C5_store_accessors (self : Store.LSTDMint) (i j s : nat) (x : Np.ndarray) :
  (forall self', Store.set_h self i j s x = Py.Ok self' ->
                 Store.get_h self' i j s = Py.Ok (Some x)) /\
  (forall self', Store.set_hh self i j s x = Py.Ok self' ->
                 Store.get_hh self' i j s = Py.Ok (Some x)) /\
  (forall self', Store.set_phh self i j s x = Py.Ok self' ->
                 Store.get_phh self' i j s = Py.Ok (Some x)) /\
  (forall self', Store.set_sm self i j x = Py.Ok self' ->
                 Store.get_sm self' i j = Py.Ok (Some x)) /\
  (forall a, Store.get_h self j i s = Py.Ok (Some a) ->
             Store.get_p self i j s = Py.Ok (Np.conj a)) /\
  (forall a, Store.get_hh self j i s = Py.Ok (Some a) ->
             Store.get_pp self i j s = Py.Ok (Np.T (Np.conj a))) /\
  (forall a, Store.get_phh self j i s = Py.Ok (Some a) ->
             Store.get_pph self i j s = Np.transpose [0; 2; 1]%nat (Np.conj a)) /\
  (forall a, Store.get_sm self j i = Py.Ok (Some a) ->
             Store.get_sp self i j = Py.Ok (Np.conj a)) /\
  (forall self', Store.upper_empty (Store.dm1 self) ->
                 Store.set_dm1 self i j x = Py.Ok self' ->
                 Store.upper_empty (Store.dm1 self') /\
                 exists v, Store.get_dm1 self' (Nat.max i j) (Nat.min i j) = Py.Ok (Some v) /\
                   (if (i <? j)%nat
                    then Np.transpose [0; 2; 1]%nat (Np.conj x) = Py.Ok v
                    else v = x)) /\
  (forall self', Store.upper_empty (Store.dm2 self) ->
                 Store.set_dm2 self i j x = Py.Ok self' ->
                 Store.upper_empty (Store.dm2 self') /\
                 exists v, Store.get_dm2 self' (Nat.max i j) (Nat.min i j) = Py.Ok (Some v) /\
                   (if (i <? j)%nat
                    then Np.transpose [0; 2; 1; 4; 3]%nat (Np.conj x) = Py.Ok v
                    else v = x)) /\
  ((j <= i)%nat ->
   Store.get_dm1 self i j = Store.get2 (Store.dm1 self) i j /\
   Store.get_dm2 self i j = Store.get2 (Store.dm2 self) i j).
Proof.
  repeat match goal with |- _ /\ _ => split end.
  - intros self' H. unfold Store.set_h in H. apply bind_ok in H.
    destruct H as [h' [Hh H]]. inversion H. subst.
    exact (get3_set3_same _ _ _ _ _ _ Hh).
  - intros self' H. unfold Store.set_hh in H. apply bind_ok in H.
    destruct H as [h' [Hh H]]. inversion H. subst.
    exact (get3_set3_same _ _ _ _ _ _ Hh).
  - intros self' H. unfold Store.set_phh in H. apply bind_ok in H.
    destruct H as [h' [Hh H]]. inversion H. subst.
    exact (get3_set3_same _ _ _ _ _ _ Hh).
  - intros self' H. unfold Store.set_sm in H. apply bind_ok in H.
    destruct H as [h' [Hh H]]. inversion H. subst.
    exact (get2_set2_same _ _ _ _ _ Hh).
  - intros a H. unfold Store.get_p. unfold Store.get_h in H. rewrite H. reflexivity.
  - intros a H. unfold Store.get_pp. unfold Store.get_hh in H. rewrite H. reflexivity.
  - intros a H. unfold Store.get_pph. unfold Store.get_phh in H. rewrite H. reflexivity.
  - intros a H. unfold Store.get_sp. unfold Store.get_sm in H. rewrite H. reflexivity.
  - intros self' Hu H. destruct (set_dm1_slot _ _ _ _ _ H) as [v [Hset Hv]]. split.
    + apply (upper_empty_set2 _ _ _ _ v (Nat.le_trans _ _ _ (Nat.le_min_l i j) (Nat.le_max_l i j)) Hu Hset).
    + exists v. split; [|exact Hv]. unfold Store.get_dm1.
      rewrite Nat.max_l, Nat.min_r by lia.
      exact (get2_set2_same _ _ _ _ _ Hset).
  - intros self' Hu H. destruct (set_dm2_slot _ _ _ _ _ H) as [v [Hset Hv]]. split.
    + apply (upper_empty_set2 _ _ _ _ v (Nat.le_trans _ _ _ (Nat.le_min_l i j) (Nat.le_max_l i j)) Hu Hset).
    + exists v. split; [|exact Hv]. unfold Store.get_dm2.
      rewrite Nat.max_l, Nat.min_r by lia.
      exact (get2_set2_same _ _ _ _ _ Hset).
  - intros Hji. unfold Store.get_dm1, Store.get_dm2.
    rewrite Nat.max_l, Nat.min_r by lia. split; reflexivity.
Qed.

Lemma C5_store_accessors_witness :
  exists st,
    Store.set_dm1 (Examples.blank 2 []) 0 1 Examples.dm_i = Py.Ok st /\
    Store.upper_empty (Store.dm1 st) /\
    Store.get_p Examples.frag1 0 1 0 = Py.Ok (Np.conj (Np.of_list [Examples.imag])).
Proof.
  assert (Hu : Store.upper_empty Examples.empty2).
  { intros [|[|a]] [|[|b]] v Hab H; simpl in H; try discriminate;
      try (inversion H; reflexivity); try lia;
      try (destruct b; discriminate); try (destruct a; discriminate). }
  destruct (C5_store_accessors (Examples.blank 2 []) 0 1 0 Examples.dm_i)
    as (_ & _ & _ & _ & _ & _ & _ & _ & Hdm1 & _).
  destruct (C5_store_accessors Examples.frag1 0 1 0 Examples.dm_i)
    as (_ & _ & _ & _ & Hp & _).
  eexists. split; [reflexivity|]. split.
  - exact (proj1 (Hdm1 _ Hu eq_refl)).
  - exact (Hp _ eq_refl).
Defined.

(* ------------------------------------------------------------------------- *)
(** ** The intermediate builder *)

Section KernelFacts.

Import Py Np NpMore Store.

Lemma same_attrs_refl (a : LSTDMint) : same_attrs a a.
Proof. repeat split. Qed.

Lemma same_attrs_trans (a b c : LSTDMint) :
  same_attrs a b -> same_attrs b c -> same_attrs a c.
Proof.
  intros (H1 & H2 & H3 & H4) (K1 & K2 & K3 & K4).
  repeat split; congruence.
Qed.

Ltac binds H :=
  repeat (let a := fresh "a" in
          let E := fresh "E" in
          apply bind_ok in H; destruct H as [a [E H]]).

Ltac setter :=
  let H := fresh "H" in
  intros H; binds H; inversion H; subst; repeat split.

Lemma set_h_attrs self self' i j s x :
  set_h self i j s x = Ok self' -> same_attrs self' self.
Proof. unfold set_h. setter. Qed.

Lemma set_hh_attrs self self' i j s x :
  set_hh self i j s x = Ok self' -> same_attrs self' self.
Proof. unfold set_hh. setter. Qed.

Lemma set_phh_attrs self self' i j s x :
  set_phh self i j s x = Ok self' -> same_attrs self' self.
Proof. unfold set_phh. setter. Qed.

Lemma set_sm_attrs self self' i j x :
  set_sm self i j x = Ok self' -> same_attrs self' self.
Proof. unfold set_sm. setter. Qed.

Lemma set_dm1_attrs self self' i j x :
  set_dm1 self i j x = Ok self' -> same_attrs self' self.
Proof. unfold set_dm1. destruct (i <? j)%nat; setter. Qed.

Lemma set_dm2_attrs self self' i j x :
  set_dm2 self i j x = Ok self' -> same_attrs self' self.
Proof. unfold set_dm2. destruct (i <? j)%nat; setter. Qed.

Lemma for_each_invariant {X S} (P : S -> S -> Prop)
      (body : X -> S -> result S) (xs : list X) :
  (forall s, P s s) ->
  (forall a b c, P a b -> P b c -> P a c) ->
  (forall x s s', body x s = Ok s' -> P s' s) ->
  forall s s', for_each xs body s = Ok s' -> P s' s.
Proof.
  intros Hrefl Htrans Hbody. induction xs as [|x xs IH]; intros s s' H; simpl in H.
  - inversion H. apply Hrefl.
  - apply bind_ok in H. destruct H as [s1 [E H]].
    apply (Htrans _ s1); [apply IH; exact H|apply (Hbody x); exact E].
Qed.

Section Run.

Variable trans_rdm12s :
  nat -> ndarray -> ndarray -> nat -> Z * Z -> ndarray * ndarray.
Variable des_a des_b : ndarray -> nat -> Z * Z -> nat -> ndarray.
Variable ci_arg : list ndarray.
Variable R : nat.
Variable hopping_index : nat -> nat -> nat -> Z.
Variable zerop_index onep_index : nat -> nat -> bool.

Let st_attrs (a b : Kernel.state) : Prop := same_attrs (fst a) (fst b).

Lemma spectator_body_attrs i j st st' :
  Kernel.spectator_body trans_rdm12s ci_arg zerop_index i j st = Ok st' ->
  same_attrs (fst st') (fst st).
Proof.
  unfold Kernel.spectator_body. intros H. binds H. inversion H. subst. simpl.
  apply (same_attrs_trans _ a2); [|eapply set_dm1_attrs; eassumption].
  destruct (zerop_index i j).
  - eapply set_dm2_attrs; eassumption.
  - inversion E3. apply same_attrs_refl.
Qed.

Lemma spectator_pass_attrs st st' :
  Kernel.spectator_pass trans_rdm12s ci_arg R hopping_index zerop_index st = Ok st' ->
  same_attrs (fst st') (fst st).
Proof.
  unfold Kernel.spectator_pass. intros H.
  apply bind_ok in H. destruct H as [n [En H]].
  apply bind_ok in H. destruct H as [u [Eu H]].
  revert H. apply (for_each_invariant st_attrs).
  - intros s. apply same_attrs_refl.
  - intros a b c. apply same_attrs_trans.
  - intros row s s' Hb. apply bind_ok in Hb. destruct Hb as [ij [_ Hb]].
    eapply spectator_body_attrs; eassumption.
Qed.

Lemma alpha_bra_attrs bpl ket nelec apket bra st st' :
  Kernel.alpha_bra trans_rdm12s des_a des_b hopping_index onep_index
                   bpl ket nelec apket bra st = Ok st' ->
  same_attrs (fst st') (fst st).
Proof.
  unfold Kernel.alpha_bra. intros H.
  apply bind_ok in H. destruct H as [c [Ec H]].
  apply bind_ok in H. destruct H as [h [Eh H]].
  apply bind_ok in H. destruct H as [self1 [E1 H]].
  apply bind_ok in H. destruct H as [self2 [E2 H]].
  inversion H. subst. simpl.
  apply (same_attrs_trans _ self1); [|eapply set_h_attrs; eassumption].
  repeat match type of E2 with
         | (if ?c then _ else _) = _ => destruct c
         end.
  - binds E2. inversion E2. subst. repeat split.
  - binds E2. inversion E2. subst. repeat split.
  - binds E2. inversion E2. subst. repeat split.
  - binds E2. inversion E2. subst. repeat split.
  - inversion E2. apply same_attrs_refl.
Qed.

Lemma beta_bra_attrs ket nelec bpvec bra st st' :
  Kernel.beta_bra trans_rdm12s des_b hopping_index onep_index
                  ket nelec bpvec bra st = Ok st' ->
  same_attrs (fst st') (fst st).
Proof.
  unfold Kernel.beta_bra. intros H.
  apply bind_ok in H. destruct H as [c [Ec H]].
  apply bind_ok in H. destruct H as [h [Eh H]].
  apply bind_ok in H. destruct H as [self1 [E1 H]].
  apply bind_ok in H. destruct H as [self2 [E2 H]].
  inversion H. subst. simpl.
  apply (same_attrs_trans _ self1); [|eapply set_h_attrs; eassumption].
  repeat match type of E2 with
         | (if ?c then _ else _) = _ => destruct c
         end.
  - binds E2. inversion E2. subst. repeat split.
  - binds E2. inversion E2. subst. repeat split.
  - inversion E2. apply same_attrs_refl.
Qed.

Lemma operator_pass_attrs st st' :
  Kernel.operator_pass trans_rdm12s des_a des_b R hopping_index onep_index st = Ok st' ->
  same_attrs (fst st') (fst st).
Proof.
  unfold Kernel.operator_pass. intros H.
  apply bind_ok in H. destruct H as [bpl [Eb H]].
  apply bind_ok in H. destruct H as [st1 [E1 H]].
  apply (same_attrs_trans _ (fst st1)).
  - revert H. apply (for_each_invariant st_attrs).
    + intros s. apply same_attrs_refl.
    + intros a b c. apply same_attrs_trans.
    + intros ket s s' Hk. unfold Kernel.beta_ket in Hk.
      apply bind_ok in Hk. destruct Hk as [nelec [_ Hk]].
      apply bind_ok in Hk. destruct Hk as [cached [_ Hk]].
      apply bind_ok in Hk. destruct Hk as [bpvec [_ Hk]].
      revert Hk. apply (for_each_invariant st_attrs).
      * intros s0. apply same_attrs_refl.
      * intros a b c. apply same_attrs_trans.
      * intros bra s0 s0'. apply beta_bra_attrs.
  - revert E1. apply (for_each_invariant st_attrs).
    + intros s. apply same_attrs_refl.
    + intros a b c. apply same_attrs_trans.
    + intros ket s s' Hk. unfold Kernel.alpha_ket in Hk.
      apply bind_ok in Hk. destruct Hk as [nelec [_ Hk]].
      apply bind_ok in Hk. destruct Hk as [apket [_ Hk]].
      revert Hk. apply (for_each_invariant st_attrs).
      * intros s0. apply same_attrs_refl.
      * intros a b c. apply same_attrs_trans.
      * intros bra s0 s0'. apply alpha_bra_attrs.
Qed.

Lemma kernel_attrs self st :
  Kernel.kernel trans_rdm12s des_a des_b ci_arg R hopping_index
                zerop_index onep_index self = Ok st ->
  same_attrs (fst st) self.
Proof.
  unfold Kernel.kernel. intros H.
  apply bind_ok in H. destruct H as [st0 [E0 H]].
  apply (same_attrs_trans _ (fst st0)).
  - eapply operator_pass_attrs; eassumption.
  - apply (spectator_pass_attrs _ _ E0).
Qed.

(** Without [self.ci] no annihilation operator can be applied. *)
Lemma apply_des_raises des self ket nelec :
  ci self = None ->
  exists e, Kernel.apply_des des self ket nelec = Raise e /\
            ((0 < norb self)%nat -> e = AttributeError "ci").
Proof.
  intros Hci. unfold Kernel.apply_des. destruct (norb self) as [|n] eqn:En.
  - simpl. eexists. split; [reflexivity|]. lia.
  - cbn [seq map_m]. unfold self_ci at 1. rewrite Hci. simpl.
    eexists. split; [reflexivity|]. reflexivity.
Qed.

Lemma alpha_ket_raises bpl ket st :
  ci (fst st) = None ->
  exists e, Kernel.alpha_ket trans_rdm12s des_a des_b R hopping_index
                             onep_index bpl ket st = Raise e /\
            (forall nelec, getl (nelec_r (fst st)) ket = Ok nelec ->
                           (0 < norb (fst st))%nat -> e = AttributeError "ci").
Proof.
  intros Hci. unfold Kernel.alpha_ket.
  destruct (getl (nelec_r (fst st)) ket) as [nelec|e] eqn:En; simpl.
  - destruct (apply_des_raises des_a (fst st) ket nelec Hci) as [e [He Hattr]].
    rewrite He. simpl. exists e. split; [reflexivity|]. intros _ _. exact Hattr.
  - exists e. split; [reflexivity|]. intros nelec Habs. discriminate.
Qed.

Lemma operator_pass_raises st :
  ci (fst st) = None ->
  Kernel.hidx_ket R hopping_index 0 <> [] \/ Kernel.hidx_ket R hopping_index 1 <> [] ->
  exists e, Kernel.operator_pass trans_rdm12s des_a des_b R hopping_index
                                 onep_index st = Raise e /\
            (forall ket rest nelec,
                Kernel.hidx_ket R hopping_index 1 = [] ->
                Kernel.hidx_ket R hopping_index 0 = ket :: rest ->
                getl (nelec_r (fst st)) ket = Ok nelec ->
                (0 < norb (fst st))%nat ->
                as_int (nroots (fst st)) <> Raise e ->
                e = AttributeError "ci").
Proof.
  intros Hci Hdep. unfold Kernel.operator_pass, Kernel.bpvec_pass.
  destruct (as_int (nroots (fst st))) as [n|e] eqn:En.
  2:{ simpl. exists e. split; [reflexivity|]. intros. congruence. }
  cbn [bind].
  destruct (Kernel.hidx_ket R hopping_index 1) as [|kb restb] eqn:Hb.
  - cbn [for_each bind].
    destruct (Kernel.hidx_ket R hopping_index 0) as [|ka resta] eqn:Ha.
    + destruct Hdep; congruence.
    + cbn [for_each].
      destruct (alpha_ket_raises (repeat None n) ka st Hci) as [e [He Hattr]].
      rewrite He. simpl. exists e. split; [reflexivity|].
      intros ket rest nelec _ Hk Hnelec Hnorb _.
      inversion Hk. subst. eapply Hattr; eassumption.
  - cbn [for_each]. unfold Kernel.line157. simpl.
    eexists. split; [reflexivity|]. intros. discriminate.
Qed.

End Run.

End KernelFacts.

(** The steps of the kernel that read [self.ci], on a store without it. *)
Section ReadsSelfCi.

Import Py Np NpMore Store.

Variable trans_rdm12s :
  nat -> ndarray -> ndarray -> nat -> Z * Z -> ndarray * ndarray.
Variable des_a des_b : ndarray -> nat -> Z * Z -> nat -> ndarray.
Variable R : nat.
Variable hopping_index : nat -> nat -> nat -> Z.
Variable onep_index : nat -> nat -> bool.
Variable self : LSTDMint.
Hypothesis no_ci : ci self = None.

Lemma self_ci_unbound (k : nat) : self_ci self k = Raise (AttributeError "ci").
Proof. unfold self_ci. rewrite no_ci. reflexivity. Qed.

Lemma apply_des_unbound des ket nelec :
  (0 < norb self)%nat ->
  Kernel.apply_des des self ket nelec = Raise (AttributeError "ci").
Proof.
  intros Hn. unfold Kernel.apply_des. destruct (norb self) as [|n]; [lia|].
  cbn [seq map_m]. rewrite self_ci_unbound. reflexivity.
Qed.

Lemma phh_amplitude_unbound bra pket :
  pket <> [] ->
  Kernel.phh_amplitude trans_rdm12s self bra pket = Raise (AttributeError "ci").
Proof.
  intros Hne. unfold Kernel.phh_amplitude. destruct pket as [|v pket]; [contradiction|].
  cbn [map_m]. rewrite self_ci_unbound. reflexivity.
Qed.

Lemma alpha_bra_unbound bpl ket nelec apket bra log :
  Kernel.alpha_bra trans_rdm12s des_a des_b hopping_index onep_index
                   bpl ket nelec apket bra (self, log)
  = Raise (AttributeError "ci").
Proof. unfold Kernel.alpha_bra. cbn [fst]. rewrite self_ci_unbound. reflexivity. Qed.

Lemma beta_bra_unbound ket nelec bpvec bra log :
  Kernel.beta_bra trans_rdm12s des_b hopping_index onep_index
                  ket nelec bpvec bra (self, log)
  = Raise (AttributeError "ci").
Proof. unfold Kernel.beta_bra. cbn [fst]. rewrite self_ci_unbound. reflexivity. Qed.

Lemma alpha_ket_unbound bpl ket nelec log :
  getl (nelec_r self) ket = Ok nelec -> (0 < norb self)%nat ->
  Kernel.alpha_ket trans_rdm12s des_a des_b R hopping_index onep_index
                   bpl ket (self, log)
  = Raise (AttributeError "ci").
Proof.
  intros Hn Hnorb. unfold Kernel.alpha_ket. cbn [fst]. rewrite Hn. cbn [bind].
  rewrite (apply_des_unbound des_a ket nelec Hnorb). reflexivity.
Qed.

Lemma beta_ket_unbound bpl ket nelec log :
  getl (nelec_r self) ket = Ok nelec -> getl bpl ket = Ok None ->
  (0 < norb self)%nat ->
  Kernel.beta_ket trans_rdm12s des_b R hopping_index onep_index
                  bpl ket (self, log)
  = Raise (AttributeError "ci").
Proof.
  intros Hn Hb Hnorb. unfold Kernel.beta_ket. cbn [fst]. rewrite Hn. cbn [bind].
  rewrite Hb. cbn [bind].
  rewrite (apply_des_unbound des_b ket nelec Hnorb). reflexivity.
Qed.

End ReadsSelfCi.

(** The cache of lines 155-158 is empty when no beta electron departs, and
    the test of line 157 raises at the first ket a beta electron leaves. *)
Lemma bpvec_pass_result
      (des_b : Np.ndarray -> nat -> Z * Z -> nat -> Np.ndarray) (R : nat)
      (hopping_index : nat -> nat -> nat -> Z) (self : Store.LSTDMint) (n : nat) :
  Store.nroots self = Store.PyInt n ->
  Kernel.bpvec_pass des_b R hopping_index self =
  match Kernel.hidx_ket R hopping_index 1 with
  | [] => Py.Ok (repeat None n)
  | _ :: _ => Py.Raise (Py.AxisError 1 0)
  end.
Proof.
  intros Hn. unfold Kernel.bpvec_pass. rewrite Hn. cbn [Store.as_int Py.bind].
  destruct (Kernel.hidx_ket R hopping_index 1); reflexivity.
Qed.

(** C9: the constructor binds no attribute [ci], and neither the setters nor
    the kernel bind one; the operator steps of the kernel read the amplitude
    vectors through [self.ci] only, the argument [ci] being used by the
    spectator pass alone.  So on a store without the attribute the kernel
    raises as soon as some state has a departing alpha or beta electron, and
    the exception of the first alpha annihilation step is the AttributeError
    for [ci].  Step by step, on a store without the attribute: the
    application of an annihilation operator to a ket (the cached beta
    vectors, the alpha vectors, the beta vectors), the 3-operator amplitude
    and the body of either loop over the bras, which starts with the bra's
    inner product, each raise that AttributeError; the loop that fills the
    cache of beta vectors does not get as far, because the test of line 157
    raises first. *)
Theorem C9_kernel_needs_self_ci
  (trans_rdm12s : nat -> Np.ndarray -> Np.ndarray -> nat -> Z * Z -> Np.ndarray * Np.ndarray)
  (des_a des_b : Np.ndarray -> nat -> Z * Z -> nat -> Np.ndarray)
  (ci_arg : list Np.ndarray) (R : nat) (hopping_index : nat -> nat -> nat -> Z)
  (zerop_index onep_index : nat -> nat -> bool) (self : Store.LSTDMint) :
  let kernel := Kernel.kernel trans_rdm12s des_a des_b ci_arg R hopping_index
                              zerop_index onep_index in
  (forall norb0 nelec_r0 nroots0 s,
      Store.init norb0 nelec_r0 nroots0 = Py.Ok s -> Store.ci s = None) /\
  (forall s' i j sp x,
      Store.set_h self i j sp x = Py.Ok s' \/ Store.set_hh self i j sp x = Py.Ok s' \/
      Store.set_phh self i j sp x = Py.Ok s' \/ Store.set_sm self i j x = Py.Ok s' \/
      Store.set_dm1 self i j x = Py.Ok s' \/ Store.set_dm2 self i j x = Py.Ok s' ->
      Store.ci s' = Store.ci self) /\
  (forall st, kernel self = Py.Ok st -> Store.ci (fst st) = Store.ci self) /\
  kernel self =
  Py.bind (Kernel.spectator_pass trans_rdm12s ci_arg R hopping_index zerop_index (self, []))
          (Kernel.operator_pass trans_rdm12s des_a des_b R hopping_index onep_index) /\
  (Store.ci self = None ->
   Kernel.hidx_ket R hopping_index 0 <> [] \/ Kernel.hidx_ket R hopping_index 1 <> [] ->
   exists e, kernel self = Py.Raise e) /\
  (Store.ci self = None ->
   forall st ket rest nelec,
     Kernel.spectator_pass trans_rdm12s ci_arg R hopping_index zerop_index (self, [])
     = Py.Ok st ->
     Kernel.hidx_ket R hopping_index 1 = [] ->
     Kernel.hidx_ket R hopping_index 0 = ket :: rest ->
     Store.getl (Store.nelec_r self) ket = Py.Ok nelec ->
     (0 < Store.norb self)%nat ->
     kernel self = Py.Raise (Py.AttributeError "ci")) /\
  (Store.ci self = None ->
   (forall k, Store.self_ci self k = Py.Raise (Py.AttributeError "ci")) /\
   (forall des ket nelec,
       (0 < Store.norb self)%nat ->
       Kernel.apply_des des self ket nelec = Py.Raise (Py.AttributeError "ci")) /\
   (forall bra pket,
       pket <> [] ->
       Kernel.phh_amplitude trans_rdm12s self bra pket
       = Py.Raise (Py.AttributeError "ci")) /\
   (forall bpl ket nelec apket bra log,
       Kernel.alpha_bra trans_rdm12s des_a des_b hopping_index onep_index
                        bpl ket nelec apket bra (self, log)
       = Py.Raise (Py.AttributeError "ci")) /\
   (forall ket nelec bpvec bra log,
       Kernel.beta_bra trans_rdm12s des_b hopping_index onep_index
                       ket nelec bpvec bra (self, log)
       = Py.Raise (Py.AttributeError "ci")) /\
   (forall bpl ket nelec log,
       Store.getl (Store.nelec_r self) ket = Py.Ok nelec ->
       (0 < Store.norb self)%nat ->
       Kernel.alpha_ket trans_rdm12s des_a des_b R hopping_index onep_index
                        bpl ket (self, log)
       = Py.Raise (Py.AttributeError "ci")) /\
   (forall bpl ket nelec log,
       Store.getl (Store.nelec_r self) ket = Py.Ok nelec ->
       Store.getl bpl ket = Py.Ok None ->
       (0 < Store.norb self)%nat ->
       Kernel.beta_ket trans_rdm12s des_b R hopping_index onep_index
                       bpl ket (self, log)
       = Py.Raise (Py.AttributeError "ci"))) /\
  (forall n,
      Store.nroots self = Store.PyInt n ->
      Kernel.bpvec_pass des_b R hopping_index self =
      match Kernel.hidx_ket R hopping_index 1 with
      | [] => Py.Ok (repeat None n)
      | _ :: _ => Py.Raise (Py.AxisError 1 0)
      end).
Proof.
  intros kernel. repeat match goal with |- _ /\ _ => split end.
  - intros norb0 nelec_r0 nroots0 s H. unfold Store.init in H.
    apply bind_ok in H. destruct H as [n [_ H]]. inversion H. reflexivity.
  - intros s' i j sp x [H|[H|[H|[H|[H|H]]]]].
    + exact (proj1 (set_h_attrs _ _ _ _ _ _ H)).
    + exact (proj1 (set_hh_attrs _ _ _ _ _ _ H)).
    + exact (proj1 (set_phh_attrs _ _ _ _ _ _ H)).
    + exact (proj1 (set_sm_attrs _ _ _ _ _ H)).
    + exact (proj1 (set_dm1_attrs _ _ _ _ _ H)).
    + exact (proj1 (set_dm2_attrs _ _ _ _ _ H)).
  - intros st H. exact (proj1 (kernel_attrs _ _ _ _ _ _ _ _ _ _ H)).
  - reflexivity.
  - intros Hci Hdep. unfold kernel, Kernel.kernel.
    destruct (Kernel.spectator_pass trans_rdm12s ci_arg R hopping_index zerop_index
                                    (self, [])) as [st|e] eqn:E.
    + cbn [Py.bind].
      destruct (spectator_pass_attrs _ _ _ _ _ _ _ E) as [Hc _]. simpl in Hc.
      assert (Hci' : Store.ci (fst st) = None) by congruence.
      destruct (operator_pass_raises trans_rdm12s des_a des_b R hopping_index
                                     onep_index st Hci' Hdep) as [e [He _]].
      exists e. exact He.
    + exists e. reflexivity.
  - intros Hci st ket rest nelec E Hb Ha Hn Hnorb. unfold kernel, Kernel.kernel.
    rewrite E. cbn [Py.bind].
    destruct (spectator_pass_attrs _ _ _ _ _ _ _ E) as (Hc & Hne & Hno & Hnr).
    simpl in Hc, Hne, Hno, Hnr.
    assert (Hci' : Store.ci (fst st) = None) by congruence.
    assert (Hdep : Kernel.hidx_ket R hopping_index 0 <> [] \/
                   Kernel.hidx_ket R hopping_index 1 <> [])
      by (left; rewrite Ha; discriminate).
    destruct (operator_pass_raises trans_rdm12s des_a des_b R hopping_index
                                   onep_index st Hci' Hdep) as [e [He Hattr]].
    rewrite He. f_equal.
    apply (Hattr ket rest nelec Hb Ha).
    + rewrite Hne. exact Hn.
    + rewrite Hno. exact Hnorb.
    + unfold Kernel.spectator_pass in E. apply bind_ok in E.
      destruct E as [n [En _]]. simpl in En. rewrite Hnr, En. discriminate.
  - intros Hci. repeat match goal with |- _ /\ _ => split end.
    + intros k. exact (self_ci_unbound self Hci k).
    + intros des ket nelec. exact (apply_des_unbound self Hci des ket nelec).
    + intros bra pket. exact (phh_amplitude_unbound trans_rdm12s self Hci bra pket).
    + intros bpl ket nelec apket bra log.
      exact (alpha_bra_unbound trans_rdm12s des_a des_b hopping_index onep_index
               self Hci bpl ket nelec apket bra log).
    + intros ket nelec bpvec bra log.
      exact (beta_bra_unbound trans_rdm12s des_b hopping_index onep_index
               self Hci ket nelec bpvec bra log).
    + intros bpl ket nelec log.
      exact (alpha_ket_unbound trans_rdm12s des_a des_b R hopping_index onep_index
               self Hci bpl ket nelec log).
    + intros bpl ket nelec log.
      exact (beta_ket_unbound trans_rdm12s des_b R hopping_index onep_index
               self Hci bpl ket nelec log).
  - intros n Hn. exact (bpvec_pass_result des_b R hopping_index self n Hn).
Qed.

Lemma C9_kernel_needs_self_ci_witness :
  Kernel.hidx_ket 2 (Hop.hopping_index Examples.one_hop 0) 0 = [0%nat] /\
  Kernel.kernel Examples.trans_rdm12s0 Examples.des0 Examples.des0 Examples.ci0 2
                (Hop.hopping_index Examples.one_hop 0)
                (Hop.zerop_index Examples.one_hop) (Hop.onep_index Examples.one_hop)
                (Examples.blank 1 [(1, 0); (0, 0)])
  = Py.Raise (Py.AttributeError "ci") /\
  Kernel.apply_des Examples.des0 (Examples.blank 1 [(1, 0); (0, 0)]) 0 (1, 0)
  = Py.Raise (Py.AttributeError "ci") /\
  Kernel.bpvec_pass Examples.des0 2 (Hop.hopping_index Examples.one_hop 0)
                    (Examples.blank 1 [(1, 0); (0, 0)])
  = Py.Ok [None; None].
Proof.
  split; [reflexivity|].
  destruct (C9_kernel_needs_self_ci
              Examples.trans_rdm12s0 Examples.des0 Examples.des0 Examples.ci0 2
              (Hop.hopping_index Examples.one_hop 0)
              (Hop.zerop_index Examples.one_hop) (Hop.onep_index Examples.one_hop)
              (Examples.blank 1 [(1, 0); (0, 0)]))
    as (_ & _ & _ & _ & _ & H & Hsteps & Hcache).
  split; [|split].
  - destruct (Kernel.spectator_pass Examples.trans_rdm12s0 Examples.ci0 2
                (Hop.hopping_index Examples.one_hop 0)
                (Hop.zerop_index Examples.one_hop)
                (Examples.blank 1 [(1, 0); (0, 0)], [])) as [st|e] eqn:E.
    + apply (H eq_refl st 0%nat [] (1, 0) eq_refl); try reflexivity. simpl. lia.
    + vm_compute in E. discriminate.
  - destruct (Hsteps eq_refl) as (_ & Hdes & _).
    apply Hdes. simpl. lia.
  - exact (Hcache 2%nat eq_refl).
Defined.

(* ------------------------------------------------------------------------- *)
(** ** The spectator pass of the builder *)




(* ------------------------------------------------------------------------- *)
(** ** Scalars and arrays *)

Lemma cx_add_comm (x y : Cx.t) : Cx.add x y = Cx.add y x.
Proof. destruct x, y. unfold Cx.add. simpl. f_equal; lia. Qed.

Lemma cx_conj_add (x y : Cx.t) : Cx.conj (Cx.add x y) = Cx.add (Cx.conj x) (Cx.conj y).
Proof. destruct x, y. unfold Cx.add, Cx.conj. simpl. f_equal; lia. Qed.

Lemma cx_conj_conj (x : Cx.t) : Cx.conj (Cx.conj x) = x.
Proof. destruct x. unfold Cx.conj. simpl. f_equal; lia. Qed.

Lemma cx_sub_antisym (x y : Cx.t) : Cx.add (Cx.sub x y) (Cx.sub y x) = Cx.zero.
Proof. destruct x, y. unfold Cx.add, Cx.sub, Cx.zero. simpl. f_equal; lia. Qed.

Lemma in_bounds_length (sh idx : list nat) :
  Np.in_bounds sh idx = true -> List.length idx = List.length sh.
Proof.
  revert idx. induction sh as [|n sh IH]; intros [|i idx] H; simpl in H;
    try discriminate; [reflexivity|].
  apply andb_true_iff in H. destruct H as [_ H]. simpl. f_equal. apply IH, H.
Qed.

(** Broadcasting an array to its own shape reads every element in place. *)
Lemma bc_index_in_bounds (sh idx : list nat) :
  Np.in_bounds sh idx = true -> Np.bc_index sh idx = idx.
Proof.
  intros H. unfold Np.bc_index.
  rewrite (in_bounds_length _ _ H), Nat.sub_diag. cbn [skipn].
  revert idx H. induction sh as [|n sh IH]; intros [|i idx] H; simpl in H;
    try discriminate; [reflexivity|].
  apply andb_true_iff in H. destruct H as [Hi H]. apply Nat.ltb_lt in Hi.
  cbn [combine map fst snd]. rewrite (IH idx H). f_equal.
  destruct (Nat.eqb_spec n 1); [lia|reflexivity].
Qed.

Lemma bc_ok_refl (sh : list nat) : Np.bc_ok sh sh = true.
Proof.
  unfold Np.bc_ok. induction (rev sh) as [|n l IH]; [reflexivity|].
  simpl. rewrite Nat.eqb_refl, IH. reflexivity.
Qed.

(* ------------------------------------------------------------------------- *)
(** ** Antisymmetry of the same-spin 2-operator amplitudes *)

(** C7, as stated, fails.  In [Examples.pair_hop] the stores hold the
    symmetric matrix [Examples.sym2], for which M + M^t is not zero, as the
    alpha-alpha amplitude; the pair-hop rule for the alpha-alpha channel
    ([s2lt = 0]) completes without raising, and so does the assertion itself
    when it is applied to that matrix.  When the assertion does fail, on
    [Examples.ones2], its message is the formatted maximum alone. *)
Lemma C7_violation_not_reported :
  Np.item Examples.sym2 [0; 1]%nat = Examples.one /\
  Cx.add (Np.item Examples.sym2 [0; 1]%nat) (Np.item Examples.sym2 [1; 0]%nat)
  = Cx.mk 2 0 /\
  Cx.abs_lt_1e8 (Cx.mk 2 0) = false /\
  snd (Assembly.crunch_pair_hop_rule Examples.pair_hop 2 [2; 2]%nat
         [Examples.pair0 Examples.sym2; Examples.pair1 Examples.sym2]
         Examples.format0 0 1 0 (Examples.tdm1s4, Examples.tdm2s4)) = Py.Ok tt /\
  Assembly.assert_antisymmetric Examples.format0 Examples.sym2 = Py.Ok tt /\
  exists y,
    Np.add Examples.ones2 (Np.T Examples.ones2) = Py.Ok y /\
    Assembly.assert_antisymmetric Examples.format0 Examples.ones2
    = Py.Raise (Py.AssertionError (Examples.format0 y)).
Proof.
  split; [reflexivity|]. split; [reflexivity|]. split; [reflexivity|].
  split; [reflexivity|]. split; [reflexivity|]. eexists. split; reflexivity.
Qed.

(** C7, amended: every same-spin 2-operator amplitude matrix M that the
    builder constructs (lines 187-191 for alpha-alpha, 213-217 for
    beta-beta) is an [n] x [n] matrix with M + M^t = 0 exactly, hence within
    the tolerance 1e-8, for every fragment and pair.  When the antisymmetry
    assertion of the assembly fails, the exception carries the formatted
    maximum of |x + x^t| and nothing else. *)
Theorem C7_same_spin_antisymmetric
  (des : Np.ndarray -> nat -> Z * Z -> nat -> Np.ndarray) (n : nat) (nelec : Z * Z)
  (bravec : list Cx.t) (pket : list Np.ndarray) (hh : Np.ndarray)
  (format_amax : Np.ndarray -> string) :
  Kernel.hh_same_spin des n nelec bravec pket = Py.Ok hh ->
  Np.shape hh = [n; n] /\
  (forall p q, (p < n)%nat -> (q < n)%nat ->
     Cx.add (Np.item hh [p; q]) (Np.item hh [q; p]) = Cx.zero /\
     Cx.abs_lt_1e8 (Cx.add (Np.item hh [p; q]) (Np.item hh [q; p])) = true) /\
  (forall x e,
     Assembly.assert_antisymmetric format_amax x = Py.Raise e ->
     Np.add x (Np.T x) = Py.Raise e \/
     exists y, Np.add x (Np.T x) = Py.Ok y /\ e = Py.AssertionError (format_amax y)).
Proof.
  intros H. unfold Kernel.hh_same_spin in H.
  apply bind_ok in H. destruct H as [hh_triu [_ H]].
  unfold Np.isub, Np.iop in H. cbn [Np.T Np.shape NpMore.fill_triu] in H.
  change (rev [n; n]) with [n; n] in H. rewrite bc_ok_refl in H.
  inversion H. subst hh. clear H. cbn [Np.shape Np.item].
  split; [reflexivity|]. split.
  - intros p q Hp Hq.
    assert (Hpq : Np.in_bounds [n; n] [p; q] = true)
      by (simpl; apply Nat.ltb_lt in Hp, Hq; rewrite Hp, Hq; reflexivity).
    assert (Hqp : Np.in_bounds [n; n] [q; p] = true)
      by (simpl; apply Nat.ltb_lt in Hp, Hq; rewrite Hp, Hq; reflexivity).
    rewrite (bc_index_in_bounds _ _ Hpq), (bc_index_in_bounds _ _ Hqp).
    cbn [rev app].
    rewrite cx_sub_antisym. split; reflexivity.
  - intros x e He. unfold Assembly.assert_antisymmetric in He.
    destruct (Np.add x (Np.T x)) as [y|e'] eqn:E; cbn [Py.bind] in He.
    + right. exists y. split; [reflexivity|].
      unfold Py.assert in He. destruct (Assembly.all_abs_lt_tol y); [discriminate|].
      inversion He. reflexivity.
    + left. inversion He. reflexivity.
Qed.

Lemma C7_same_spin_antisymmetric_witness :
  exists hh,
    Kernel.hh_same_spin Examples.des0 2 (1, 0) [Examples.one; Examples.imag]
      [Np.of_list [Examples.one; Examples.imag];
       Np.of_list [Examples.imag; Examples.imag]] = Py.Ok hh /\
    Np.item hh [0; 1]%nat = Cx.mk (-1) 1 /\
    Cx.add (Np.item hh [0; 1]%nat) (Np.item hh [1; 0]%nat) = Cx.zero.
Proof.
  eexists. split; [reflexivity|]. split; [reflexivity|].
  refine (proj1 (proj1 (proj2 (C7_same_spin_antisymmetric
            Examples.des0 2 (1, 0) [Examples.one; Examples.imag]
            [Np.of_list [Examples.one; Examples.imag];
             Np.of_list [Examples.imag; Examples.imag]] _ Examples.format0 eq_refl))
          0%nat 1%nat _ _)); lia.
Defined.

(* ------------------------------------------------------------------------- *)
(** ** The third pass *)

Lemma iadd_same_shape (a b : Np.ndarray) :
  Np.shape b = Np.shape a ->
  Np.iadd a b =
  Py.Ok (Np.mk (Np.shape a)
               (fun idx => Cx.add (Np.item a idx)
                                  (Np.item b (Np.bc_index (Np.shape b) idx)))).
Proof.
  intros H. unfold Np.iadd, Np.iop. rewrite H, bc_ok_refl. reflexivity.
Qed.

Lemma in_bounds5 (R n b k s p q : nat) :
  (b < R)%nat -> (k < R)%nat -> (s < 2)%nat -> (p < n)%nat -> (q < n)%nat ->
  Np.in_bounds [R; R; 2; n; n]%nat [b; k; s; p; q] = true.
Proof.
  intros Hb Hk Hs Hp Hq. cbn [Np.in_bounds].
  apply Nat.ltb_lt in Hb, Hk, Hs, Hp, Hq.
  rewrite Hb, Hk, Hs, Hp, Hq. reflexivity.
Qed.

(** Line 423 makes [tdm1s] the sum of itself and its adjoint. *)
Lemma add_adjoint_tdm1s_sum (R n : nat) (t1 t2 : Np.ndarray) :
  Np.shape t1 = [R; R; 2; n; n]%nat ->
  exists t1',
    Assembly.add_adjoint_tdm1s (t1, t2) = ((t1', t2), Py.Ok tt) /\
    Np.shape t1' = [R; R; 2; n; n]%nat /\
    forall b k s p q,
      (b < R)%nat -> (k < R)%nat -> (s < 2)%nat -> (p < n)%nat -> (q < n)%nat ->
      Np.item t1' [b; k; s; p; q] =
      Cx.add (Np.item t1 [b; k; s; p; q]) (Cx.conj (Np.item t1 [k; b; s; q; p])).
Proof.
  intros Hsh.
  assert (Ht : exists a, Np.transpose [1; 0; 2; 4; 3]%nat (Np.conj t1) = Py.Ok a /\
             Np.shape a = [R; R; 2; n; n]%nat /\
             forall b k s p q, Np.item a [b; k; s; p; q] =
                               Cx.conj (Np.item t1 [k; b; s; q; p])).
  { unfold Np.transpose, Np.ndim. cbn [Np.conj Np.shape]. rewrite Hsh.
    eexists. split; [reflexivity|]. split; reflexivity. }
  destruct Ht as [a [Ha [Hsa Hia]]].
  unfold Assembly.add_adjoint_tdm1s, Assembly.bindM, Assembly.read_tdm1s,
    Assembly.lift, Assembly.iadd_tdm1s. cbn [fst snd]. rewrite Ha.
  rewrite (iadd_same_shape t1 a) by congruence.
  eexists. split; [reflexivity|]. cbn [Np.shape Np.item]. split; [exact Hsh|].
  intros b k s p q Hb Hk Hs Hp Hq.
  rewrite Hsa, (bc_index_in_bounds _ _ (in_bounds5 R n b k s p q Hb Hk Hs Hp Hq)).
  rewrite Hia. reflexivity.
Qed.

(** C1: the third pass cannot complete.  Whatever the second pass has left
    in the two tensors, line 423 replaces [tdm1s] by the sum of itself and
    its adjoint, which satisfies the symmetry of the claim, and line 424 then
    raises: it asks for a seven-axis transpose of [tdm1s], which has five
    axes.  [tdm2s] is left as it was, its adjoint is never added, and the
    diagonal is never filled. *)
Theorem C1_third_pass_raises
  (nroots R n : nat) (crunch_null_rule : nat -> nat -> Assembly.M unit)
  (t1 t2 : Np.ndarray) :
  Np.shape t1 = [R; R; 2; n; n]%nat ->
  exists t1',
    Assembly.third_pass nroots crunch_null_rule (t1, t2)
    = ((t1', t2), Py.Raise (Py.ValueError "axes don't match array")) /\
    Spec.tdm1_hermitian R n t1'.
Proof.
  intros Hsh. destruct (add_adjoint_tdm1s_sum R n t1 t2 Hsh) as [t1' [H1 [Hsh' Hit]]].
  exists t1'. split.
  - unfold Assembly.third_pass, Assembly.bindM. rewrite H1.
    unfold Assembly.add_adjoint_tdm2s, Assembly.bindM, Assembly.read_tdm1s,
      Assembly.lift. cbn [fst snd].
    unfold Np.transpose, Np.ndim. cbn [Np.conj Np.shape]. rewrite Hsh'. reflexivity.
  - intros b k s p q Hb Hk Hs Hp Hq.
    rewrite (Hit k b s q p), (Hit b k s p q) by assumption.
    rewrite cx_conj_add, cx_conj_conj. apply cx_add_comm.
Qed.

(** With an upper triangle in [tdm2s], the tensor that the third pass leaves
    behind does not have the symmetry of the claim. *)
Lemma C1_third_pass_raises_witness :
  exists t1',
    Assembly.third_pass 2 (fun _ _ => Assembly.ret tt)
                        (Examples.tdm1s0, Examples.tdm2s_upper)
    = ((t1', Examples.tdm2s_upper), Py.Raise (Py.ValueError "axes don't match array")) /\
    Np.item Examples.tdm2s_upper [0; 1; 0; 0; 0; 0; 0]%nat = Examples.imag /\
    Np.item Examples.tdm2s_upper [1; 0; 0; 0; 0; 0; 0]%nat = Cx.zero /\
    ~ Spec.tdm2_hermitian 2 2 Examples.tdm2s_upper.
Proof.
  destruct (C1_third_pass_raises 2 2 2 (fun _ _ => Assembly.ret tt)
              Examples.tdm1s0 Examples.tdm2s_upper eq_refl) as [t1' [H _]].
  exists t1'. split; [exact H|]. split; [reflexivity|]. split; [reflexivity|].
  intros Hh.
  specialize (Hh 0 1 0 0 0 0 0)%nat.
  assert (Habs : Np.item Examples.tdm2s_upper [1; 0; 0; 0; 0; 0; 0]%nat =
                 Cx.conj (Np.item Examples.tdm2s_upper [0; 1; 0; 0; 0; 0; 0]%nat))
    by (apply Hh; lia).
  discriminate Habs.
Defined.

(* ------------------------------------------------------------------------- *)
(** ** The single-hop rule *)

Section KeepsTdm2s.

Import Assembly.

Lemma keeps_ret {A} (a : A) : keeps_tdm2s (ret a).
Proof. intros st. reflexivity. Qed.

Lemma keeps_lift {A} (c : Py.result A) : keeps_tdm2s (lift c).
Proof. intros st. reflexivity. Qed.

Lemma keeps_read_tdm1s : keeps_tdm2s read_tdm1s.
Proof. intros st. reflexivity. Qed.

Lemma keeps_write_tdm1s (idxs : list Np.index) (v : Np.ndarray) :
  keeps_tdm2s (write_tdm1s idxs v).
Proof.
  intros st. unfold write_tdm1s.
  destruct (Np.setitem (fst st) idxs v); reflexivity.
Qed.

Lemma keeps_bind {A B} (c : M A) (k : A -> M B) :
  keeps_tdm2s c -> (forall a, keeps_tdm2s (k a)) -> keeps_tdm2s (bindM c k).
Proof.
  intros Hc Hk st. unfold bindM. specialize (Hc st).
  destruct (c st) as [st' [a|e]]; simpl in *.
  - rewrite Hk. exact Hc.
  - exact Hc.
Qed.

Lemma keeps_for_each {X} (xs : list X) (body : X -> M unit) :
  (forall x, keeps_tdm2s (body x)) -> keeps_tdm2s (for_eachM xs body).
Proof.
  intros Hb. induction xs as [|x xs IH]; simpl.
  - apply keeps_ret.
  - apply keeps_bind; [apply Hb|intros _; exact IH].
Qed.

Ltac keeps :=
  repeat first
    [ apply keeps_lift
    | apply keeps_read_tdm1s
    | apply keeps_write_tdm1s
    | apply keeps_ret
    | apply keeps_bind; [|intros ?]
    | apply keeps_for_each; intros ?
    | progress cbv zeta ].

Lemma crunch_1e_tdm2_keeps bra ket s1 d2_ijkk i0 i1 j0 j1 k0 k1 :
  keeps_tdm2s (crunch_1e_tdm2 bra ket s1 d2_ijkk i0 i1 j0 j1 k0 k1).
Proof. unfold crunch_1e_tdm2. keeps. Qed.

Lemma crunch_1e_rule_keeps nelec_fsr nroots nlas ints bra ket s1 :
  keeps_tdm2s (crunch_1e_rule nelec_fsr nroots nlas ints bra ket s1).
Proof.
  unfold crunch_1e_rule.
  repeat first
    [ apply crunch_1e_tdm2_keeps
    | apply keeps_lift
    | apply keeps_read_tdm1s
    | apply keeps_write_tdm1s
    | apply keeps_ret
    | apply keeps_bind; [|intros ?]
    | apply keeps_for_each; intros ?
    | progress cbv zeta ].
Qed.

End KeepsTdm2s.

(** C4: the single-hop rule does not do what the claim says.  It never
    writes to the 2-body tensor: both [d1] and [d2] are bound to
    [tdm1s[bra,ket]], so [tdm2s] is the same after the rule as before, for
    every input.  And line 291 assigns the outer product to all of
    [d1[s1,:,:]] instead of the (i,j) orbital block: with the stores
    [Examples.frag0] and [Examples.frag1] of two one-orbital fragments, every
    element of [tdm1s[0,1,0]] becomes the product conj(i) * 1 = -i, the
    elements [0,0] and [1,1] of the diagonal blocks included, before the rule
    raises on its way to the first 2-body block.  With the amplitudes in the
    slots where the builder stores them ([Examples.frag0_built],
    [Examples.frag1_built]) the rule raises before it writes anything. *)
Theorem C4_single_hop_rule_writes :
  (forall nelec_fsr nroots nlas ints bra ket s1 st,
      snd (fst (Assembly.crunch_1e_rule nelec_fsr nroots nlas ints bra ket s1 st))
      = snd st) /\
  (let r := Assembly.crunch_1e_rule Examples.one_hop 2 [1; 1]%nat
              [Examples.frag0; Examples.frag1] 0 1 0
              (Examples.tdm1s0, Examples.tdm2s0) in
   snd r = Py.Raise (Py.AttributeError "conj") /\
   snd (fst r) = Examples.tdm2s0 /\
   Np.item (fst (fst r)) [0; 1; 0; 0; 0]%nat = Cx.mk 0 (-1) /\
   Np.item (fst (fst r)) [0; 1; 0; 0; 1]%nat = Cx.mk 0 (-1) /\
   Np.item (fst (fst r)) [0; 1; 0; 1; 0]%nat = Cx.mk 0 (-1) /\
   Np.item (fst (fst r)) [0; 1; 0; 1; 1]%nat = Cx.mk 0 (-1)) /\
  (let r := Assembly.crunch_1e_rule Examples.one_hop 2 [1; 1]%nat
              [Examples.frag0_built; Examples.frag1_built] 0 1 0
              (Examples.tdm1s0, Examples.tdm2s0) in
   r = ((Examples.tdm1s0, Examples.tdm2s0), Py.Raise (Py.AttributeError "conj"))).
Proof.
  split; [|split].
  - intros. apply crunch_1e_rule_keeps.
  - cbv zeta. repeat split; reflexivity.
  - reflexivity.
Qed.

(* ------------------------------------------------------------------------- *)
(** ** A run of the builder on a store with amplitude vectors *)

(** Once [self.ci] is bound from outside, the kernel completes for the
    fragment of [Examples.pair_loss]: it stores the 1-operator amplitude and
    the alpha-alpha 2-operator amplitude at the pair (bra 0, ket 1), whose
    bra has two electrons less, and the stored matrix is antisymmetric. *)
Lemma kernel_with_ci_stores_hh :
  exists st hh,
    Kernel.kernel Examples.trans_rdm12s0 Examples.des_scale Examples.des_scale
                  [Np.of_list [Examples.one]; Np.of_list [Examples.one]] 2
                  (Hop.hopping_index Examples.pair_loss 0)
                  (Hop.zerop_index Examples.pair_loss)
                  (Hop.onep_index Examples.pair_loss)
                  Examples.attached = Py.Ok st /\
    Store.get_hh (fst st) 0 1 0 = Py.Ok (Some hh) /\
    Store.get_hh (fst st) 1 0 0 = Py.Ok None /\
    Np.item hh [0; 1]%nat = Cx.mk 0 4 /\
    Np.item hh [1; 0]%nat = Cx.mk 0 (-4).
Proof.
  eexists. eexists. split; [vm_compute; reflexivity|].
  split; [reflexivity|]. split; [reflexivity|]. split; reflexivity.
Qed.

(* ========================================================================= *)
(** * Further properties of the code *)

(* ------------------------------------------------------------------------- *)
(** ** The classifier does not depend on the order of the pair *)

Lemma hop_swap (nelec_fsr : list (list (list Z))) (f s b k : nat) :
  Hop.hopping_index nelec_fsr f s b k = - Hop.hopping_index nelec_fsr f s k b.
Proof. unfold Hop.hopping_index. lia. Qed.

Lemma sum_map_opp (g : nat -> Z) (l : list nat) :
  NpInt.sum (map (fun f => - g f) l) = - NpInt.sum (map g l).
Proof. induction l; sum_step; lia. Qed.

Lemma eqb_opp_zero (x : Z) : (- x =? 0) = (x =? 0).
Proof. destruct (Z.eqb_spec x 0), (Z.eqb_spec (- x) 0); try reflexivity; lia. Qed.

Lemma hop_sum0_swap (nelec_fsr : list (list (list Z))) (s b k : nat) :
  Hop.hop_sum0 nelec_fsr s b k = - Hop.hop_sum0 nelec_fsr s k b.
Proof.
  unfold Hop.hop_sum0. rewrite <- sum_map_opp. f_equal.
  apply map_ext. intros f. apply hop_swap.
Qed.

Lemma hop_sum1_swap (nelec_fsr : list (list (list Z))) (f b k : nat) :
  Hop.hop_sum1 nelec_fsr f b k = - Hop.hop_sum1 nelec_fsr f k b.
Proof.
  unfold Hop.hop_sum1, Hop.spins. sum_step.
  rewrite (hop_swap nelec_fsr f 0 b k), (hop_swap nelec_fsr f 1 b k). lia.
Qed.

Lemma nsop_swap (nelec_fsr : list (list (list Z))) (s b k : nat) :
  Hop.nsop_index nelec_fsr s b k = Hop.nsop_index nelec_fsr s k b.
Proof.
  unfold Hop.nsop_index. f_equal. apply map_ext. intros f.
  rewrite (hop_swap nelec_fsr f s b k). apply Z.abs_opp.
Qed.

Lemma symm_swap (nelec_fsr : list (list (list Z))) (b k : nat) :
  Hop.symm_index nelec_fsr b k = Hop.symm_index nelec_fsr k b.
Proof.
  unfold Hop.symm_index, Hop.spins, NpInt.all_zero. cbn [map forallb].
  rewrite (hop_sum0_swap nelec_fsr 0 b k), (hop_sum0_swap nelec_fsr 1 b k).
  rewrite !eqb_opp_zero. reflexivity.
Qed.

Lemma all_zero_map_ext (g h : nat -> Z) (l : list nat) :
  (forall f, (g f =? 0) = (h f =? 0)) ->
  NpInt.all_zero (map g l) = NpInt.all_zero (map h l).
Proof.
  intros H. unfold NpInt.all_zero. induction l as [|f l IH]; [reflexivity|].
  cbn [map forallb]. rewrite H, IH. reflexivity.
Qed.

(** X1: the hop of a pair is minus the hop of the swapped pair, and every
    classification tensor of [lst_hopping_index] and [make_stdm12s] takes the
    same value on a pair and on the swapped pair, so the upper triangle of
    pairs carries the whole classification. *)
Theorem classification_symmetric (nelec_fsr : list (list (list Z))) (f s b k : nat) :
  Hop.hopping_index nelec_fsr f s b k = - Hop.hopping_index nelec_fsr f s k b /\
  Hop.symm_index nelec_fsr b k = Hop.symm_index nelec_fsr k b /\
  Hop.zerop_index nelec_fsr b k = Hop.zerop_index nelec_fsr k b /\
  Hop.onep_index nelec_fsr b k = Hop.onep_index nelec_fsr k b /\
  Hop.conserv_index nelec_fsr b k = Hop.conserv_index nelec_fsr k b /\
  Hop.nsop_index nelec_fsr s b k = Hop.nsop_index nelec_fsr s k b /\
  Hop.nop_index nelec_fsr b k = Hop.nop_index nelec_fsr k b /\
  Hop.nfrag_index nelec_fsr b k = Hop.nfrag_index nelec_fsr k b /\
  Hop.nspin_index nelec_fsr b k = Hop.nspin_index nelec_fsr k b.
Proof.
  split; [apply hop_swap|]. split; [apply symm_swap|].
  split; [|split; [|split; [|split; [|split; [|split]]]]].
  - unfold Hop.zerop_index. rewrite symm_swap. do 3 f_equal.
    apply map_ext. intros g. unfold Hop.spins, NpInt.count_nonzero. cbn [map filter].
    rewrite (hop_swap nelec_fsr g 0 b k), (hop_swap nelec_fsr g 1 b k).
    rewrite !eqb_opp_zero.
    destruct (Hop.hopping_index nelec_fsr g 0 k b =? 0),
             (Hop.hopping_index nelec_fsr g 1 k b =? 0); reflexivity.
  - unfold Hop.onep_index. rewrite symm_swap. do 3 f_equal.
    apply map_ext. intros g. f_equal. apply map_ext. intros t.
    rewrite (hop_swap nelec_fsr g t b k). apply Z.abs_opp.
  - unfold Hop.conserv_index. apply all_zero_map_ext. intros g.
    rewrite (hop_sum1_swap nelec_fsr g b k). apply eqb_opp_zero.
  - apply nsop_swap.
  - rewrite !nop_split, !(nsop_swap nelec_fsr _ b k). reflexivity.
  - unfold Hop.nfrag_index. f_equal. apply map_ext. intros g.
    f_equal. apply map_ext. intros t.
    rewrite (hop_swap nelec_fsr g t b k). apply Z.abs_opp.
  - unfold Hop.nspin_index. rewrite (nsop_swap nelec_fsr 1 b k). reflexivity.
Qed.

(* ------------------------------------------------------------------------- *)
(** ** Null excitations *)

Lemma sum_map_zero (g : nat -> Z) (l : list nat) :
  (forall f, In f l -> g f = 0) -> NpInt.sum (map g l) = 0.
Proof.
  induction l as [|f l IH]; intros H; sum_step; [reflexivity|].
  rewrite (H f (or_introl eq_refl)), IH; [reflexivity|].
  intros f' Hf'. apply H. right. exact Hf'.
Qed.

Lemma count_pair_zero (x y : Z) :
  NpInt.count_nonzero [x; y] = 0 <-> x = 0 /\ y = 0.
Proof.
  unfold NpInt.count_nonzero. cbn [filter].
  destruct (Z.eqb_spec x 0), (Z.eqb_spec y 0); cbn [negb List.length]; lia.
Qed.

Lemma count_pair_nonneg (x y : Z) : 0 <= NpInt.count_nonzero [x; y].
Proof. unfold NpInt.count_nonzero. lia. Qed.

Lemma sum_counts_zero (a b : nat -> Z) (l : list nat) :
  NpInt.sum (map (fun f => NpInt.count_nonzero [a f; b f]) l) = 0 <->
  forall f, In f l -> a f = 0 /\ b f = 0.
Proof.
  induction l as [|f l IH]; sum_step.
  - split; [intros _ f []|reflexivity].
  - assert (Hn : 0 <= NpInt.sum (map (fun f => NpInt.count_nonzero [a f; b f]) l)).
    { clear IH. induction l as [|g l IHl]; sum_step; [lia|].
      pose proof (count_pair_nonneg (a g) (b g)). lia. }
    pose proof (count_pair_nonneg (a f) (b f)) as Hf.
    split.
    + intros H f' [<-|Hin].
      * apply count_pair_zero. lia.
      * apply IH; [lia|exact Hin].
    + intros H.
      assert (Hc : NpInt.count_nonzero [a f; b f] = 0)
        by (apply count_pair_zero, H; left; reflexivity).
      assert (Hl : NpInt.sum (map (fun f => NpInt.count_nonzero [a f; b f]) l) = 0)
        by (apply IH; intros f' Hf'; apply H; right; exact Hf').
      lia.
Qed.

(** X2: [zerop_index] marks exactly the pairs without any hop: the flag of a
    pair is set if and only if the hop of every fragment is zero for both
    spins (the conservation test it also makes is then implied); in
    particular every diagonal pair is a null excitation. *)
Theorem zerop_iff_no_hop (nelec_fsr : list (list (list Z))) (b k : nat) :
  (Hop.zerop_index nelec_fsr b k = true <->
   forall f, (f < Hop.nfrags nelec_fsr)%nat ->
             Hop.hopping_index nelec_fsr f 0 b k = 0 /\
             Hop.hopping_index nelec_fsr f 1 b k = 0) /\
  Hop.zerop_index nelec_fsr b b = true.
Proof.
  assert (Hiff : forall b k,
    Hop.zerop_index nelec_fsr b k = true <->
    forall f, (f < Hop.nfrags nelec_fsr)%nat ->
              Hop.hopping_index nelec_fsr f 0 b k = 0 /\
              Hop.hopping_index nelec_fsr f 1 b k = 0).
  { clear b k. intros b k. unfold Hop.zerop_index.
    change (NpInt.sum
              (map (fun f => NpInt.count_nonzero
                               (map (fun s => Hop.hopping_index nelec_fsr f s b k) Hop.spins))
                   (Hop.frags nelec_fsr)))
      with (NpInt.sum
              (map (fun f => NpInt.count_nonzero
                               [Hop.hopping_index nelec_fsr f 0 b k;
                                Hop.hopping_index nelec_fsr f 1 b k])
                   (Hop.frags nelec_fsr))).
    rewrite andb_true_iff, Z.eqb_eq, sum_counts_zero. unfold Hop.frags. split.
    - intros [_ H] f Hf. apply H. apply in_seq. lia.
    - intros H.
      assert (H' : forall f, In f (seq 0 (Hop.nfrags nelec_fsr)) ->
                Hop.hopping_index nelec_fsr f 0 b k = 0 /\
                Hop.hopping_index nelec_fsr f 1 b k = 0)
        by (intros f Hf; apply H; apply in_seq in Hf; lia).
      split; [|exact H'].
      unfold Hop.symm_index, Hop.spins, NpInt.all_zero, Hop.hop_sum0, Hop.frags.
      cbn [map forallb].
      rewrite !sum_map_zero; [reflexivity| |]; intros f Hf; apply (H' f Hf). }
  split; [apply Hiff|].
  apply Hiff. intros f _. unfold Hop.hopping_index. lia.
Qed.

Lemma zerop_iff_no_hop_witness :
  Hop.zerop_index Examples.idle_and_loss 0 0 = true /\
  Hop.hopping_index Examples.spin_exchange 1 0 0 0 = 0.
Proof.
  split.
  - apply (proj2 (proj1 (zerop_iff_no_hop Examples.idle_and_loss 0 0))).
    intros [|[|f]] Hf; [split; reflexivity|split; reflexivity|].
    unfold Hop.nfrags in Hf. simpl in Hf. lia.
  - apply (proj1 (proj1 (zerop_iff_no_hop Examples.spin_exchange 0 0)) eq_refl 1%nat).
    unfold Hop.nfrags. simpl. lia.
Defined.

(* ------------------------------------------------------------------------- *)
(** ** Which pairs reach which rule *)

Lemma onep_unfold (nelec_fsr : list (list (list Z))) (b k : nat) :
  Hop.onep_index nelec_fsr b k = true ->
  Hop.symm_index nelec_fsr b k = true /\ Hop.nop_index nelec_fsr b k = 2.
Proof.
  unfold Hop.onep_index. rewrite andb_true_iff, Z.eqb_eq. intros [Hs Hn].
  split; [exact Hs|].
  rewrite nop_split, nsop_alpha, nsop_beta, <- sum_swap. exact Hn.
Qed.

Lemma conserv_symm_not_one (nelec_fsr : list (list (list Z))) (b k : nat) :
  Hop.symm_index nelec_fsr b k = true ->
  Hop.nop_index nelec_fsr b k = 2 ->
  Hop.conserv_index nelec_fsr b k = false.
Proof.
  intros Hs Hn. destruct (Hop.conserv_index nelec_fsr b k) eqn:Hc; [|reflexivity].
  destruct (conserv_balanced nelec_fsr b k Hc) as [E _].
  destruct (symm_even nelec_fsr b k Hs) as [ma [mb [_ [_ [Ea Eb]]]]].
  rewrite nop_split in Hn. lia.
Qed.

(** X3: a pair that [lst_hopping_index] marks as a one-electron hop
    ([onep_index]) never reaches an assembly rule: it conserves each spin and
    has opCount 2, so some fragment has a net charge transfer, the
    [conserv_index] test of line 244 fails and the second pass skips the
    pair. *)
Theorem onep_pairs_are_skipped (nelec_fsr : list (list (list Z))) (b k : nat) :
  Hop.onep_index nelec_fsr b k = true ->
  Hop.symm_index nelec_fsr b k = true /\
  Hop.nop_index nelec_fsr b k = 2 /\
  Hop.conserv_index nelec_fsr b k = false /\
  Assembly.dispatch nelec_fsr b k = Py.Ok None.
Proof.
  intros H. destruct (onep_unfold nelec_fsr b k H) as [Hs Hn].
  pose proof (conserv_symm_not_one nelec_fsr b k Hs Hn) as Hc.
  repeat split; try assumption.
  unfold Assembly.dispatch. rewrite Hc. reflexivity.
Qed.

Lemma onep_pairs_are_skipped_witness :
  Hop.onep_index Examples.one_hop 0 1 = true /\
  Assembly.dispatch Examples.one_hop 0 1 = Py.Ok None.
Proof.
  split; [reflexivity|].
  exact (proj2 (proj2 (proj2 (onep_pairs_are_skipped Examples.one_hop 0 1 eq_refl)))).
Defined.

(** X4: the body of the second pass has four outcomes and no other.  A pair
    that fails the [conserv_index] test is skipped; a conserving pair with
    opCount 0 goes to the null rule; a conserving pair with opCount 2 goes to
    the single-hop rule, always with spin index 0; every other conserving
    pair has opCount at least 4 and raises the NameError of line 407.  No
    two-electron rule is ever called. *)
Theorem dispatch_outcomes (nelec_fsr : list (list (list Z))) (b k : nat) :
  (Hop.conserv_index nelec_fsr b k = false /\
   Assembly.dispatch nelec_fsr b k = Py.Ok None) \/
  (Hop.conserv_index nelec_fsr b k = true /\ Hop.nop_index nelec_fsr b k = 0 /\
   Assembly.dispatch nelec_fsr b k = Py.Ok (Some (Assembly.crunch_null b k))) \/
  (Hop.conserv_index nelec_fsr b k = true /\ Hop.nop_index nelec_fsr b k = 2 /\
   Hop.symm_index nelec_fsr b k = false /\
   Assembly.dispatch nelec_fsr b k = Py.Ok (Some (Assembly.crunch_1e b k 0))) \/
  (Hop.conserv_index nelec_fsr b k = true /\ 4 <= Hop.nop_index nelec_fsr b k /\
   Assembly.dispatch nelec_fsr b k = Py.Raise (Py.NameError "nop_idnex")).
Proof.
  unfold Assembly.dispatch.
  destruct (Hop.conserv_index nelec_fsr b k) eqn:Hc; cbn [negb]; [|left; auto].
  right.
  destruct (nop_even nelec_fsr b k (or_introl Hc)) as [m [Hm En]].
  destruct (conserv_balanced nelec_fsr b k Hc) as [Eab _].
  destruct (Z.eqb_spec (Hop.nop_index nelec_fsr b k) 0) as [E0|N0]; [left; auto|].
  right.
  destruct (Z.eqb_spec (Hop.nop_index nelec_fsr b k) 2) as [E2|N2].
  - left. split; [reflexivity|]. split; [exact E2|].
    assert (Hb : Hop.nsop_index nelec_fsr 1 b k = 1)
      by (rewrite nop_split in E2; lia).
    split.
    + destruct (Hop.symm_index nelec_fsr b k) eqn:Hs; [|reflexivity].
      pose proof (conserv_symm_not_one nelec_fsr b k Hs E2). congruence.
    + unfold Hop.nspin_index. rewrite Hb. reflexivity.
  - right. split; [reflexivity|]. split; [lia|]. reflexivity.
Qed.

(* ------------------------------------------------------------------------- *)
(** ** The store: what a setter leaves alone *)

Section StoreFrame.

Import Py Np Store.

Lemma get3_set3_other (ts ts' : list table) (s i j s' i' j' : nat) (x : ndarray) :
  set3 ts s i j x = Ok ts' -> (s', i', j') <> (s, i, j) ->
  get3 ts' s' i' j' = get3 ts s' i' j'.
Proof.
  unfold set3, get3. intros H Hne.
  apply bind_ok in H. destruct H as [t [Ht H]].
  apply bind_ok in H. destruct H as [t' [Ht' H]].
  destruct (Nat.eq_dec s' s) as [->|Hs].
  - rewrite (getl_setl_same _ _ _ _ H), Ht. cbn [bind].
    apply (get2_set2_other _ _ _ _ _ _ _ Ht'). congruence.
  - rewrite (getl_setl_other _ _ _ _ _ H Hs). reflexivity.
Qed.

Lemma getl_repeat {A} (x : A) (n i : nat) :
  getl (repeat x n) i =
  if (i <? n)%nat then Ok x else Raise (IndexError "list index out of range").
Proof.
  unfold getl. revert i. induction n as [|n IH]; intros [|i]; cbn [repeat nth_error];
    try reflexivity.
  rewrite IH. reflexivity.
Qed.

End StoreFrame.

(** X5: a setter writes one slot of one table.  After [set_h], [set_hh],
    [set_phh] or [set_sm] every other slot of the same table reads as before
    and the other five tables are untouched; after [set_dm1] or [set_dm2]
    every slot of the density table other than (max, min) reads as before
    and the other five tables are untouched. *)
Theorem setters_write_one_slot (self self' : Store.LSTDMint) (i j s : nat) (x : Np.ndarray) :
  (Store.set_h self i j s x = Py.Ok self' ->
   (forall i' j' s', (s', i', j') <> (s, i, j) ->
                     Store.get_h self' i' j' s' = Store.get_h self i' j' s') /\
   Store._hh self' = Store._hh self /\ Store._phh self' = Store._phh self /\
   Store._sm self' = Store._sm self /\ Store.dm1 self' = Store.dm1 self /\
   Store.dm2 self' = Store.dm2 self) /\
  (Store.set_hh self i j s x = Py.Ok self' ->
   (forall i' j' s', (s', i', j') <> (s, i, j) ->
                     Store.get_hh self' i' j' s' = Store.get_hh self i' j' s') /\
   Store._h self' = Store._h self /\ Store._phh self' = Store._phh self /\
   Store._sm self' = Store._sm self /\ Store.dm1 self' = Store.dm1 self /\
   Store.dm2 self' = Store.dm2 self) /\
  (Store.set_phh self i j s x = Py.Ok self' ->
   (forall i' j' s', (s', i', j') <> (s, i, j) ->
                     Store.get_phh self' i' j' s' = Store.get_phh self i' j' s') /\
   Store._h self' = Store._h self /\ Store._hh self' = Store._hh self /\
   Store._sm self' = Store._sm self /\ Store.dm1 self' = Store.dm1 self /\
   Store.dm2 self' = Store.dm2 self) /\
  (Store.set_sm self i j x = Py.Ok self' ->
   (forall i' j', (i', j') <> (i, j) ->
                  Store.get_sm self' i' j' = Store.get_sm self i' j') /\
   Store._h self' = Store._h self /\ Store._hh self' = Store._hh self /\
   Store._phh self' = Store._phh self /\ Store.dm1 self' = Store.dm1 self /\
   Store.dm2 self' = Store.dm2 self) /\
  (Store.set_dm1 self i j x = Py.Ok self' ->
   (forall a b, (a, b) <> (Nat.max i j, Nat.min i j) ->
                Store.get2 (Store.dm1 self') a b = Store.get2 (Store.dm1 self) a b) /\
   Store._h self' = Store._h self /\ Store._hh self' = Store._hh self /\
   Store._phh self' = Store._phh self /\ Store._sm self' = Store._sm self /\
   Store.dm2 self' = Store.dm2 self) /\
  (Store.set_dm2 self i j x = Py.Ok self' ->
   (forall a b, (a, b) <> (Nat.max i j, Nat.min i j) ->
                Store.get2 (Store.dm2 self') a b = Store.get2 (Store.dm2 self) a b) /\
   Store._h self' = Store._h self /\ Store._hh self' = Store._hh self /\
   Store._phh self' = Store._phh self /\ Store._sm self' = Store._sm self /\
   Store.dm1 self' = Store.dm1 self).
Proof.
  repeat match goal with |- _ /\ _ => split end.
  - intros H. unfold Store.set_h in H. apply bind_ok in H.
    destruct H as [t [Ht H]]. inversion H. subst. cbn.
    repeat split. intros i' j' s' Hne. unfold Store.get_h. cbn.
    exact (get3_set3_other _ _ _ _ _ _ _ _ _ Ht Hne).
  - intros H. unfold Store.set_hh in H. apply bind_ok in H.
    destruct H as [t [Ht H]]. inversion H. subst. cbn.
    repeat split. intros i' j' s' Hne. unfold Store.get_hh. cbn.
    exact (get3_set3_other _ _ _ _ _ _ _ _ _ Ht Hne).
  - intros H. unfold Store.set_phh in H. apply bind_ok in H.
    destruct H as [t [Ht H]]. inversion H. subst. cbn.
    repeat split. intros i' j' s' Hne. unfold Store.get_phh. cbn.
    exact (get3_set3_other _ _ _ _ _ _ _ _ _ Ht Hne).
  - intros H. unfold Store.set_sm in H. apply bind_ok in H.
    destruct H as [t [Ht H]]. inversion H. subst. cbn.
    repeat split. intros i' j' Hne. unfold Store.get_sm. cbn.
    exact (get2_set2_other _ _ _ _ _ _ _ Ht Hne).
  - intros H. destruct (set_dm1_slot _ _ _ _ _ H) as [v [Hset _]].
    split.
    + intros a b Hne. exact (get2_set2_other _ _ _ _ _ _ _ Hset Hne).
    + unfold Store.set_dm1 in H. destruct (i <? j)%nat.
      * apply bind_ok in H. destruct H as [xt [_ H]].
        apply bind_ok in H. destruct H as [t [_ H]]. inversion H. repeat split.
      * apply bind_ok in H. destruct H as [t [_ H]]. inversion H. repeat split.
  - intros H. destruct (set_dm2_slot _ _ _ _ _ H) as [v [Hset _]].
    split.
    + intros a b Hne. exact (get2_set2_other _ _ _ _ _ _ _ Hset Hne).
    + unfold Store.set_dm2 in H. destruct (i <? j)%nat.
      * apply bind_ok in H. destruct H as [xt [_ H]].
        apply bind_ok in H. destruct H as [t [_ H]]. inversion H. repeat split.
      * apply bind_ok in H. destruct H as [t [_ H]]. inversion H. repeat split.
Qed.

Lemma setters_write_one_slot_witness :
  exists st,
    Store.set_h Examples.frag0 1 0 0 (Np.of_list [Examples.imag]) = Py.Ok st /\
    Store.get_h st 0 1 0 = Py.Ok (Some (Np.of_list [Examples.one])) /\
    Store.dm1 st = Examples.empty2.
Proof.
  destruct (Store.set_h Examples.frag0 1 0 0 (Np.of_list [Examples.imag]))
    as [st|e] eqn:Hs; [|vm_compute in Hs; discriminate].
  exists st. split; [reflexivity|].
  destruct (setters_write_one_slot Examples.frag0 st 1 0 0 (Np.of_list [Examples.imag]))
    as [H _].
  destruct (H Hs) as (Hframe & _ & _ & _ & Hdm1 & _).
  split.
  - rewrite Hframe; [reflexivity|]. intros Hx. inversion Hx.
  - rewrite Hdm1. reflexivity.
Defined.

(* ------------------------------------------------------------------------- *)
(** ** The store: adjoints *)

Section StoreAdjoint.

Import Py Np Store.

Lemma transpose_bad_arity (axes : list nat) (x : ndarray) :
  List.length axes <> ndim x ->
  transpose axes x = Raise (ValueError "axes don't match array").
Proof.
  intros H. unfold transpose, is_perm.
  destruct (Nat.eqb_spec (List.length axes) (ndim x)) as [E|_]; [contradiction|].
  reflexivity.
Qed.

Lemma T_conj_involutive (x : ndarray) :
  shape (T (conj (T (conj x)))) = shape x /\
  forall idx, item (T (conj (T (conj x)))) idx = item x idx.
Proof.
  split.
  - cbn. apply rev_involutive.
  - intros idx. cbn. rewrite rev_involutive. apply cx_conj_conj.
Qed.

Lemma conj_involutive (x : ndarray) :
  shape (conj (conj x)) = shape x /\
  forall idx, item (conj (conj x)) idx = item x idx.
Proof. split; [reflexivity|]. intros idx. cbn. apply cx_conj_conj. Qed.

Lemma transpose021_twice (x : ndarray) :
  ndim x = 3%nat ->
  exists xt, transpose [0; 2; 1]%nat (conj x) = Ok xt /\ ndim xt = 3%nat /\
    exists x', transpose [0; 2; 1]%nat (conj xt) = Ok x' /\
      shape x' = shape x /\
      forall a b c, item x' [a; b; c] = item x [a; b; c].
Proof.
  intros H. destruct x as [sh it]. unfold ndim in H. cbn in H.
  destruct sh as [|n0 [|n1 [|n2 [|n3 sh]]]]; try discriminate.
  eexists. split; [reflexivity|]. split; [reflexivity|].
  eexists. split; [reflexivity|]. split; [reflexivity|].
  intros a b c. cbn. apply cx_conj_conj.
Qed.

Lemma transpose02143_twice (x : ndarray) :
  ndim x = 5%nat ->
  exists xt, transpose [0; 2; 1; 4; 3]%nat (conj x) = Ok xt /\ ndim xt = 5%nat /\
    exists x', transpose [0; 2; 1; 4; 3]%nat (conj xt) = Ok x' /\
      shape x' = shape x /\
      forall a b c d e, item x' [a; b; c; d; e] = item x [a; b; c; d; e].
Proof.
  intros H. destruct x as [sh it]. unfold ndim in H. cbn in H.
  destruct sh as [|n0 [|n1 [|n2 [|n3 [|n4 [|n5 sh]]]]]]; try discriminate.
  eexists. split; [reflexivity|]. split; [reflexivity|].
  eexists. split; [reflexivity|]. split; [reflexivity|].
  intros a b c d e. cbn. apply cx_conj_conj.
Qed.

End StoreAdjoint.

(** X6: the density setters accept a pair in either order.  For bra < ket
    [set_dm1 (i, j, x)] does what [set_dm1 (j, i, xt)] does, where [xt] is
    the conjugate of [x] with its last two axes exchanged; applying that
    operation to [xt] gives [x] back, element by element.  An [x] that does
    not have three axes makes the call raise ValueError and leaves the store
    as it was.  The same holds for [set_dm2] with five axes and the
    exchange of the last two pairs of axes. *)
Theorem density_setters_either_order (self : Store.LSTDMint) (i j : nat) (x : Np.ndarray) :
  (i < j)%nat ->
  (Np.ndim x = 3%nat ->
   exists xt, Np.transpose [0; 2; 1]%nat (Np.conj x) = Py.Ok xt /\
     Store.set_dm1 self i j x = Store.set_dm1 self j i xt /\
     exists x', Np.transpose [0; 2; 1]%nat (Np.conj xt) = Py.Ok x' /\
       Np.shape x' = Np.shape x /\
       forall a b c, Np.item x' [a; b; c] = Np.item x [a; b; c]) /\
  (Np.ndim x <> 3%nat ->
   Store.set_dm1 self i j x = Py.Raise (Py.ValueError "axes don't match array")) /\
  (Np.ndim x = 5%nat ->
   exists xt, Np.transpose [0; 2; 1; 4; 3]%nat (Np.conj x) = Py.Ok xt /\
     Store.set_dm2 self i j x = Store.set_dm2 self j i xt /\
     exists x', Np.transpose [0; 2; 1; 4; 3]%nat (Np.conj xt) = Py.Ok x' /\
       Np.shape x' = Np.shape x /\
       forall a b c d e, Np.item x' [a; b; c; d; e] = Np.item x [a; b; c; d; e]) /\
  (Np.ndim x <> 5%nat ->
   Store.set_dm2 self i j x = Py.Raise (Py.ValueError "axes don't match array")).
Proof.
  intros Hij.
  assert (Hlt : (i <? j)%nat = true) by (apply Nat.ltb_lt; exact Hij).
  assert (Hge : (j <? i)%nat = false) by (apply Nat.ltb_ge; lia).
  repeat match goal with |- _ /\ _ => split end.
  - intros H3. destruct (transpose021_twice x H3) as (xt & Hxt & _ & Hback).
    exists xt. split; [exact Hxt|]. split; [|exact Hback].
    unfold Store.set_dm1. rewrite Hlt, Hge, Hxt. reflexivity.
  - intros H3. unfold Store.set_dm1. rewrite Hlt.
    rewrite transpose_bad_arity; [reflexivity|].
    cbn. unfold Np.ndim in *. cbn. congruence.
  - intros H5. destruct (transpose02143_twice x H5) as (xt & Hxt & _ & Hback).
    exists xt. split; [exact Hxt|]. split; [|exact Hback].
    unfold Store.set_dm2. rewrite Hlt, Hge, Hxt. reflexivity.
  - intros H5. unfold Store.set_dm2. rewrite Hlt.
    rewrite transpose_bad_arity; [reflexivity|].
    cbn. unfold Np.ndim in *. cbn. congruence.
Qed.

Lemma density_setters_either_order_witness :
  (0 < 1)%nat /\
  Store.set_dm1 (Examples.blank 2 [(0, 0); (0, 0)]) 0 1 (Np.of_list [Examples.one])
  = Py.Raise (Py.ValueError "axes don't match array").
Proof.
  split; [lia|].
  destruct (density_setters_either_order (Examples.blank 2 [(0, 0); (0, 0)]) 0 1
              (Np.of_list [Examples.one])) as (_ & H & _); [lia|].
  apply H. vm_compute. discriminate.
Defined.

(** X7: reading an adjoint twice gives the amplitude back.  If [x] is
    stored with [set_hh] at (j, i), [get_pp (i, j)] returns some [y]; if
    that [y] is stored at (i, j), [get_pp (j, i)] returns an array of the
    shape of [x] with the elements of [x].  The same holds for [set_h] with
    [get_p] and for [set_sm] with [get_sp]. *)
Theorem adjoint_read_twice (self s1 : Store.LSTDMint) (i j s : nat) (x : Np.ndarray) :
  (Store.set_hh self j i s x = Py.Ok s1 ->
   exists y, Store.get_pp s1 i j s = Py.Ok y /\
     forall s2, Store.set_hh s1 i j s y = Py.Ok s2 ->
       exists z, Store.get_pp s2 j i s = Py.Ok z /\
         Np.shape z = Np.shape x /\ forall idx, Np.item z idx = Np.item x idx) /\
  (Store.set_h self j i s x = Py.Ok s1 ->
   exists y, Store.get_p s1 i j s = Py.Ok y /\
     forall s2, Store.set_h s1 i j s y = Py.Ok s2 ->
       exists z, Store.get_p s2 j i s = Py.Ok z /\
         Np.shape z = Np.shape x /\ forall idx, Np.item z idx = Np.item x idx) /\
  (Store.set_sm self j i x = Py.Ok s1 ->
   exists y, Store.get_sp s1 i j = Py.Ok y /\
     forall s2, Store.set_sm s1 i j y = Py.Ok s2 ->
       exists z, Store.get_sp s2 j i = Py.Ok z /\
         Np.shape z = Np.shape x /\ forall idx, Np.item z idx = Np.item x idx).
Proof.
  repeat match goal with |- _ /\ _ => split end.
  - intros H. unfold Store.set_hh in H. apply bind_ok in H.
    destruct H as [t [Ht H]]. inversion H. subst. clear H.
    exists (Np.T (Np.conj x)). split.
    + unfold Store.get_pp. cbn. rewrite (get3_set3_same _ _ _ _ _ _ Ht). reflexivity.
    + intros s2 H2. unfold Store.set_hh in H2. apply bind_ok in H2.
      destruct H2 as [t2 [Ht2 H2]]. inversion H2. subst. clear H2.
      exists (Np.T (Np.conj (Np.T (Np.conj x)))). split.
      * unfold Store.get_pp. cbn. cbn in Ht2.
        rewrite (get3_set3_same _ _ _ _ _ _ Ht2). reflexivity.
      * apply T_conj_involutive.
  - intros H. unfold Store.set_h in H. apply bind_ok in H.
    destruct H as [t [Ht H]]. inversion H. subst. clear H.
    exists (Np.conj x). split.
    + unfold Store.get_p. cbn. rewrite (get3_set3_same _ _ _ _ _ _ Ht). reflexivity.
    + intros s2 H2. unfold Store.set_h in H2. apply bind_ok in H2.
      destruct H2 as [t2 [Ht2 H2]]. inversion H2. subst. clear H2.
      exists (Np.conj (Np.conj x)). split.
      * unfold Store.get_p. cbn. cbn in Ht2.
        rewrite (get3_set3_same _ _ _ _ _ _ Ht2). reflexivity.
      * apply conj_involutive.
  - intros H. unfold Store.set_sm in H. apply bind_ok in H.
    destruct H as [t [Ht H]]. inversion H. subst. clear H.
    exists (Np.conj x). split.
    + unfold Store.get_sp. cbn. rewrite (get2_set2_same _ _ _ _ _ Ht). reflexivity.
    + intros s2 H2. unfold Store.set_sm in H2. apply bind_ok in H2.
      destruct H2 as [t2 [Ht2 H2]]. inversion H2. subst. clear H2.
      exists (Np.conj (Np.conj x)). split.
      * unfold Store.get_sp. cbn. cbn in Ht2.
        rewrite (get2_set2_same _ _ _ _ _ Ht2). reflexivity.
      * apply conj_involutive.
Qed.

Lemma adjoint_read_twice_witness :
  exists s1 y,
    Store.set_hh (Examples.blank 2 [(0, 0); (0, 0)]) 1 0 0 Examples.sym2 = Py.Ok s1 /\
    Store.get_pp s1 0 1 0 = Py.Ok y.
Proof.
  destruct (Store.set_hh (Examples.blank 2 [(0, 0); (0, 0)]) 1 0 0 Examples.sym2)
    as [s1|e] eqn:Hs; [|vm_compute in Hs; discriminate].
  destruct (adjoint_read_twice (Examples.blank 2 [(0, 0); (0, 0)]) s1 0 1 0 Examples.sym2)
    as [H _].
  destruct (H Hs) as [y [Hy _]].
  exists s1, y. split; [reflexivity|exact Hy].
Defined.

(* ------------------------------------------------------------------------- *)
(** ** The store after the constructor *)

Section FreshStore.

Import Py Np Store.

Lemma get2_empty_table (n i j : nat) :
  get2 (empty_table n) i j =
  if ((i <? n) && (j <? n))%nat then Ok None
  else Raise (IndexError "list index out of range").
Proof.
  unfold get2, empty_table. rewrite getl_repeat.
  destruct (i <? n)%nat; [|reflexivity]. cbn [bind andb].
  apply getl_repeat.
Qed.

Lemma get3_empty_tables (m n s i j : nat) :
  get3 (repeat (empty_table n) m) s i j =
  if ((s <? m) && ((i <? n) && (j <? n)))%nat then Ok None
  else Raise (IndexError "list index out of range").
Proof.
  unfold get3. rewrite getl_repeat.
  destruct (s <? m)%nat; [|reflexivity]. cbn [bind andb].
  apply get2_empty_table.
Qed.

End FreshStore.

(** X8: the store that the constructor returns is empty.  The constructor
    succeeds only on an iterable [nroots]; with [n] its length, every getter
    returns None for a pair of states below [n] (and a spin channel below 2,
    or below 3 for the 2-operator table) and raises IndexError otherwise,
    and every adjoint getter of a pair of states in range raises
    AttributeError, None having no method [conj]. *)
Theorem constructed_store_is_empty
  (norb0 : nat) (nelec_r0 : list (Z * Z)) (nroots0 : Store.pynroots)
  (self : Store.LSTDMint) :
  Store.init norb0 nelec_r0 nroots0 = Py.Ok self ->
  exists items, nroots0 = Store.PyIter items /\
    let n := List.length items in
    let out := Py.Raise (Py.IndexError "list index out of range") in
    forall i j s,
      let inside := ((i <? n) && (j <? n))%nat in
      Store.get_h self i j s = (if ((s <? 2)%nat && inside) then Py.Ok None else out) /\
      Store.get_hh self i j s = (if ((s <? 3)%nat && inside) then Py.Ok None else out) /\
      Store.get_phh self i j s = (if ((s <? 2)%nat && inside) then Py.Ok None else out) /\
      Store.get_sm self i j = (if inside then Py.Ok None else out) /\
      Store.get_dm1 self i j = (if inside then Py.Ok None else out) /\
      Store.get_dm2 self i j = (if inside then Py.Ok None else out) /\
      (inside = true ->
       (s < 2)%nat ->
       Store.get_p self i j s = Py.Raise (Py.AttributeError "conj") /\
       Store.get_pp self i j s = Py.Raise (Py.AttributeError "conj") /\
       Store.get_pph self i j s = Py.Raise (Py.AttributeError "conj") /\
       Store.get_sp self i j = Py.Raise (Py.AttributeError "conj")).
Proof.
  intros H. destruct nroots0 as [k|items]; [discriminate|].
  exists items. split; [reflexivity|]. cbv zeta.
  unfold Store.init in H. cbn [Store.iter_len Py.bind] in H.
  injection H as H. subst self.
  intros i j s.
  assert (Hmm : ((Nat.max i j <? List.length items) && (Nat.min i j <? List.length items))%nat
                = ((i <? List.length items) && (j <? List.length items))%nat).
  { destruct (Nat.ltb_spec i (List.length items));
      destruct (Nat.ltb_spec j (List.length items));
      destruct (Nat.ltb_spec (Nat.max i j) (List.length items));
      destruct (Nat.ltb_spec (Nat.min i j) (List.length items)); try reflexivity; lia. }
  repeat match goal with |- _ /\ _ => split end.
  - unfold Store.get_h. cbn [Store._h]. apply (get3_empty_tables 2).
  - unfold Store.get_hh. cbn [Store._hh]. apply (get3_empty_tables 3).
  - unfold Store.get_phh. cbn [Store._phh]. apply (get3_empty_tables 2).
  - unfold Store.get_sm. cbn [Store._sm]. apply get2_empty_table.
  - unfold Store.get_dm1. cbn [Store.dm1]. rewrite get2_empty_table, Hmm. reflexivity.
  - unfold Store.get_dm2. cbn [Store.dm2]. rewrite get2_empty_table, Hmm. reflexivity.
  - intros Hin Hs. apply andb_prop in Hin. destruct Hin as [Hi Hj].
    assert (Hs2 : (s <? 2)%nat = true) by (apply Nat.ltb_lt; exact Hs).
    assert (Hs3 : (s <? 3)%nat = true) by (apply Nat.ltb_lt; lia).
    unfold Store.get_p, Store.get_pp, Store.get_pph, Store.get_sp.
    cbn [Store._h Store._hh Store._phh Store._sm].
    pose proof (get3_empty_tables 2 (List.length items) s j i) as G2.
    pose proof (get3_empty_tables 3 (List.length items) s j i) as G3.
    rewrite Hs2, Hi, Hj in G2. rewrite Hs3, Hi, Hj in G3.
    cbn [repeat andb] in G2, G3.
    rewrite G2, G3, get2_empty_table, Hi, Hj.
    repeat split.
Qed.

Lemma constructed_store_is_empty_witness :
  exists self,
    Store.init 2 [(1, 0); (0, 1)] (Store.PyIter [0; 1]%nat) = Py.Ok self /\
    Store.get_dm1 self 0 1 = Py.Ok None /\
    Store.get_hh self 0 0 3 = Py.Raise (Py.IndexError "list index out of range").
Proof.
  destruct (Store.init 2 [(1, 0); (0, 1)] (Store.PyIter [0; 1]%nat))
    as [self|e] eqn:Hs; [|vm_compute in Hs; discriminate].
  exists self. split; [reflexivity|].
  destruct (constructed_store_is_empty _ _ _ _ Hs) as (items & Hit & H).
  inversion Hit. subst items. cbv zeta in H.
  split.
  - destruct (H 0 1 0)%nat as (_ & _ & _ & _ & Hd & _). exact Hd.
  - destruct (H 0 0 3)%nat as (_ & Hh & _). exact Hh.
Defined.

(** X9: for [nroots] a Python int or a list, a store made by the
    constructor cannot be filled by its own kernel.  The constructor iterates
    over [nroots] (lines 57-62), so with an int it raises TypeError; with a
    list it returns a store, on which the kernel, which uses the same
    attribute as an integer (lines 142 and 155), raises TypeError whatever
    its arguments. *)
Theorem constructor_then_kernel_raises
  (trans_rdm12s : nat -> Np.ndarray -> Np.ndarray -> nat -> Z * Z -> Np.ndarray * Np.ndarray)
  (des_a des_b : Np.ndarray -> nat -> Z * Z -> nat -> Np.ndarray)
  (ci_arg : list Np.ndarray) (R : nat) (hopping_index : nat -> nat -> nat -> Z)
  (zerop_index onep_index : nat -> nat -> bool)
  (norb0 : nat) (nelec_r0 : list (Z * Z)) :
  (forall n : nat,
      exists what,
        Store.init norb0 nelec_r0 (Store.PyInt n) = Py.Raise (Py.TypeError what)) /\
  (forall items : list nat,
      exists self what,
        Store.init norb0 nelec_r0 (Store.PyIter items) = Py.Ok self /\
        Store.nroots self = Store.PyIter items /\
        Kernel.kernel trans_rdm12s des_a des_b ci_arg R hopping_index
                      zerop_index onep_index self
        = Py.Raise (Py.TypeError what)).
Proof.
  split.
  - intros n. eexists. reflexivity.
  - intros items. eexists. eexists. split; [reflexivity|]. split; reflexivity.
Qed.

(* ------------------------------------------------------------------------- *)
(** ** The builder: which pairs the spectator loop visits *)

Section SpectatorRows.

Import Py Np NpMore Store.

Variable trans_rdm12s :
  nat -> ndarray -> ndarray -> nat -> Z * Z -> ndarray * ndarray.
Variable ci_arg : list ndarray.
Variable R : nat.
Variable hopping_index : nat -> nat -> nat -> Z.
Variable zerop_index : nat -> nat -> bool.

Lemma spectator_body_log i j st st' :
  Kernel.spectator_body trans_rdm12s ci_arg zerop_index i j st = Ok st' ->
  snd st' = snd st ++ [(i, j)].
Proof.
  unfold Kernel.spectator_body. intros H.
  apply bind_ok in H. destruct H as [nelec [_ H]].
  apply bind_ok in H. destruct H as [ci_i [_ H]].
  apply bind_ok in H. destruct H as [ci_j [_ H]].
  apply bind_ok in H. destruct H as [self1 [_ H]].
  apply bind_ok in H. destruct H as [self2 [_ H]].
  inversion H. reflexivity.
Qed.

Lemma spectator_pass_rows st st' :
  Kernel.spectator_pass trans_rdm12s ci_arg R hopping_index zerop_index st = Ok st' ->
  exists n a c b d,
    nroots (fst st) = PyInt n /\
    Kernel.marked R hopping_index n = [(a, c); (b, d)] /\
    snd st' = snd st ++ [(a, b); (c, d)].
Proof.
  unfold Kernel.spectator_pass. intros H.
  apply bind_ok in H. destruct H as [n [En H]].
  apply bind_ok in H. destruct H as [u [_ H]].
  destruct (nroots (fst st)) as [n0|items] eqn:Hn; [|discriminate].
  cbn in En. inversion En. subst n0. clear En.
  exists n. unfold Kernel.spectator_index in H.
  destruct (Kernel.marked R hopping_index n) as [|[a c] [|[b d] [|x rest]]];
    cbn [map fst snd for_each Kernel.unpack2 bind] in H; try discriminate.
  exists a, c, b, d. split; [reflexivity|]. split; [reflexivity|].
  apply bind_ok in H. destruct H as [s1 [H1 H]].
  apply bind_ok in H. destruct H as [s2 [H2 H]].
  inversion H. subst s2. clear H.
  rewrite (spectator_body_log _ _ _ _ H2), (spectator_body_log _ _ _ _ H1).
  rewrite <- app_assoc. reflexivity.
Qed.

Lemma spectator_pass_bad_rows st n :
  nroots (fst st) = PyInt n ->
  (n <= R)%nat \/ (n < 2)%nat ->
  List.length (Kernel.marked R hopping_index n) <> 2%nat ->
  exists what,
    Kernel.spectator_pass trans_rdm12s ci_arg R hopping_index zerop_index st
    = Raise (ValueError what).
Proof.
  intros Hn Hb Hlen. unfold Kernel.spectator_pass. rewrite Hn. cbn [as_int bind].
  replace ((n <=? R)%nat || (n <? 2)%nat) with true.
  2:{ symmetry. apply orb_true_iff. destruct Hb as [Hb|Hb];
      [left; apply Nat.leb_le|right; apply Nat.ltb_lt]; exact Hb. }
  cbn [bind]. unfold Kernel.spectator_index.
  destruct (Kernel.marked R hopping_index n) as [|[a c] [|[b d] [|x rest]]];
    cbn [map fst snd for_each Kernel.unpack2 bind].
  - eexists. reflexivity.
  - eexists. reflexivity.
  - exfalso. apply Hlen. reflexivity.
  - eexists. reflexivity.
Qed.

Lemma filter_four {A} (m : A -> bool) (p00 p01 p10 p11 x y : A) :
  filter m [p00; p01; p10; p11] = [x; y] ->
  m p00 = true -> m p11 = true ->
  m p01 = false /\ m p10 = false /\ x = p00 /\ y = p11.
Proof.
  intros H H0 H1. cbn [filter] in H. rewrite H0, H1 in H.
  destruct (m p01), (m p10); try discriminate.
  inversion H. repeat split.
Qed.

End SpectatorRows.

(** X10: the loop of line 144 iterates over the two rows of
    [np.stack (np.where (mask), axis=0)], not over the marked pairs.  The
    spectator pass therefore completes only when exactly two pairs (a, c)
    and (b, d) are marked, and the densities it then requests are those of
    the pairs (a, b) and (c, d); with any other number of marked pairs the
    pass raises ValueError at the unpacking [for i, j in ...]. *)
Theorem spectator_loop_unpacks_rows
  (trans_rdm12s : nat -> Np.ndarray -> Np.ndarray -> nat -> Z * Z -> Np.ndarray * Np.ndarray)
  (ci_arg : list Np.ndarray) (R : nat) (hopping_index : nat -> nat -> nat -> Z)
  (zerop_index : nat -> nat -> bool) (self : Store.LSTDMint) (log : list (nat * nat)) :
  (forall st',
     Kernel.spectator_pass trans_rdm12s ci_arg R hopping_index zerop_index (self, log)
     = Py.Ok st' ->
     exists n a c b d,
       Store.nroots self = Store.PyInt n /\
       Kernel.marked R hopping_index n = [(a, c); (b, d)] /\
       snd st' = log ++ [(a, b); (c, d)]) /\
  (forall n,
     Store.nroots self = Store.PyInt n -> (n <= R)%nat ->
     List.length (Kernel.marked R hopping_index n) <> 2%nat ->
     exists what,
       Kernel.spectator_pass trans_rdm12s ci_arg R hopping_index zerop_index (self, log)
       = Py.Raise (Py.ValueError what)).
Proof.
  split.
  - intros st' H. exact (spectator_pass_rows _ _ _ _ _ _ _ H).
  - intros n Hn Hle Hlen.
    apply (spectator_pass_bad_rows _ _ _ _ _ (self, log) n Hn); [left; exact Hle|exact Hlen].
Qed.

Lemma spectator_loop_unpacks_rows_witness :
  exists what,
    Kernel.spectator_pass Examples.trans_rdm12s0 Examples.ci0 2
      (Hop.hopping_index Examples.idle_and_loss 0)
      (Hop.zerop_index Examples.idle_and_loss)
      (Examples.blank 1 [(1, 0); (1, 0)], [])
    = Py.Raise (Py.ValueError what).
Proof.
  destruct (spectator_loop_unpacks_rows Examples.trans_rdm12s0 Examples.ci0 2
              (Hop.hopping_index Examples.idle_and_loss 0)
              (Hop.zerop_index Examples.idle_and_loss)
              (Examples.blank 1 [(1, 0); (1, 0)]) []) as [_ H].
  apply (H 2%nat); [reflexivity|lia|vm_compute; discriminate].
Defined.

(* ------------------------------------------------------------------------- *)
(** ** The builder: when it can complete *)

Section KernelCompletes.

Import Py Np NpMore Store.

Variable trans_rdm12s :
  nat -> ndarray -> ndarray -> nat -> Z * Z -> ndarray * ndarray.
Variable des_a des_b : ndarray -> nat -> Z * Z -> nat -> ndarray.
Variable R : nat.
Variable hopping_index : nat -> nat -> nat -> Z.
Variable onep_index : nat -> nat -> bool.

Let same_log (a b : Kernel.state) : Prop := snd a = snd b.

Lemma alpha_bra_log bpl ket nelec apket bra st st' :
  Kernel.alpha_bra trans_rdm12s des_a des_b hopping_index onep_index
                   bpl ket nelec apket bra st = Ok st' ->
  snd st' = snd st.
Proof.
  unfold Kernel.alpha_bra. intros H.
  apply bind_ok in H. destruct H as [c [_ H]].
  apply bind_ok in H. destruct H as [h [_ H]].
  apply bind_ok in H. destruct H as [self1 [_ H]].
  apply bind_ok in H. destruct H as [self2 [_ H]].
  inversion H. reflexivity.
Qed.

Lemma beta_bra_log ket nelec bpvec bra st st' :
  Kernel.beta_bra trans_rdm12s des_b hopping_index onep_index
                  ket nelec bpvec bra st = Ok st' ->
  snd st' = snd st.
Proof.
  unfold Kernel.beta_bra. intros H.
  apply bind_ok in H. destruct H as [c [_ H]].
  apply bind_ok in H. destruct H as [h [_ H]].
  apply bind_ok in H. destruct H as [self1 [_ H]].
  apply bind_ok in H. destruct H as [self2 [_ H]].
  inversion H. reflexivity.
Qed.

Lemma operator_pass_log st st' :
  Kernel.operator_pass trans_rdm12s des_a des_b R hopping_index onep_index st = Ok st' ->
  snd st' = snd st.
Proof.
  unfold Kernel.operator_pass. intros H.
  apply bind_ok in H. destruct H as [bpl [_ H]].
  apply bind_ok in H. destruct H as [st1 [E1 H]].
  transitivity (snd st1).
  - revert H. apply (for_each_invariant same_log).
    + intros s. reflexivity.
    + intros a b c Hab Hbc. unfold same_log in *. congruence.
    + intros ket s s' Hk. unfold Kernel.beta_ket in Hk.
      apply bind_ok in Hk. destruct Hk as [nelec [_ Hk]].
      apply bind_ok in Hk. destruct Hk as [cached [_ Hk]].
      apply bind_ok in Hk. destruct Hk as [bpvec [_ Hk]].
      revert Hk. apply (for_each_invariant same_log).
      * intros s0. reflexivity.
      * intros a b c Hab Hbc. unfold same_log in *. congruence.
      * intros bra s0 s0'. apply beta_bra_log.
  - revert E1. apply (for_each_invariant same_log).
    + intros s. reflexivity.
    + intros a b c Hab Hbc. unfold same_log in *. congruence.
    + intros ket s s' Hk. unfold Kernel.alpha_ket in Hk.
      apply bind_ok in Hk. destruct Hk as [nelec [_ Hk]].
      apply bind_ok in Hk. destruct Hk as [apket [_ Hk]].
      revert Hk. apply (for_each_invariant same_log).
      * intros s0. reflexivity.
      * intros a b c Hab Hbc. unfold same_log in *. congruence.
      * intros bra s0 s0'. apply alpha_bra_log.
Qed.

(** Line 157 stops the pass at the first ket that a beta electron leaves. *)
Lemma operator_pass_beta_raises st :
  Kernel.hidx_ket R hopping_index 1 <> [] ->
  forall st',
    Kernel.operator_pass trans_rdm12s des_a des_b R hopping_index onep_index st
    <> Ok st'.
Proof.
  intros Hb st' H. unfold Kernel.operator_pass, Kernel.bpvec_pass in H.
  destruct (as_int (nroots (fst st))) as [n|e]; [|discriminate].
  cbn [bind] in H.
  destruct (Kernel.hidx_ket R hopping_index 1) as [|k rest]; [congruence|].
  cbn [for_each] in H. unfold Kernel.line157 in H. discriminate.
Qed.

End KernelCompletes.

Lemma diagonal_is_marked (nelec_fsr : list (list (list Z))) (f R n i : nat) :
  (i < R)%nat ->
  In (i, i) (Kernel.marked R (Hop.hopping_index nelec_fsr f) n).
Proof.
  intros Hi. unfold Kernel.marked. apply filter_In. split.
  - apply in_prod; apply in_seq; lia.
  - unfold Kernel.spectator_mask, Kernel.hop_is, Hop.hopping_index. cbn [fst snd].
    rewrite !Z.sub_diag, Nat.ltb_irrefl. reflexivity.
Qed.

(** X11: when the builder of a fragment can complete.  With the hopping
    index of [lst_hopping_index], the kernel returns only if there are
    exactly two states, the two states differ in the number of alpha
    electrons of the fragment and not in the number of its beta electrons,
    and amplitude vectors have been attached to the store as [self.ci] from
    outside; the densities requested from the solver are then those of the
    pair (0, 1), twice. *)
Theorem kernel_completes_only_for_alpha_pair
  (trans_rdm12s : nat -> Np.ndarray -> Np.ndarray -> nat -> Z * Z -> Np.ndarray * Np.ndarray)
  (des_a des_b : Np.ndarray -> nat -> Z * Z -> nat -> Np.ndarray)
  (ci_arg : list Np.ndarray) (R : nat) (nelec_fsr : list (list (list Z))) (f : nat)
  (zerop_index onep_index : nat -> nat -> bool)
  (self : Store.LSTDMint) (st : Kernel.state) :
  Kernel.kernel trans_rdm12s des_a des_b ci_arg R (Hop.hopping_index nelec_fsr f)
                zerop_index onep_index self = Py.Ok st ->
  R = 2%nat /\
  Hop.hopping_index nelec_fsr f 0 1 0 <> 0 /\
  Hop.hopping_index nelec_fsr f 1 1 0 = 0 /\
  Store.ci self <> None /\
  snd st = [(0, 1); (0, 1)]%nat.
Proof.
  intros H. unfold Kernel.kernel in H.
  apply bind_ok in H. destruct H as [st0 [Hs Ho]].
  destruct (spectator_pass_rows _ _ _ _ _ _ _ Hs) as (n & a & c & b & d & Hn & Hm & Hlog).
  cbn [fst snd app] in Hn, Hlog.
  assert (HR : R = 2%nat).
  { destruct R as [|[|[|R']]].
    - cbn in Hm. discriminate.
    - unfold Kernel.marked in Hm. cbn [seq list_prod map app filter] in Hm.
      destruct (Kernel.spectator_mask _ _ _ _) in Hm; discriminate.
    - reflexivity.
    - exfalso.
      pose proof (diagonal_is_marked nelec_fsr f (S (S (S R'))) n 0 ltac:(lia)) as H0.
      pose proof (diagonal_is_marked nelec_fsr f (S (S (S R'))) n 1 ltac:(lia)) as H1.
      pose proof (diagonal_is_marked nelec_fsr f (S (S (S R'))) n 2 ltac:(lia)) as H2.
      rewrite Hm in H0, H1, H2. cbn [In] in H0, H1, H2.
      destruct H0 as [E0|[E0|[]]]; destruct H1 as [E1|[E1|[]]];
        destruct H2 as [E2|[E2|[]]]; congruence. }
  subst R. split; [reflexivity|].
  unfold Kernel.marked in Hm. cbn [seq list_prod map app] in Hm.
  apply filter_four in Hm.
  2:{ cbn [fst snd]. unfold Kernel.spectator_mask, Kernel.hop_is, Hop.hopping_index.
      rewrite !Z.sub_diag. reflexivity. }
  2:{ cbn [fst snd]. unfold Kernel.spectator_mask, Kernel.hop_is, Hop.hopping_index.
      rewrite !Z.sub_diag. reflexivity. }
  destruct Hm as (_ & H10 & Ea & Eb). inversion Ea. inversion Eb. subst a c b d.
  cbn [fst snd] in H10. unfold Kernel.spectator_mask in H10.
  cbn [Nat.ltb Nat.leb andb negb] in H10. rewrite andb_true_r in H10.
  unfold Kernel.hop_is in H10.
  assert (Hbeta : Hop.hopping_index nelec_fsr f 1 1 0 = 0).
  { destruct (Z.eq_dec (Hop.hopping_index nelec_fsr f 1 1 0) 0) as [E|Hne]; [exact E|].
    exfalso.
    apply (operator_pass_beta_raises trans_rdm12s des_a des_b 2
             (Hop.hopping_index nelec_fsr f) onep_index st0) with (st' := st);
      [|exact Ho].
    unfold Kernel.hidx_ket, NpInt.where1. cbn [seq filter existsb].
    unfold Hop.hopping_index in *. rewrite !Z.sub_diag.
    repeat match goal with
           | |- context [?x <? 0] => destruct (Z.ltb_spec x 0)
           end; cbn; try discriminate; lia. }
  assert (Halpha : Hop.hopping_index nelec_fsr f 0 1 0 <> 0).
  { intros E. rewrite E, Hbeta in H10. discriminate. }
  split; [exact Halpha|]. split; [exact Hbeta|].
  split.
  - intros Hci.
    assert (Hci0 : Store.ci (fst st0) = None).
    { destruct (spectator_pass_attrs _ _ _ _ _ _ _ Hs) as (E & _). rewrite E. exact Hci. }
    destruct (operator_pass_raises trans_rdm12s des_a des_b 2
                (Hop.hopping_index nelec_fsr f) onep_index st0 Hci0) as [e [He _]].
    + left. unfold Kernel.hidx_ket, NpInt.where1. cbn [seq filter existsb].
      unfold Hop.hopping_index in *. rewrite !Z.sub_diag.
      repeat match goal with
             | |- context [?x <? 0] => destruct (Z.ltb_spec x 0)
             end; cbn; try discriminate; lia.
    + rewrite He in Ho. discriminate.
  - rewrite (operator_pass_log _ _ _ _ _ _ _ _ Ho). exact Hlog.
Qed.

Lemma kernel_completes_only_for_alpha_pair_witness :
  exists st,
    Kernel.kernel Examples.trans_rdm12s0 Examples.des_scale Examples.des_scale
                  [Np.of_list [Examples.one]; Np.of_list [Examples.one]] 2
                  (Hop.hopping_index Examples.pair_loss 0)
                  (Hop.zerop_index Examples.pair_loss)
                  (Hop.onep_index Examples.pair_loss)
                  Examples.attached = Py.Ok st /\
    snd st = [(0, 1); (0, 1)]%nat.
Proof.
  destruct (Kernel.kernel Examples.trans_rdm12s0 Examples.des_scale Examples.des_scale
                  [Np.of_list [Examples.one]; Np.of_list [Examples.one]] 2
                  (Hop.hopping_index Examples.pair_loss 0)
                  (Hop.zerop_index Examples.pair_loss)
                  (Hop.onep_index Examples.pair_loss)
                  Examples.attached) as [st|e] eqn:Hk; [|vm_compute in Hk; discriminate].
  exists st. split; [reflexivity|].
  destruct (kernel_completes_only_for_alpha_pair _ _ _ _ _ _ _ _ _ _ _ Hk)
    as (_ & _ & _ & _ & Hlog).
  exact Hlog.
Defined.

(* ------------------------------------------------------------------------- *)
(** ** The builder: which slots the operator steps write *)

Section OperatorFrame.

Import Py Np NpMore Store.

Lemma for_each_invariant_in {X S} (P : S -> S -> Prop)
      (body : X -> S -> result S) (xs : list X) :
  (forall s, P s s) ->
  (forall a b c, P a b -> P b c -> P a c) ->
  (forall x s s', In x xs -> body x s = Ok s' -> P s' s) ->
  forall s s', for_each xs body s = Ok s' -> P s' s.
Proof.
  intros Hrefl Htrans. induction xs as [|x xs IH]; intros Hbody s s' H; simpl in H.
  - inversion H. apply Hrefl.
  - apply bind_ok in H. destruct H as [s1 [E H]].
    apply (Htrans _ s1).
    + apply IH; [|exact H]. intros y t t' Hy. apply Hbody. right. exact Hy.
    + apply (Hbody x); [left; reflexivity|exact E].
Qed.

Variable trans_rdm12s :
  nat -> ndarray -> ndarray -> nat -> Z * Z -> ndarray * ndarray.
Variable des_a des_b : ndarray -> nat -> Z * Z -> nat -> ndarray.
Variable R : nat.
Variable hopping_index : nat -> nat -> nat -> Z.
Variable onep_index : nat -> nat -> bool.

Let hop_is := Kernel.hop_is hopping_index.

(** The slots an operator step may write. *)
Let Wh (s i j : nat) : Prop := (s < 2)%nat /\ hopping_index s i j < 0.
Let Whh (s i j : nat) : Prop :=
  (s = 0%nat /\ hop_is i j (-2) 0 = true) \/
  (s = 1%nat /\ hop_is i j (-1) (-1) = true) \/
  (s = 2%nat /\ hop_is i j 0 (-2) = true).
Let Wphh (s i j : nat) : Prop :=
  onep_index i j = true /\
  ((s = 0%nat /\ hop_is i j (-1) 0 = true) \/
   (s = 1%nat /\ hop_is i j 0 (-1) = true)).
Let Wsm (i j : nat) : Prop := hop_is i j (-1) 1 = true.

Let frame (a b : LSTDMint) : Prop :=
  (forall s i j, ~ Wh s i j -> get_h a i j s = get_h b i j s) /\
  (forall s i j, ~ Whh s i j -> get_hh a i j s = get_hh b i j s) /\
  (forall s i j, ~ Wphh s i j -> get_phh a i j s = get_phh b i j s) /\
  (forall i j, ~ Wsm i j -> get_sm a i j = get_sm b i j) /\
  dm1 a = dm1 b /\ dm2 a = dm2 b.

Let st_frame (a b : Kernel.state) : Prop := frame (fst a) (fst b).

Lemma frame_refl a : frame a a.
Proof. repeat split. Qed.

Lemma frame_trans a b c : frame a b -> frame b c -> frame a c.
Proof.
  intros (A1 & A2 & A3 & A4 & A5 & A6) (B1 & B2 & B3 & B4 & B5 & B6).
  repeat split; try congruence.
  - intros s i j W. rewrite (A1 _ _ _ W). apply B1. exact W.
  - intros s i j W. rewrite (A2 _ _ _ W). apply B2. exact W.
  - intros s i j W. rewrite (A3 _ _ _ W). apply B3. exact W.
  - intros i j W. rewrite (A4 _ _ W). apply B4. exact W.
Qed.

Lemma set_h_frame self self' i j s x :
  Wh s i j -> set_h self i j s x = Ok self' -> frame self' self.
Proof.
  intros W H. unfold set_h in H. apply bind_ok in H. destruct H as [t [Ht H]].
  inversion H. subst. clear H. repeat split.
  intros s' i' j' W'. unfold get_h. cbn.
  apply (get3_set3_other _ _ _ _ _ _ _ _ _ Ht). intros E. inversion E. subst.
  apply W'. exact W.
Qed.

Lemma set_hh_frame self self' i j s x :
  Whh s i j -> set_hh self i j s x = Ok self' -> frame self' self.
Proof.
  intros W H. unfold set_hh in H. apply bind_ok in H. destruct H as [t [Ht H]].
  inversion H. subst. clear H. repeat split.
  intros s' i' j' W'. unfold get_hh. cbn.
  apply (get3_set3_other _ _ _ _ _ _ _ _ _ Ht). intros E. inversion E. subst.
  apply W'. exact W.
Qed.

Lemma set_phh_frame self self' i j s x :
  Wphh s i j -> set_phh self i j s x = Ok self' -> frame self' self.
Proof.
  intros W H. unfold set_phh in H. apply bind_ok in H. destruct H as [t [Ht H]].
  inversion H. subst. clear H. repeat split.
  intros s' i' j' W'. unfold get_phh. cbn.
  apply (get3_set3_other _ _ _ _ _ _ _ _ _ Ht). intros E. inversion E. subst.
  apply W'. exact W.
Qed.

Lemma set_sm_frame self self' i j x :
  Wsm i j -> set_sm self i j x = Ok self' -> frame self' self.
Proof.
  intros W H. unfold set_sm in H. apply bind_ok in H. destruct H as [t [Ht H]].
  inversion H. subst. clear H. repeat split.
  intros i' j' W'. unfold get_sm. cbn.
  apply (get2_set2_other _ _ _ _ _ _ _ Ht). intros E. inversion E. subst.
  apply W'. exact W.
Qed.

Lemma bras_of_hop s ket bra :
  In bra (Kernel.bras_of R hopping_index s ket) -> hopping_index s bra ket < 0.
Proof.
  unfold Kernel.bras_of, NpInt.where1. intros H. apply filter_In in H.
  destruct H as [_ H]. apply Z.ltb_lt. exact H.
Qed.

Lemma alpha_bra_frame bpl ket nelec apket bra st st' :
  hopping_index 0%nat bra ket < 0 ->
  Kernel.alpha_bra trans_rdm12s des_a des_b hopping_index onep_index
                   bpl ket nelec apket bra st = Ok st' ->
  frame (fst st') (fst st).
Proof.
  intros Hneg H. unfold Kernel.alpha_bra in H.
  apply bind_ok in H. destruct H as [c [Ec H]].
  apply bind_ok in H. destruct H as [h [Eh H]].
  apply bind_ok in H. destruct H as [self1 [E1 H]].
  apply bind_ok in H. destruct H as [self2 [E2 H]].
  inversion H. subst. clear H. cbn [fst].
  apply (frame_trans _ self1).
  2:{ apply (set_h_frame _ _ _ _ _ _ (Logic.conj Nat.lt_0_2 Hneg) E1). }
  fold hop_is in E2.
  destruct (hop_is bra ket (-1) 0 && onep_index bra ket) eqn:C1.
  { apply andb_prop in C1. destruct C1 as [C1 C1'].
    apply bind_ok in E2. destruct E2 as [phh [_ E2]].
    apply (set_phh_frame _ _ bra ket 0%nat phh); [|exact E2].
    split; [exact C1'|]. left. split; [reflexivity|exact C1]. }
  destruct (hop_is bra ket (-1) 1) eqn:C2.
  { apply bind_ok in E2. destruct E2 as [cached [_ E2]].
    apply bind_ok in E2. destruct E2 as [bqbra [_ E2]].
    apply bind_ok in E2. destruct E2 as [rows [_ E2]].
    apply (set_sm_frame _ _ bra ket _ C2 E2). }
  destruct (hop_is bra ket (-1) (-1)) eqn:C3.
  { apply bind_ok in E2. destruct E2 as [rows [_ E2]].
    eapply (set_hh_frame _ _ bra ket 1%nat); [|exact E2].
    right. left. split; [reflexivity|exact C3]. }
  destruct (hop_is bra ket (-2) 0) eqn:C4.
  { apply bind_ok in E2. destruct E2 as [hh [_ E2]].
    eapply (set_hh_frame _ _ bra ket 0%nat); [|exact E2].
    left. split; [reflexivity|exact C4]. }
  inversion E2. apply frame_refl.
Qed.

Lemma beta_bra_frame ket nelec bpvec bra st st' :
  hopping_index 1%nat bra ket < 0 ->
  Kernel.beta_bra trans_rdm12s des_b hopping_index onep_index
                  ket nelec bpvec bra st = Ok st' ->
  frame (fst st') (fst st).
Proof.
  intros Hneg H. unfold Kernel.beta_bra in H.
  apply bind_ok in H. destruct H as [c [Ec H]].
  apply bind_ok in H. destruct H as [h [Eh H]].
  apply bind_ok in H. destruct H as [self1 [E1 H]].
  apply bind_ok in H. destruct H as [self2 [E2 H]].
  inversion H. subst. clear H. cbn [fst].
  apply (frame_trans _ self1).
  2:{ apply (set_h_frame _ _ _ _ _ _ (Logic.conj Nat.lt_1_2 Hneg) E1). }
  fold hop_is in E2.
  destruct (hop_is bra ket 0 (-1) && onep_index bra ket) eqn:C1.
  { apply andb_prop in C1. destruct C1 as [C1 C1'].
    apply bind_ok in E2. destruct E2 as [phh [_ E2]].
    apply (set_phh_frame _ _ bra ket 1%nat phh); [|exact E2].
    split; [exact C1'|]. right. split; [reflexivity|exact C1]. }
  destruct (hop_is bra ket 0 (-2)) eqn:C2.
  { apply bind_ok in E2. destruct E2 as [hh [_ E2]].
    eapply (set_hh_frame _ _ bra ket 2%nat); [|exact E2].
    right. right. split; [reflexivity|exact C2]. }
  inversion E2. apply frame_refl.
Qed.

Lemma operator_pass_frame st st' :
  Kernel.operator_pass trans_rdm12s des_a des_b R hopping_index onep_index st = Ok st' ->
  frame (fst st') (fst st).
Proof.
  unfold Kernel.operator_pass. intros H.
  apply bind_ok in H. destruct H as [bpl [_ H]].
  apply bind_ok in H. destruct H as [st1 [E1 H]].
  apply (frame_trans _ (fst st1)).
  - revert H. apply (for_each_invariant st_frame).
    + intros s. apply frame_refl.
    + intros a b c. apply frame_trans.
    + intros ket s s' Hk. unfold Kernel.beta_ket in Hk.
      apply bind_ok in Hk. destruct Hk as [nelec [_ Hk]].
      apply bind_ok in Hk. destruct Hk as [cached [_ Hk]].
      apply bind_ok in Hk. destruct Hk as [bpvec [_ Hk]].
      revert Hk. apply (for_each_invariant_in st_frame).
      * intros s0. apply frame_refl.
      * intros a b c. apply frame_trans.
      * intros bra s0 s0' Hin. apply beta_bra_frame.
        apply (bras_of_hop _ _ _ Hin).
  - revert E1. apply (for_each_invariant st_frame).
    + intros s. apply frame_refl.
    + intros a b c. apply frame_trans.
    + intros ket s s' Hk. unfold Kernel.alpha_ket in Hk.
      apply bind_ok in Hk. destruct Hk as [nelec [_ Hk]].
      apply bind_ok in Hk. destruct Hk as [apket [_ Hk]].
      revert Hk. apply (for_each_invariant_in st_frame).
      * intros s0. apply frame_refl.
      * intros a b c. apply frame_trans.
      * intros bra s0 s0' Hin. apply alpha_bra_frame.
        apply (bras_of_hop _ _ _ Hin).
Qed.

Lemma operator_pass_frame_explicit st st' :
  Kernel.operator_pass trans_rdm12s des_a des_b R hopping_index onep_index st = Ok st' ->
  (forall s i j, ~ ((s < 2)%nat /\ hopping_index s i j < 0) ->
                 get_h (fst st') i j s = get_h (fst st) i j s) /\
  (forall s i j,
      ~ ((s = 0%nat /\ Kernel.hop_is hopping_index i j (-2) 0 = true) \/
         (s = 1%nat /\ Kernel.hop_is hopping_index i j (-1) (-1) = true) \/
         (s = 2%nat /\ Kernel.hop_is hopping_index i j 0 (-2) = true)) ->
      get_hh (fst st') i j s = get_hh (fst st) i j s) /\
  (forall s i j,
      ~ (onep_index i j = true /\
         ((s = 0%nat /\ Kernel.hop_is hopping_index i j (-1) 0 = true) \/
          (s = 1%nat /\ Kernel.hop_is hopping_index i j 0 (-1) = true))) ->
      get_phh (fst st') i j s = get_phh (fst st) i j s) /\
  (forall i j, Kernel.hop_is hopping_index i j (-1) 1 <> true ->
               get_sm (fst st') i j = get_sm (fst st) i j) /\
  dm1 (fst st') = dm1 (fst st) /\ dm2 (fst st') = dm2 (fst st).
Proof. intros H. exact (operator_pass_frame _ _ H). Qed.

End OperatorFrame.

Section SpectatorFrame.

Import Py Np NpMore Store.

Variable trans_rdm12s :
  nat -> ndarray -> ndarray -> nat -> Z * Z -> ndarray * ndarray.
Variable ci_arg : list ndarray.
Variable R : nat.
Variable hopping_index : nat -> nat -> nat -> Z.
Variable zerop_index : nat -> nat -> bool.

Let same_amplitudes (a b : LSTDMint) : Prop :=
  _h a = _h b /\ _hh a = _hh b /\ _phh a = _phh b /\ _sm a = _sm b.

Let st_same (a b : Kernel.state) : Prop := same_amplitudes (fst a) (fst b).

Lemma set_dm1_amplitudes self self' i j x :
  set_dm1 self i j x = Ok self' -> same_amplitudes self' self.
Proof.
  unfold set_dm1. destruct (i <? j)%nat; intros H.
  - apply bind_ok in H. destruct H as [xt [_ H]].
    apply bind_ok in H. destruct H as [t [_ H]]. inversion H. repeat split.
  - apply bind_ok in H. destruct H as [t [_ H]]. inversion H. repeat split.
Qed.

Lemma set_dm2_amplitudes self self' i j x :
  set_dm2 self i j x = Ok self' -> same_amplitudes self' self.
Proof.
  unfold set_dm2. destruct (i <? j)%nat; intros H.
  - apply bind_ok in H. destruct H as [xt [_ H]].
    apply bind_ok in H. destruct H as [t [_ H]]. inversion H. repeat split.
  - apply bind_ok in H. destruct H as [t [_ H]]. inversion H. repeat split.
Qed.

Lemma same_amplitudes_trans a b c :
  same_amplitudes a b -> same_amplitudes b c -> same_amplitudes a c.
Proof.
  intros (A1 & A2 & A3 & A4) (B1 & B2 & B3 & B4). repeat split; congruence.
Qed.

Lemma spectator_pass_amplitudes st st' :
  Kernel.spectator_pass trans_rdm12s ci_arg R hopping_index zerop_index st = Ok st' ->
  _h (fst st') = _h (fst st) /\ _hh (fst st') = _hh (fst st) /\
  _phh (fst st') = _phh (fst st) /\ _sm (fst st') = _sm (fst st).
Proof.
  unfold Kernel.spectator_pass. intros H.
  apply bind_ok in H. destruct H as [n [_ H]].
  apply bind_ok in H. destruct H as [u [_ H]].
  revert H. apply (for_each_invariant st_same).
  - intros s. repeat split.
  - intros a b c. apply same_amplitudes_trans.
  - intros row s s' Hb. apply bind_ok in Hb. destruct Hb as [ij [_ Hb]].
    unfold Kernel.spectator_body in Hb.
    apply bind_ok in Hb. destruct Hb as [nelec [_ Hb]].
    apply bind_ok in Hb. destruct Hb as [ci_i [_ Hb]].
    apply bind_ok in Hb. destruct Hb as [ci_j [_ Hb]].
    apply bind_ok in Hb. destruct Hb as [self1 [H1 Hb]].
    apply bind_ok in Hb. destruct Hb as [self2 [H2 Hb]].
    inversion Hb. subst. clear Hb. unfold st_same. cbn [fst].
    apply (same_amplitudes_trans _ self1); [|apply (set_dm1_amplitudes _ _ _ _ _ H1)].
    destruct (zerop_index (fst ij) (snd ij)).
    + apply (set_dm2_amplitudes _ _ _ _ _ H2).
    + inversion H2. repeat split.
Qed.

End SpectatorFrame.

(** X12: which amplitudes a run of the builder can have written.  When the
    kernel returns, a slot of a table reads as before the call unless the
    hop of the pair in this fragment selects it: the 1-operator amplitude
    of spin s only where an electron of spin s is lost (hop < 0), the
    2-operator amplitude only for the hop vectors (-2,0), (-1,-1) and (0,-2)
    in the channels 0, 1 and 2, the 3-operator amplitude only for the
    one-electron pairs with hop vector (-1,0) or (0,-1), and the spin-flip
    amplitude only for the hop vector (-1,1).  The operator steps leave the
    two density tables alone. *)
Theorem kernel_writes_amplitudes_by_hop
  (trans_rdm12s : nat -> Np.ndarray -> Np.ndarray -> nat -> Z * Z -> Np.ndarray * Np.ndarray)
  (des_a des_b : Np.ndarray -> nat -> Z * Z -> nat -> Np.ndarray)
  (ci_arg : list Np.ndarray) (R : nat) (hopping_index : nat -> nat -> nat -> Z)
  (zerop_index onep_index : nat -> nat -> bool) (self : Store.LSTDMint) :
  (forall st,
     Kernel.kernel trans_rdm12s des_a des_b ci_arg R hopping_index
                   zerop_index onep_index self = Py.Ok st ->
     (forall s i j, ~ ((s < 2)%nat /\ hopping_index s i j < 0) ->
                    Store.get_h (fst st) i j s = Store.get_h self i j s) /\
     (forall s i j,
         ~ ((s = 0%nat /\ Kernel.hop_is hopping_index i j (-2) 0 = true) \/
            (s = 1%nat /\ Kernel.hop_is hopping_index i j (-1) (-1) = true) \/
            (s = 2%nat /\ Kernel.hop_is hopping_index i j 0 (-2) = true)) ->
         Store.get_hh (fst st) i j s = Store.get_hh self i j s) /\
     (forall s i j,
         ~ (onep_index i j = true /\
            ((s = 0%nat /\ Kernel.hop_is hopping_index i j (-1) 0 = true) \/
             (s = 1%nat /\ Kernel.hop_is hopping_index i j 0 (-1) = true))) ->
         Store.get_phh (fst st) i j s = Store.get_phh self i j s) /\
     (forall i j, Kernel.hop_is hopping_index i j (-1) 1 <> true ->
                  Store.get_sm (fst st) i j = Store.get_sm self i j)) /\
  (forall st0 st,
     Kernel.operator_pass trans_rdm12s des_a des_b R hopping_index onep_index st0
     = Py.Ok st ->
     Store.dm1 (fst st) = Store.dm1 (fst st0) /\
     Store.dm2 (fst st) = Store.dm2 (fst st0)).
Proof.
  split.
  - intros st H. unfold Kernel.kernel in H.
    apply bind_ok in H. destruct H as [st0 [Hs Ho]].
    destruct (spectator_pass_amplitudes _ _ _ _ _ _ _ Hs) as (A1 & A2 & A3 & A4).
    cbn [fst] in A1, A2, A3, A4.
    destruct (operator_pass_frame_explicit _ _ _ _ _ _ _ _ Ho)
      as (F1 & F2 & F3 & F4 & _).
    repeat split.
    + intros s i j W. rewrite (F1 s i j W). unfold Store.get_h. rewrite A1. reflexivity.
    + intros s i j W. rewrite (F2 s i j W). unfold Store.get_hh. rewrite A2. reflexivity.
    + intros s i j W. rewrite (F3 s i j W). unfold Store.get_phh. rewrite A3. reflexivity.
    + intros i j W. rewrite (F4 i j W). unfold Store.get_sm. rewrite A4. reflexivity.
  - intros st0 st Ho.
    destruct (operator_pass_frame_explicit _ _ _ _ _ _ _ _ Ho)
      as (_ & _ & _ & _ & D1 & D2).
    split; assumption.
Qed.

Lemma kernel_writes_amplitudes_by_hop_witness :
  exists st,
    Kernel.kernel Examples.trans_rdm12s0 Examples.des_scale Examples.des_scale
                  [Np.of_list [Examples.one]; Np.of_list [Examples.one]] 2
                  (Hop.hopping_index Examples.pair_loss 0)
                  (Hop.zerop_index Examples.pair_loss)
                  (Hop.onep_index Examples.pair_loss)
                  Examples.attached = Py.Ok st /\
    Store.get_hh (fst st) 1 0 0 = Py.Ok None /\
    Store.get_h (fst st) 1 0 0 = Py.Ok None.
Proof.
  destruct (Kernel.kernel Examples.trans_rdm12s0 Examples.des_scale Examples.des_scale
                  [Np.of_list [Examples.one]; Np.of_list [Examples.one]] 2
                  (Hop.hopping_index Examples.pair_loss 0)
                  (Hop.zerop_index Examples.pair_loss)
                  (Hop.onep_index Examples.pair_loss)
                  Examples.attached) as [st|e] eqn:Hk; [|vm_compute in Hk; discriminate].
  exists st. split; [reflexivity|].
  destruct (kernel_writes_amplitudes_by_hop
              Examples.trans_rdm12s0 Examples.des_scale Examples.des_scale
              [Np.of_list [Examples.one]; Np.of_list [Examples.one]] 2
              (Hop.hopping_index Examples.pair_loss 0)
              (Hop.zerop_index Examples.pair_loss)
              (Hop.onep_index Examples.pair_loss)
              Examples.attached) as [H _].
  destruct (H st Hk) as (F1 & F2 & _).
  split.
  - rewrite F2; [reflexivity|]. vm_compute. intros [[_ E]|[[E _]|[E _]]]; discriminate.
  - rewrite F1; [reflexivity|]. vm_compute. intros [_ E]. discriminate.
Defined.

(* ------------------------------------------------------------------------- *)
(** ** The assembly rules write the block of their own pair *)

Section Locality.

Import Py Np Assembly.

Lemma setitem_shape (a : ndarray) (idxs : list index) (v a' : ndarray) :
  setitem a idxs v = Ok a' -> shape a' = shape a.
Proof.
  unfold setitem. intros H. apply bind_ok in H. destruct H as [sel [_ H]].
  cbv zeta in H.
  destruct (strip_ones _ _) as [sv|]; [|discriminate].
  destruct (bc_ok _ sv); [|discriminate].
  inversion H. reflexivity.
Qed.

Lemma select_pair (sh : list nat) (b k : nat) (rest : list index)
      (sel : list (nat * option nat)) :
  select sh (Int b :: Int k :: rest) = Ok sel ->
  exists sel', sel = (b, None) :: (k, None) :: sel'.
Proof.
  destruct sh as [|n1 [|n2 sh]]; cbn [select]; try discriminate.
  - destruct (b <? n1)%nat; discriminate.
  - destruct (b <? n1)%nat; [|discriminate].
    destruct (k <? n2)%nat; [|discriminate].
    cbn [bind]. intros H.
    apply bind_ok in H. destruct H as [r1 [H1 H]].
    apply bind_ok in H1. destruct H1 as [r2 [_ H1]].
    inversion H1. subst r1. inversion H. exists r2. reflexivity.
Qed.

Lemma rel_index_outside (b k : nat) (sel' : list (nat * option nat)) (idx : list nat) :
  (forall rest, idx <> b :: k :: rest) ->
  rel_index ((b, None) :: (k, None) :: sel') idx = None.
Proof.
  intros H. destruct idx as [|i [|j idx]]; cbn [rel_index]; try reflexivity.
  - destruct (i =? b)%nat; reflexivity.
  - destruct (Nat.eqb_spec i b) as [->|_]; [|reflexivity].
    destruct (Nat.eqb_spec j k) as [->|_]; [|reflexivity].
    exfalso. apply (H idx). reflexivity.
Qed.

Lemma setitem_outside (a : ndarray) (b k : nat) (rest : list index) (v a' : ndarray)
      (idx : list nat) :
  setitem a (Int b :: Int k :: rest) v = Ok a' ->
  (forall tl, idx <> b :: k :: tl) ->
  item a' idx = item a idx.
Proof.
  unfold setitem. intros H Hout. apply bind_ok in H. destruct H as [sel [Hs H]].
  cbv zeta in H.
  destruct (select_pair _ _ _ _ _ Hs) as [sel' ->].
  destruct (strip_ones _ _) as [sv|]; [|discriminate].
  destruct (bc_ok _ sv); [|discriminate].
  injection H as <-. cbn [item].
  pose proof (rel_index_outside b k sel' idx Hout) as E.
  cbn [rel_index] in E. rewrite E. reflexivity.
Qed.

Variable bra ket : nat.

Lemma local_ret {A} (a : A) : local_to bra ket (ret a).
Proof. intros st. repeat split. Qed.

Lemma local_lift {A} (c : result A) : local_to bra ket (lift c).
Proof. intros st. repeat split. Qed.

Lemma local_read_tdm1s : local_to bra ket read_tdm1s.
Proof. intros st. repeat split. Qed.

Lemma local_read_tdm2s : local_to bra ket read_tdm2s.
Proof. intros st. repeat split. Qed.

Lemma local_write_tdm1s (rest : list index) (v : ndarray) :
  local_to bra ket (write_tdm1s (Int bra :: Int ket :: rest) v).
Proof.
  intros st. unfold write_tdm1s.
  destruct (setitem (fst st) _ v) as [t|e] eqn:E; cbn [fst snd].
  - split; [exact (setitem_shape _ _ _ _ E)|]. split; [reflexivity|].
    intros idx Hout. split; [|reflexivity].
    exact (setitem_outside _ _ _ _ _ _ _ E Hout).
  - repeat split.
Qed.

Lemma local_write_tdm2s (rest : list index) (v : ndarray) :
  local_to bra ket (write_tdm2s (Int bra :: Int ket :: rest) v).
Proof.
  intros st. unfold write_tdm2s.
  destruct (setitem (snd st) _ v) as [t|e] eqn:E; cbn [fst snd].
  - split; [reflexivity|]. split; [exact (setitem_shape _ _ _ _ E)|].
    intros idx Hout. split; [reflexivity|].
    exact (setitem_outside _ _ _ _ _ _ _ E Hout).
  - repeat split.
Qed.

Lemma local_bind {A B} (c : M A) (k : A -> M B) :
  local_to bra ket c -> (forall a, local_to bra ket (k a)) ->
  local_to bra ket (bindM c k).
Proof.
  intros Hc Hk st. unfold bindM. specialize (Hc st).
  destruct (c st) as [st' [a|e]]; cbn [fst snd] in *.
  - destruct Hc as (S1 & S2 & I). destruct (Hk a st') as (T1 & T2 & J).
    split; [congruence|]. split; [congruence|].
    intros idx Hout. destruct (I idx Hout) as [I1 I2].
    destruct (J idx Hout) as [J1 J2]. split; congruence.
  - exact Hc.
Qed.

Lemma local_for_each {X} (xs : list X) (body : X -> M unit) :
  (forall x, local_to bra ket (body x)) -> local_to bra ket (for_eachM xs body).
Proof.
  intros Hb. induction xs as [|x xs IH]; simpl.
  - apply local_ret.
  - apply local_bind; [apply Hb|intros _; exact IH].
Qed.

Lemma keeps1_ret {A} (a : A) : keeps_tdm1s (ret a).
Proof. intros st. reflexivity. Qed.

Lemma keeps1_lift {A} (c : result A) : keeps_tdm1s (lift c).
Proof. intros st. reflexivity. Qed.

Lemma keeps1_read_tdm2s : keeps_tdm1s read_tdm2s.
Proof. intros st. reflexivity. Qed.

Lemma keeps1_write_tdm2s (idxs : list index) (v : ndarray) :
  keeps_tdm1s (write_tdm2s idxs v).
Proof.
  intros st. unfold write_tdm2s.
  destruct (setitem (snd st) idxs v); reflexivity.
Qed.

Lemma keeps1_bind {A B} (c : M A) (k : A -> M B) :
  keeps_tdm1s c -> (forall a, keeps_tdm1s (k a)) -> keeps_tdm1s (bindM c k).
Proof.
  intros Hc Hk st. unfold bindM. specialize (Hc st).
  destruct (c st) as [st' [a|e]]; simpl in *.
  - rewrite Hk. exact Hc.
  - exact Hc.
Qed.

Ltac local_step :=
  first
    [ apply local_lift
    | apply local_read_tdm1s
    | apply local_read_tdm2s
    | apply local_write_tdm1s
    | apply local_write_tdm2s
    | apply local_ret
    | apply local_bind; [|intros ?]
    | apply local_for_each; intros ?
    | match goal with
      | |- local_to _ _ (if ?c then _ else _) => destruct c
      end
    | progress cbv zeta ].

Ltac keeps1_step :=
  first
    [ apply keeps1_lift
    | apply keeps1_read_tdm2s
    | apply keeps1_write_tdm2s
    | apply keeps1_ret
    | apply keeps1_bind; [|intros ?]
    | match goal with
      | |- keeps_tdm1s (if ?c then _ else _) => destruct c
      end
    | progress cbv zeta ].

Variable nelec_fsr : list (list (list Z)).
Variable nroots : nat.
Variable nlas : list nat.
Variable ints : list Store.LSTDMint.
Variable format_amax : ndarray -> string.

Lemma crunch_1e_local s1 :
  local_to bra ket (crunch_1e_rule nelec_fsr nroots nlas ints bra ket s1).
Proof. unfold crunch_1e_rule, crunch_1e_tdm2. repeat local_step. Qed.

Lemma crunch_pair_hop_local s2lt :
  local_to bra ket (crunch_pair_hop_rule nelec_fsr nroots nlas ints format_amax bra ket s2lt).
Proof. unfold crunch_pair_hop_rule. repeat local_step. Qed.

Lemma crunch_pair_split_local s2lt :
  local_to bra ket
           (crunch_pair_split_rule nelec_fsr nroots nlas ints format_amax bra ket s2lt).
Proof. unfold crunch_pair_split_rule. repeat local_step. Qed.

Lemma crunch_2e_local s2lt :
  local_to bra ket (crunch_2e_rule nelec_fsr nroots nlas ints bra ket s2lt).
Proof. unfold crunch_2e_rule. repeat local_step. Qed.

Lemma crunch_pair_hop_keeps1 s2lt :
  keeps_tdm1s (crunch_pair_hop_rule nelec_fsr nroots nlas ints format_amax bra ket s2lt).
Proof. unfold crunch_pair_hop_rule. repeat keeps1_step. Qed.

Lemma crunch_pair_split_keeps1 s2lt :
  keeps_tdm1s (crunch_pair_split_rule nelec_fsr nroots nlas ints format_amax bra ket s2lt).
Proof. unfold crunch_pair_split_rule. repeat keeps1_step. Qed.

Lemma crunch_2e_keeps1 s2lt :
  keeps_tdm1s (crunch_2e_rule nelec_fsr nroots nlas ints bra ket s2lt).
Proof. unfold crunch_2e_rule. repeat keeps1_step. Qed.

End Locality.

(** X13: an assembly rule changes nothing outside the block of its own state
    pair, whether it returns or raises on the way.  After [_crunch_1e],
    [_crunch_pair_hop], [_crunch_pair_split] or [_crunch_2e] for the pair
    (bra, ket), both tensors have the shape they had and every element whose
    first two indices are not (bra, ket) has the value it had; the three
    two-electron rules leave the 1-body tensor entirely as it was. *)
Theorem rules_write_their_own_block
  (nelec_fsr : list (list (list Z))) (nroots : nat) (nlas : list nat)
  (ints : list Store.LSTDMint) (format_amax : Np.ndarray -> string)
  (bra ket s : nat) (st : Assembly.arrays) (idx : list nat) :
  (forall rest, idx <> bra :: ket :: rest) ->
  let r1 := Assembly.crunch_1e_rule nelec_fsr nroots nlas ints bra ket s st in
  let r2 := Assembly.crunch_pair_hop_rule nelec_fsr nroots nlas ints format_amax
                                          bra ket s st in
  let r3 := Assembly.crunch_pair_split_rule nelec_fsr nroots nlas ints format_amax
                                            bra ket s st in
  let r4 := Assembly.crunch_2e_rule nelec_fsr nroots nlas ints bra ket s st in
  (Np.shape (fst (fst r1)) = Np.shape (fst st) /\
   Np.item (fst (fst r1)) idx = Np.item (fst st) idx /\
   snd (fst r1) = snd st) /\
  (fst (fst r2) = fst st /\
   Np.shape (snd (fst r2)) = Np.shape (snd st) /\
   Np.item (snd (fst r2)) idx = Np.item (snd st) idx) /\
  (fst (fst r3) = fst st /\
   Np.shape (snd (fst r3)) = Np.shape (snd st) /\
   Np.item (snd (fst r3)) idx = Np.item (snd st) idx) /\
  (fst (fst r4) = fst st /\
   Np.shape (snd (fst r4)) = Np.shape (snd st) /\
   Np.item (snd (fst r4)) idx = Np.item (snd st) idx).
Proof.
  intros Hout. cbv zeta.
  destruct (crunch_1e_local bra ket nelec_fsr nroots nlas ints s st) as (A1 & _ & A3).
  destruct (crunch_pair_hop_local bra ket nelec_fsr nroots nlas ints format_amax s st)
    as (_ & B2 & B3).
  destruct (crunch_pair_split_local bra ket nelec_fsr nroots nlas ints format_amax s st)
    as (_ & C2 & C3).
  destruct (crunch_2e_local bra ket nelec_fsr nroots nlas ints s st) as (_ & D2 & D3).
  repeat split.
  - exact A1.
  - exact (proj1 (A3 idx Hout)).
  - apply crunch_1e_rule_keeps.
  - apply crunch_pair_hop_keeps1.
  - exact B2.
  - exact (proj2 (B3 idx Hout)).
  - apply crunch_pair_split_keeps1.
  - exact C2.
  - exact (proj2 (C3 idx Hout)).
  - apply crunch_2e_keeps1.
  - exact D2.
  - exact (proj2 (D3 idx Hout)).
Qed.

Lemma rules_write_their_own_block_witness :
  Np.item (fst (fst (Assembly.crunch_1e_rule Examples.one_hop 2 [1; 1]%nat
                       [Examples.frag0; Examples.frag1] 0 1 0
                       (Examples.tdm1s0, Examples.tdm2s0))))
          [1; 0; 0; 0; 0]%nat
  = Cx.zero.
Proof.
  destruct (rules_write_their_own_block Examples.one_hop 2 [1; 1]%nat
              [Examples.frag0; Examples.frag1] Examples.format0 0 1 0
              (Examples.tdm1s0, Examples.tdm2s0) [1; 0; 0; 0; 0]%nat)
    as ((_ & H & _) & _).
  - intros rest E. discriminate.
  - exact H.
Defined.

(* ------------------------------------------------------------------------- *)
(** ** The four-fragment rule *)

Section Fails.

Import Py Np Assembly.

(** A computation that raises on every input. *)
Let fails {A} (c : M A) : Prop := forall st, exists e, snd (c st) = Raise e.

Lemma fails_raise {A} (e : exn) : fails (lift (A := A) (Raise e)).
Proof. intros st. exists e. reflexivity. Qed.

Lemma fails_bind_left {A B} (c : M A) (k : A -> M B) :
  fails c -> fails (bindM c k).
Proof.
  intros Hc st. unfold bindM. destruct (Hc st) as [e He].
  destruct (c st) as [st' [a|e']]; cbn [snd] in *; [discriminate|].
  exists e'. reflexivity.
Qed.

Lemma fails_bind_right {A B} (c : M A) (k : A -> M B) :
  (forall a, fails (k a)) -> fails (bindM c k).
Proof.
  intros Hk st. unfold bindM.
  destruct (c st) as [st' [a|e']]; cbn [snd].
  - apply Hk.
  - exists e'. reflexivity.
Qed.

Lemma crunch_2e_fails nelec_fsr nroots nlas ints bra ket s2lt st :
  exists e, snd (crunch_2e_rule nelec_fsr nroots nlas ints bra ket s2lt st) = Raise e.
Proof.
  revert st. change (fails (crunch_2e_rule nelec_fsr nroots nlas ints bra ket s2lt)).
  unfold crunch_2e_rule.
  repeat first
    [ apply fails_bind_left; apply fails_raise
    | apply fails_bind_right; intros ?
    | progress cbv zeta ].
Qed.

End Fails.

(** X14: the four-fragment rule [_crunch_2e] never returns.  For every input
    it raises: line 392 reads the name [d2_ikjk], which the function does
    not bind, and every statement before it either raises or goes on.  In
    [Examples.four_hop] the rule gets as far as that line: it has written the
    product of the four amplitudes to the first block of line 391 and raises
    NameError with the three other blocks unwritten. *)
Theorem crunch_2e_never_returns :
  (forall nelec_fsr nroots nlas ints bra ket s2lt st,
      exists e,
        snd (Assembly.crunch_2e_rule nelec_fsr nroots nlas ints bra ket s2lt st)
        = Py.Raise e) /\
  (let r := Assembly.crunch_2e_rule Examples.four_hop 2 [1; 1; 1; 1]%nat
              Examples.ints4 0 1 0 (Examples.tdm1s4, Examples.tdm2s4) in
   snd r = Py.Raise (Py.NameError "d2_ikjk") /\
   Np.item (snd (fst r)) [0; 1; 0; 0; 2; 1; 3]%nat = Cx.mk 0 (-1) /\
   Np.item (snd (fst r)) [0; 1; 0; 2; 1; 0; 1]%nat = Cx.zero /\
   Np.item (snd (fst r)) [0; 1; 0; 0; 3; 1; 2]%nat = Cx.zero /\
   Np.item (snd (fst r)) [0; 1; 0; 1; 2; 0; 3]%nat = Cx.zero).
Proof.
  split.
  - intros. apply crunch_2e_fails.
  - cbv zeta. repeat split; reflexivity.
Qed.

(* ------------------------------------------------------------------------- *)
(** ** [split_x_c_comma] *)

Section Strings.

Import LibxcSplit.

Lemma has_char_app (c : Ascii.ascii) (s t : string) :
  has_char c (s ++ t) = has_char c s || has_char c t.
Proof.
  induction s as [|a s IH]; cbn [append has_char]; [reflexivity|].
  rewrite IH. apply orb_assoc.
Qed.

Lemma split_on_not_nil (c : Ascii.ascii) (s : string) : split_on c s <> [].
Proof.
  destruct s as [|a s]; cbn [split_on]; [discriminate|].
  destruct (Ascii.eqb a c); [discriminate|].
  destruct (split_on c s); discriminate.
Qed.

Lemma split_on_no_sep (c : Ascii.ascii) (s : string) :
  has_char c s = false -> split_on c s = [s].
Proof.
  induction s as [|a s IH]; cbn [split_on has_char]; [reflexivity|].
  intros H. apply orb_false_iff in H. destruct H as [Ha Hs].
  rewrite Ha, (IH Hs). reflexivity.
Qed.

Lemma split_on_app_sep (c : Ascii.ascii) (s t : string) :
  has_char c s = false ->
  split_on c (s ++ String c t) = s :: split_on c t.
Proof.
  induction s as [|a s IH]; cbn [append split_on has_char].
  - intros _. rewrite Ascii.eqb_refl. reflexivity.
  - intros H. apply orb_false_iff in H. destruct H as [Ha Hs].
    rewrite Ha, (IH Hs). reflexivity.
Qed.

Lemma join_split (c : Ascii.ascii) (s : string) : join c (split_on c s) = s.
Proof.
  induction s as [|a s IH]; cbn [split_on]; [reflexivity|].
  pose proof (split_on_not_nil c s) as Hne.
  destruct (Ascii.eqb_spec a c) as [->|_].
  - destruct (split_on c s) as [|w ws]; [contradiction|].
    cbn [join append] in *. rewrite IH. reflexivity.
  - destruct (split_on c s) as [|w ws]; [contradiction|].
    destruct ws as [|w' ws]; cbn [join append] in *.
    + rewrite IH. reflexivity.
    + rewrite IH. reflexivity.
Qed.

Lemma split_on_two (c : Ascii.ascii) (s : string) :
  has_char c s = true -> (2 <= List.length (split_on c s))%nat.
Proof.
  induction s as [|a s IH]; cbn [split_on has_char]; [discriminate|].
  pose proof (split_on_not_nil c s) as Hne.
  destruct (Ascii.eqb a c); cbn [orb].
  - intros _. destruct (split_on c s); [contradiction|]. cbn [List.length]. lia.
  - intros H. specialize (IH H).
    destruct (split_on c s); [contradiction|]. exact IH.
Qed.

Lemma split_on_clean (c : Ascii.ascii) (s : string) :
  Forall (fun w => has_char c w = false) (split_on c s).
Proof.
  induction s as [|a s IH]; cbn [split_on].
  - constructor; [reflexivity|constructor].
  - destruct (Ascii.eqb a c) eqn:Ha.
    + constructor; [reflexivity|exact IH].
    + destruct (split_on c s) as [|w ws].
      * constructor; [cbn [has_char]; rewrite Ha; reflexivity|constructor].
      * inversion IH. subst. constructor; [|assumption].
        cbn [has_char]. rewrite Ha. assumption.
Qed.

Lemma drop_last_app (s t : string) :
  t <> EmptyString -> drop_last (s ++ t) = (s ++ drop_last t)%string.
Proof.
  intros Ht. induction s as [|a s IH]; cbn [append]; [reflexivity|].
  cbn [drop_last]. destruct (s ++ t)%string eqn:E.
  - destruct s; [cbn in E; contradiction|discriminate].
  - rewrite IH. reflexivity.
Qed.

Lemma append_assoc_s (a b c : string) : ((a ++ b) ++ c = a ++ (b ++ c))%string.
Proof. induction a as [|x a IH]; cbn [append]; [reflexivity|]. rewrite IH. reflexivity. Qed.

Lemma lsplit_bind_ok {A B} (c : result A) (k : A -> result B) (b : B) :
  bind c k = Ok b -> exists a, c = Ok a /\ k a = Ok b.
Proof. destruct c; cbn [bind]; intros H; [eauto|discriminate]. Qed.

End Strings.

Section SplitFacts.

Import LibxcSplit.

Variable XC_ALIAS : list (string * string).
Variable XC_CODES : list (string * code_value).
Variable XC_KEYS : list string.
Variable upper : string -> string.
Variable str_int : Z -> string.

Let loop := loop XC_ALIAS XC_CODES XC_KEYS str_int.
Let body := body XC_ALIAS XC_CODES XC_KEYS str_int.
Let split := split_x_c_comma XC_ALIAS XC_CODES XC_KEYS upper str_int.

Lemma loop_break n xc path :
  has_char comma xc = true -> loop n xc path = Ok (xc, path).
Proof.
  intros H. unfold loop. destruct n; cbn [LibxcSplit.loop]; [reflexivity|].
  rewrite H. reflexivity.
Qed.

Lemma loop_step n xc path :
  has_char comma xc = false ->
  loop (S n) xc path = bind (body xc path) (fun xc' => loop n xc' (path_extend path xc')).
Proof. intros H. unfold loop, body. cbn [LibxcSplit.loop]. rewrite H. reflexivity. Qed.

Lemma split_ok_comma xc parts :
  split xc = Ok parts ->
  exists final, has_char comma final = true /\ parts = split_on comma final.
Proof.
  unfold split, split_x_c_comma. cbv zeta. intros H.
  apply lsplit_bind_ok in H. destruct H as [[final path] [_ H]]. cbn [fst snd] in H.
  destruct (has_char comma final) eqn:Hc; cbn [negb] in H; [|discriminate].
  exists final. split; [exact Hc|]. inversion H. reflexivity.
Qed.

(** With a table of keys that has every key of [XC_CODES], the branch of
    line 62 is never taken. *)
Lemma body_message xc path p' :
  (forall k v, lookup XC_CODES k = Some v -> existsb (String.eqb k) XC_KEYS = true) ->
  body xc path <> Raise (XCSplitError None p').
Proof.
  intros Hkeys. unfold body, LibxcSplit.body.
  destruct (lookup XC_ALIAS xc); [discriminate|].
  destruct (lookup XC_CODES xc) as [[n|code]|] eqn:Hc; [| |discriminate].
  - destruct (existsb _ _); [discriminate|].
    destruct (lookup_code _ _) as [ty|]; [|discriminate].
    repeat match goal with
           | |- context [String.eqb ?a ?b] => destruct (String.eqb a b)
           end; discriminate.
  - rewrite (Hkeys _ _ Hc). discriminate.
Qed.

Lemma loop_message n xc path p' :
  (forall k v, lookup XC_CODES k = Some v -> existsb (String.eqb k) XC_KEYS = true) ->
  loop n xc path <> Raise (XCSplitError None p').
Proof.
  intros Hkeys. revert xc path. induction n as [|n IH]; intros xc path.
  - discriminate.
  - destruct (has_char comma xc) eqn:Hc.
    + rewrite (loop_break _ _ _ Hc). discriminate.
    + rewrite (loop_step _ _ _ Hc).
      destruct (body xc path) as [xc'|e] eqn:Hb; cbn [bind].
      * apply IH.
      * intros E. inversion E. subst e. exact (body_message _ _ _ Hkeys Hb).
Qed.

End SplitFacts.

(** X15: what [split_x_c_comma] returns.  A code that contains a comma once
    upper-cased is split at every comma without any table being consulted,
    and the parts joined with commas give the upper-cased code back.
    Whenever the function returns, it returns at least two strings, none of
    which contains a comma. *)
Theorem split_x_c_comma_parts
  (XC_ALIAS : list (string * string)) (XC_CODES : list (string * LibxcSplit.code_value))
  (XC_KEYS : list string) (upper : string -> string) (str_int : Z -> string)
  (xc : string) :
  let split := LibxcSplit.split_x_c_comma XC_ALIAS XC_CODES XC_KEYS upper str_int in
  (LibxcSplit.has_char LibxcSplit.comma (upper xc) = true ->
   split xc = LibxcSplit.Ok (LibxcSplit.split_on LibxcSplit.comma (upper xc)) /\
   LibxcSplit.join LibxcSplit.comma (LibxcSplit.split_on LibxcSplit.comma (upper xc))
   = upper xc) /\
  (forall parts,
      split xc = LibxcSplit.Ok parts ->
      (2 <= List.length parts)%nat /\
      Forall (fun w => LibxcSplit.has_char LibxcSplit.comma w = false) parts).
Proof.
  cbv zeta. split.
  - intros Hc. split; [|apply join_split].
    unfold LibxcSplit.split_x_c_comma. cbv zeta.
    rewrite (loop_break XC_ALIAS XC_CODES XC_KEYS str_int _ _ _ Hc).
    cbn [LibxcSplit.bind fst snd]. rewrite Hc. reflexivity.
  - intros parts H.
    destruct (split_ok_comma _ _ _ _ _ _ _ H) as [final [Hc ->]].
    split; [apply split_on_two; exact Hc|apply split_on_clean].
Qed.

Lemma split_x_c_comma_parts_witness :
  LibxcSplit.split_x_c_comma Examples.xc_alias Examples.xc_codes Examples.xc_keys
                             Examples.upper_ascii Examples.str_int0 "pbe,Pbe"
  = LibxcSplit.Ok ["PBE"; "PBE"]%string.
Proof.
  destruct (split_x_c_comma_parts Examples.xc_alias Examples.xc_codes Examples.xc_keys
              Examples.upper_ascii Examples.str_int0 "pbe,Pbe") as [H _].
  destruct (H eq_refl) as [E _]. exact E.
Defined.

Section TableFacts.

Import LibxcSplit.

Lemma code_eqb_refl (v : code_value) : code_eqb v v = true.
Proof. destruct v; cbn; [apply Z.eqb_refl|apply String.eqb_refl]. Qed.

Lemma code_eqb_eq (a b : code_value) : code_eqb a b = true -> a = b.
Proof.
  destruct a, b; cbn; intros H; try discriminate.
  - apply Z.eqb_eq in H. congruence.
  - apply String.eqb_eq in H. congruence.
Qed.

Lemma snd_table_step st item :
  snd (table_step st item) =
  if String.prefix "HYB_" (fst item) then snd st ++ [snd item] else snd st.
Proof. unfold table_step. cbv zeta. destruct (has_header _); reflexivity. Qed.

Lemma fst_table_step st item :
  fst (table_step st item) =
  if has_header (strip_hyb (fst item))
  then (snd item, type_word (strip_hyb (fst item))) :: fst st
  else fst st.
Proof. unfold table_step. cbv zeta. destruct (has_header _); reflexivity. Qed.

(** [INTCODES_HYB] holds exactly the values of the keys that start with
    [HYB_]. *)
Lemma hyb_fold l st v :
  In v (snd (fold_left table_step l st)) <->
  In v (snd st) \/ exists key, In (key, v) l /\ String.prefix "HYB_" key = true.
Proof.
  revert st. induction l as [|[key val] l IH]; intros st; cbn [fold_left].
  - split; [auto|]. intros [H|[key [[] _]]]. exact H.
  - rewrite IH, snd_table_step. cbn [fst snd].
    destruct (String.prefix "HYB_" key) eqn:Hp.
    + rewrite in_app_iff. cbn [In]. split.
      * intros [[H|[H|[]]]|[k [Hin Hk]]].
        -- left. exact H.
        -- right. exists key. subst. split; [left; reflexivity|exact Hp].
        -- right. exists k. split; [right; exact Hin|exact Hk].
      * intros [H|[k [[E|Hin] Hk]]].
        -- left. left. exact H.
        -- inversion E. subst. left. right. left. reflexivity.
        -- right. exists k. split; assumption.
    + split.
      * intros [H|[k [Hin Hk]]]; [left; exact H|].
        right. exists k. split; [right; exact Hin|exact Hk].
      * intros [H|[k [[E|Hin] Hk]]]; [left; exact H| |].
        -- inversion E. subst. congruence.
        -- right. exists k. split; assumption.
Qed.

Lemma hyb_iff (XC_CODES : list (string * code_value)) (v : code_value) :
  existsb (code_eqb v) (INTCODES_HYB XC_CODES) = true <->
  exists key, In (key, v) XC_CODES /\ String.prefix "HYB_" key = true.
Proof.
  unfold INTCODES_HYB, tables. rewrite existsb_exists. split.
  - intros [v' [Hin He]]. apply code_eqb_eq in He. subst v'.
    apply hyb_fold in Hin. destruct Hin as [[]|H]. exact H.
  - intros H. exists v. split; [|apply code_eqb_refl].
    apply hyb_fold. right. exact H.
Qed.

(** The type recorded for a value is the type word of its names, when all
    its names with a header agree on it. *)
Lemma types_fold l st v w :
  (forall key, In (key, v) l -> has_header (strip_hyb key) = true ->
               type_word (strip_hyb key) = w) ->
  (exists key, In (key, v) l /\ has_header (strip_hyb key) = true) \/
  lookup_code (fst st) v = Some w ->
  lookup_code (fst (fold_left table_step l st)) v = Some w.
Proof.
  revert st. induction l as [|[key val] l IH]; intros st Hall Hsome; cbn [fold_left].
  - destruct Hsome as [[key [[] _]]|H]. exact H.
  - apply IH.
    + intros k Hin. apply Hall. right. exact Hin.
    + rewrite fst_table_step. cbn [fst snd].
      destruct Hsome as [[k [[E|Hin] Hk]]|H].
      * inversion E. subst. right. rewrite Hk. cbn [lookup_code].
        rewrite code_eqb_refl. f_equal. apply Hall; [left; reflexivity|exact Hk].
      * left. exists k. split; assumption.
      * right. destruct (has_header (strip_hyb key)) eqn:Hh; [|exact H].
        cbn [lookup_code]. destruct (code_eqb val v) eqn:He; [|exact H].
        apply code_eqb_eq in He. subst val. f_equal.
        apply Hall; [left; reflexivity|exact Hh].
Qed.

Lemma types_of_names (XC_CODES : list (string * code_value)) (v : code_value)
      (key : string) :
  In (key, v) XC_CODES -> has_header (strip_hyb key) = true ->
  (forall key', In (key', v) XC_CODES -> has_header (strip_hyb key') = true ->
                type_word (strip_hyb key') = type_word (strip_hyb key)) ->
  lookup_code (INTCODES_TYPES XC_CODES) v = Some (type_word (strip_hyb key)).
Proof.
  intros Hin Hh Hall. unfold INTCODES_TYPES, tables.
  apply types_fold; [exact Hall|]. left. exists key. split; assumption.
Qed.

End TableFacts.

Section TableFacts2.

Import LibxcSplit.

Lemma types_fold_none l st v :
  (forall key, In (key, v) l -> has_header (strip_hyb key) = false) ->
  lookup_code (fst st) v = None ->
  lookup_code (fst (fold_left table_step l st)) v = None.
Proof.
  revert st. induction l as [|[key val] l IH]; intros st Hall Hnone; cbn [fold_left].
  - exact Hnone.
  - apply IH.
    + intros k Hin. apply Hall. right. exact Hin.
    + rewrite fst_table_step. cbn [fst snd].
      destruct (has_header (strip_hyb key)) eqn:Hh; [|exact Hnone].
      cbn [lookup_code]. destruct (code_eqb val v) eqn:He; [|exact Hnone].
      apply code_eqb_eq in He. subst val.
      rewrite (Hall key (or_introl eq_refl)) in Hh. discriminate.
Qed.

Lemma strip_hyb_plain (key : string) :
  String.prefix "HYB_" key = false -> strip_hyb key = key.
Proof. intros H. unfold strip_hyb. rewrite H. reflexivity. Qed.

Lemma hyb_absent (XC_CODES : list (string * code_value)) (v : code_value) :
  (forall k, In (k, v) XC_CODES -> String.prefix "HYB_" k = false) ->
  existsb (code_eqb v) (INTCODES_HYB XC_CODES) = false.
Proof.
  intros H. destruct (existsb _ _) eqn:E; [|reflexivity].
  apply hyb_iff in E. destruct E as [k [Hin Hk]].
  rewrite (H k Hin) in Hk. discriminate.
Qed.

Lemma path_extend_arrow (P X : string) :
  path_extend (P ++ "->?") X = (P ++ "->" ++ X ++ "->?")%string.
Proof.
  unfold path_extend. rewrite drop_last_app; [|discriminate].
  cbn [drop_last]. rewrite append_assoc_s. reflexivity.
Qed.

End TableFacts2.

(** X16: how a code without a comma is resolved.  An alias is replaced by
    its value; a name of [XC_CODES] with a string value is replaced by that
    value; a name with an integer code that no [HYB_] key shares is looked
    up in the type table, which holds the word after the header of the
    code's [LDA_], [GGA_] or [MGGA_] key: a pure exchange functional gives
    (NAME, ''), a pure correlation functional ('', NAME). *)
Theorem split_x_c_comma_resolves
  (XC_ALIAS : list (string * string)) (XC_CODES : list (string * LibxcSplit.code_value))
  (XC_KEYS : list string) (upper : string -> string) (str_int : Z -> string)
  (xc : string) :
  let name := upper xc in
  let split := LibxcSplit.split_x_c_comma XC_ALIAS XC_CODES XC_KEYS upper str_int in
  LibxcSplit.has_char LibxcSplit.comma name = false ->
  (forall value,
      LibxcSplit.lookup XC_ALIAS name = Some value ->
      LibxcSplit.has_char LibxcSplit.comma value = true ->
      split xc = LibxcSplit.Ok (LibxcSplit.split_on LibxcSplit.comma value)) /\
  (forall value,
      LibxcSplit.lookup XC_ALIAS name = None ->
      LibxcSplit.lookup XC_CODES name = Some (LibxcSplit.StrCode value) ->
      existsb (String.eqb name) XC_KEYS = true ->
      LibxcSplit.has_char LibxcSplit.comma value = true ->
      split xc = LibxcSplit.Ok (LibxcSplit.split_on LibxcSplit.comma value)) /\
  (forall n key,
      LibxcSplit.lookup XC_ALIAS name = None ->
      LibxcSplit.lookup XC_CODES name = Some (LibxcSplit.IntCode n) ->
      (forall k, In (k, LibxcSplit.IntCode n) XC_CODES -> String.prefix "HYB_" k = false) ->
      In (key, LibxcSplit.IntCode n) XC_CODES ->
      LibxcSplit.has_header key = true ->
      (forall k, In (k, LibxcSplit.IntCode n) XC_CODES ->
                 LibxcSplit.has_header k = true ->
                 LibxcSplit.type_word k = LibxcSplit.type_word key) ->
      (LibxcSplit.type_word key = "X"%string ->
       split xc = LibxcSplit.Ok [name; EmptyString]) /\
      (LibxcSplit.type_word key = "C"%string ->
       split xc = LibxcSplit.Ok [EmptyString; name])).
Proof.
  cbv zeta. intros Hc.
  assert (Hstart : forall xc',
             LibxcSplit.body XC_ALIAS XC_CODES XC_KEYS str_int (upper xc)
                             (LibxcSplit.path_init (upper xc)) = LibxcSplit.Ok xc' ->
             LibxcSplit.has_char LibxcSplit.comma xc' = true ->
             LibxcSplit.split_x_c_comma XC_ALIAS XC_CODES XC_KEYS upper str_int xc
             = LibxcSplit.Ok (LibxcSplit.split_on LibxcSplit.comma xc')).
  { intros xc' Hb Hc'. unfold LibxcSplit.split_x_c_comma. cbv zeta.
    unfold LibxcSplit.max_recurse.
    rewrite (loop_step XC_ALIAS XC_CODES XC_KEYS str_int _ _ _ Hc), Hb.
    cbn [LibxcSplit.bind].
    rewrite (loop_break XC_ALIAS XC_CODES XC_KEYS str_int _ _ _ Hc').
    cbn [LibxcSplit.bind fst snd]. rewrite Hc'. reflexivity. }
  split; [|split].
  - intros value Ha Hv. apply Hstart; [|exact Hv].
    unfold LibxcSplit.body. rewrite Ha. reflexivity.
  - intros value Ha Hcode Hk Hv. apply Hstart; [|exact Hv].
    unfold LibxcSplit.body. rewrite Ha, Hcode, Hk. reflexivity.
  - intros n key Ha Hcode Hnohyb Hin Hh Hall.
    assert (Hty : LibxcSplit.lookup_code (LibxcSplit.INTCODES_TYPES XC_CODES)
                                         (LibxcSplit.IntCode n)
                  = Some (LibxcSplit.type_word key)).
    { rewrite <- (strip_hyb_plain key (Hnohyb key Hin)).
      apply types_of_names.
      - exact Hin.
      - rewrite (strip_hyb_plain key (Hnohyb key Hin)). exact Hh.
      - intros k Hk Hhk.
        rewrite (strip_hyb_plain k (Hnohyb k Hk)) in *.
        rewrite (strip_hyb_plain key (Hnohyb key Hin)).
        apply Hall; assumption. }
    assert (Hbody : forall ty, LibxcSplit.type_word key = ty ->
               LibxcSplit.body XC_ALIAS XC_CODES XC_KEYS str_int (upper xc)
                               (LibxcSplit.path_init (upper xc))
               = if String.eqb ty "X" then LibxcSplit.Ok (upper xc ++ ",")%string
                 else if String.eqb ty "C" then LibxcSplit.Ok ("," ++ upper xc)%string
                 else if String.eqb ty "XC" then
                   LibxcSplit.Raise
                     (LibxcSplit.XCSplitError (Some "LibXC built-in X+C functional"%string)
                                              (LibxcSplit.path_init (upper xc)))
                 else if String.eqb ty "K" then
                   LibxcSplit.Raise
                     (LibxcSplit.XCSplitError (Some "Kinetic energy functional"%string)
                                              (LibxcSplit.path_init (upper xc)))
                 else
                   LibxcSplit.Raise
                     (LibxcSplit.XCSplitError
                        (Some ("Unknown functional type " ++ ty ++
                               " for code " ++ str_int n)%string)
                        (LibxcSplit.path_init (upper xc)))).
    { intros ty Ety. unfold LibxcSplit.body.
      rewrite Ha, Hcode, (hyb_absent XC_CODES _ Hnohyb), Hty, Ety. reflexivity. }
    split.
    + intros Ety. rewrite (Hstart (upper xc ++ ",")%string).
      * change ","%string with (String LibxcSplit.comma EmptyString).
        rewrite (split_on_app_sep _ _ _ Hc). reflexivity.
      * rewrite (Hbody _ Ety). reflexivity.
      * rewrite has_char_app. apply orb_true_iff. right. reflexivity.
    + intros Ety. rewrite (Hstart ("," ++ upper xc)%string).
      * change ("," ++ upper xc)%string with (String LibxcSplit.comma (upper xc)).
        cbn [LibxcSplit.split_on]. rewrite Ascii.eqb_refl.
        rewrite (split_on_no_sep _ _ Hc). reflexivity.
      * rewrite (Hbody _ Ety). reflexivity.
      * reflexivity.
Qed.

Lemma split_x_c_comma_resolves_witness :
  LibxcSplit.split_x_c_comma Examples.xc_alias Examples.xc_codes Examples.xc_keys
                             Examples.upper_ascii Examples.str_int0 "gga_x_pbe"
  = LibxcSplit.Ok ["GGA_X_PBE"; ""]%string /\
  LibxcSplit.split_x_c_comma Examples.xc_alias Examples.xc_codes Examples.xc_keys
                             Examples.upper_ascii Examples.str_int0 "pbe"
  = LibxcSplit.Ok ["PBE"; "PBE"]%string.
Proof.
  destruct (split_x_c_comma_resolves Examples.xc_alias Examples.xc_codes Examples.xc_keys
              Examples.upper_ascii Examples.str_int0 "gga_x_pbe" eq_refl)
    as (_ & _ & Hx).
  destruct (split_x_c_comma_resolves Examples.xc_alias Examples.xc_codes Examples.xc_keys
              Examples.upper_ascii Examples.str_int0 "pbe" eq_refl)
    as (Ha & _).
  split.
  - destruct (Hx 101 "GGA_X_PBE"%string eq_refl eq_refl) as [H _].
    + intros k Hin. cbn in Hin.
      repeat (destruct Hin as [E|Hin]; [inversion E; reflexivity|]). destruct Hin.
    + left. reflexivity.
    + reflexivity.
    + intros k Hin _. cbn in Hin.
      repeat (destruct Hin as [E|Hin]; [inversion E; reflexivity|]). destruct Hin.
    + apply H. reflexivity.
  - apply (Ha "PBE,PBE"%string); reflexivity.
Defined.

(** X17: how a code without a comma and without an alias is rejected.  A
    name that [XC_CODES] does not have raises KeyError (the [else] branch of
    line 62 is not reached); an integer code that some [HYB_] key shares
    raises XCSplitError 'LibXC built-in hybrid'; an integer code none of
    whose keys starts with [LDA_], [GGA_] or [MGGA_] raises KeyError at the
    type table; an exchange-correlation or a kinetic functional raises
    XCSplitError with its message.  The path of every such XCSplitError is
    'NAME->?'. *)
Theorem split_x_c_comma_rejects
  (XC_ALIAS : list (string * string)) (XC_CODES : list (string * LibxcSplit.code_value))
  (XC_KEYS : list string) (upper : string -> string) (str_int : Z -> string)
  (xc : string) :
  let name := upper xc in
  let split := LibxcSplit.split_x_c_comma XC_ALIAS XC_CODES XC_KEYS upper str_int in
  let error := fun message =>
    LibxcSplit.Raise (LibxcSplit.XCSplitError (Some message) (name ++ "->?")%string) in
  LibxcSplit.has_char LibxcSplit.comma name = false ->
  LibxcSplit.lookup XC_ALIAS name = None ->
  (LibxcSplit.lookup XC_CODES name = None ->
   split xc = LibxcSplit.Raise (LibxcSplit.KeyError (LibxcSplit.StrCode name))) /\
  (forall n,
      LibxcSplit.lookup XC_CODES name = Some (LibxcSplit.IntCode n) ->
      (forall key, In (key, LibxcSplit.IntCode n) XC_CODES ->
                   String.prefix "HYB_" key = true ->
                   split xc = error "LibXC built-in hybrid"%string) /\
      ((forall k, In (k, LibxcSplit.IntCode n) XC_CODES -> String.prefix "HYB_" k = false) ->
       ((forall k, In (k, LibxcSplit.IntCode n) XC_CODES ->
                   LibxcSplit.has_header k = false) ->
        split xc = LibxcSplit.Raise (LibxcSplit.KeyError (LibxcSplit.IntCode n))) /\
       (forall key,
           In (key, LibxcSplit.IntCode n) XC_CODES ->
           LibxcSplit.has_header key = true ->
           (forall k, In (k, LibxcSplit.IntCode n) XC_CODES ->
                      LibxcSplit.has_header k = true ->
                      LibxcSplit.type_word k = LibxcSplit.type_word key) ->
           (LibxcSplit.type_word key = "XC"%string ->
            split xc = error "LibXC built-in X+C functional"%string) /\
           (LibxcSplit.type_word key = "K"%string ->
            split xc = error "Kinetic energy functional"%string)))).
Proof.
  cbv zeta. intros Hc Ha.
  assert (Hstart : forall e,
             LibxcSplit.body XC_ALIAS XC_CODES XC_KEYS str_int (upper xc)
                             (LibxcSplit.path_init (upper xc)) = LibxcSplit.Raise e ->
             LibxcSplit.split_x_c_comma XC_ALIAS XC_CODES XC_KEYS upper str_int xc
             = LibxcSplit.Raise e).
  { intros e Hb. unfold LibxcSplit.split_x_c_comma. cbv zeta.
    unfold LibxcSplit.max_recurse.
    rewrite (loop_step XC_ALIAS XC_CODES XC_KEYS str_int _ _ _ Hc), Hb.
    reflexivity. }
  split.
  - intros Hcode. apply Hstart. unfold LibxcSplit.body. rewrite Ha, Hcode. reflexivity.
  - intros n Hcode. split.
    + intros key Hin Hp. apply Hstart. unfold LibxcSplit.body. rewrite Ha, Hcode.
      replace (existsb _ _) with true; [reflexivity|].
      symmetry. apply hyb_iff. exists key. split; assumption.
    + intros Hnohyb. split.
      * intros Hnohdr. apply Hstart. unfold LibxcSplit.body.
        rewrite Ha, Hcode, (hyb_absent XC_CODES _ Hnohyb).
        replace (LibxcSplit.lookup_code _ _) with (@None string); [reflexivity|].
        symmetry. unfold LibxcSplit.INTCODES_TYPES, LibxcSplit.tables.
        apply types_fold_none; [|reflexivity].
        intros k Hk. rewrite (strip_hyb_plain k (Hnohyb k Hk)). apply Hnohdr. exact Hk.
      * intros key Hin Hh Hall.
        assert (Hty : LibxcSplit.lookup_code (LibxcSplit.INTCODES_TYPES XC_CODES)
                                             (LibxcSplit.IntCode n)
                      = Some (LibxcSplit.type_word key)).
        { rewrite <- (strip_hyb_plain key (Hnohyb key Hin)).
          apply types_of_names.
          - exact Hin.
          - rewrite (strip_hyb_plain key (Hnohyb key Hin)). exact Hh.
          - intros k Hk Hhk.
            rewrite (strip_hyb_plain k (Hnohyb k Hk)) in *.
            rewrite (strip_hyb_plain key (Hnohyb key Hin)).
            apply Hall; assumption. }
        split; intros Ety; apply Hstart; unfold LibxcSplit.body;
          rewrite Ha, Hcode, (hyb_absent XC_CODES _ Hnohyb), Hty, Ety; reflexivity.
Qed.

Lemma split_x_c_comma_rejects_witness :
  LibxcSplit.split_x_c_comma Examples.xc_alias Examples.xc_codes Examples.xc_keys
                             Examples.upper_ascii Examples.str_int0 "b3lyp5"
  = LibxcSplit.Raise
      (LibxcSplit.XCSplitError (Some "LibXC built-in hybrid"%string) "B3LYP5->?"%string) /\
  LibxcSplit.split_x_c_comma Examples.xc_alias Examples.xc_codes Examples.xc_keys
                             Examples.upper_ascii Examples.str_int0 "m06"
  = LibxcSplit.Raise (LibxcSplit.KeyError (LibxcSplit.StrCode "M06")).
Proof.
  destruct (split_x_c_comma_rejects Examples.xc_alias Examples.xc_codes Examples.xc_keys
              Examples.upper_ascii Examples.str_int0 "b3lyp5" eq_refl eq_refl)
    as (_ & Hb).
  destruct (split_x_c_comma_rejects Examples.xc_alias Examples.xc_codes Examples.xc_keys
              Examples.upper_ascii Examples.str_int0 "m06" eq_refl eq_refl)
    as (Hk & _).
  split.
  - destruct (Hb 402 eq_refl) as [H _].
    apply (H "HYB_GGA_XC_B3LYP"%string); [|reflexivity].
    right. right. left. reflexivity.
  - apply Hk. reflexivity.
Defined.

(** X18: the depth of alias resolution.  The loop makes at most five
    replacements: a chain of five aliases that ends in a code with a comma
    is resolved, and a chain of five aliases none of whose members has a
    comma raises XCSplitError 'Maximum XC alias recursion depth', whose path
    lists the six names in the order they were met. *)
Theorem split_x_c_comma_depth
  (XC_ALIAS : list (string * string)) (XC_CODES : list (string * LibxcSplit.code_value))
  (XC_KEYS : list string) (upper : string -> string) (str_int : Z -> string)
  (xc x1 x2 x3 x4 x5 : string) :
  let x0 := upper xc in
  let split := LibxcSplit.split_x_c_comma XC_ALIAS XC_CODES XC_KEYS upper str_int in
  LibxcSplit.lookup XC_ALIAS x0 = Some x1 ->
  LibxcSplit.lookup XC_ALIAS x1 = Some x2 ->
  LibxcSplit.lookup XC_ALIAS x2 = Some x3 ->
  LibxcSplit.lookup XC_ALIAS x3 = Some x4 ->
  LibxcSplit.lookup XC_ALIAS x4 = Some x5 ->
  Forall (fun x => LibxcSplit.has_char LibxcSplit.comma x = false) [x0; x1; x2; x3; x4] ->
  (LibxcSplit.has_char LibxcSplit.comma x5 = true ->
   split xc = LibxcSplit.Ok (LibxcSplit.split_on LibxcSplit.comma x5)) /\
  (LibxcSplit.has_char LibxcSplit.comma x5 = false ->
   split xc = LibxcSplit.Raise
                (LibxcSplit.XCSplitError
                   (Some "Maximum XC alias recursion depth"%string)
                   (x0 ++ "->" ++ x1 ++ "->" ++ x2 ++ "->" ++ x3 ++ "->" ++ x4 ++ "->"
                       ++ x5 ++ "->?")%string)).
Proof.
  cbv zeta. intros A0 A1 A2 A3 A4 Hno.
  inversion Hno as [|? ? C0 Hno1]; subst. inversion Hno1 as [|? ? C1 Hno2]; subst.
  inversion Hno2 as [|? ? C2 Hno3]; subst. inversion Hno3 as [|? ? C3 Hno4]; subst.
  inversion Hno4 as [|? ? C4 _]; subst.
  assert (Hbody : forall x y p, LibxcSplit.lookup XC_ALIAS x = Some y ->
             LibxcSplit.body XC_ALIAS XC_CODES XC_KEYS str_int x p = LibxcSplit.Ok y).
  { intros x y p H. unfold LibxcSplit.body. rewrite H. reflexivity. }
  assert (Hloop :
            LibxcSplit.loop XC_ALIAS XC_CODES XC_KEYS str_int 5 (upper xc)
                            (LibxcSplit.path_init (upper xc))
            = LibxcSplit.Ok
                (x5, (upper xc ++ "->" ++ x1 ++ "->" ++ x2 ++ "->" ++ x3 ++ "->" ++ x4
                        ++ "->" ++ x5 ++ "->?")%string)).
  { unfold LibxcSplit.path_init.
    rewrite (loop_step XC_ALIAS XC_CODES XC_KEYS str_int _ _ _ C0), (Hbody _ _ _ A0).
    cbn [LibxcSplit.bind]. rewrite path_extend_arrow.
    replace (upper xc ++ "->" ++ x1 ++ "->?")%string
      with ((upper xc ++ "->" ++ x1) ++ "->?")%string
      by (rewrite !append_assoc_s; reflexivity).
    rewrite (loop_step XC_ALIAS XC_CODES XC_KEYS str_int _ _ _ C1), (Hbody _ _ _ A1).
    cbn [LibxcSplit.bind]. rewrite path_extend_arrow.
    replace ((upper xc ++ "->" ++ x1) ++ "->" ++ x2 ++ "->?")%string
      with ((upper xc ++ "->" ++ x1 ++ "->" ++ x2) ++ "->?")%string
      by (rewrite !append_assoc_s; reflexivity).
    rewrite (loop_step XC_ALIAS XC_CODES XC_KEYS str_int _ _ _ C2), (Hbody _ _ _ A2).
    cbn [LibxcSplit.bind]. rewrite path_extend_arrow.
    replace ((upper xc ++ "->" ++ x1 ++ "->" ++ x2) ++ "->" ++ x3 ++ "->?")%string
      with ((upper xc ++ "->" ++ x1 ++ "->" ++ x2 ++ "->" ++ x3) ++ "->?")%string
      by (rewrite !append_assoc_s; reflexivity).
    rewrite (loop_step XC_ALIAS XC_CODES XC_KEYS str_int _ _ _ C3), (Hbody _ _ _ A3).
    cbn [LibxcSplit.bind]. rewrite path_extend_arrow.
    replace ((upper xc ++ "->" ++ x1 ++ "->" ++ x2 ++ "->" ++ x3) ++ "->" ++ x4 ++ "->?")%string
      with ((upper xc ++ "->" ++ x1 ++ "->" ++ x2 ++ "->" ++ x3 ++ "->" ++ x4) ++ "->?")%string
      by (rewrite !append_assoc_s; reflexivity).
    rewrite (loop_step XC_ALIAS XC_CODES XC_KEYS str_int _ _ _ C4), (Hbody _ _ _ A4).
    cbn [LibxcSplit.bind LibxcSplit.loop]. rewrite path_extend_arrow.
    rewrite !append_assoc_s. reflexivity. }
  unfold LibxcSplit.split_x_c_comma. cbv zeta. unfold LibxcSplit.max_recurse.
  rewrite Hloop. cbn [LibxcSplit.bind fst snd].
  split; intros C5; rewrite C5; reflexivity.
Qed.

Lemma split_x_c_comma_depth_witness :
  LibxcSplit.split_x_c_comma Examples.xc_alias Examples.xc_codes Examples.xc_keys
                             Examples.upper_ascii Examples.str_int0 "loop"
  = LibxcSplit.Raise
      (LibxcSplit.XCSplitError (Some "Maximum XC alias recursion depth"%string)
                               "LOOP->LOOP->LOOP->LOOP->LOOP->LOOP->?"%string).
Proof.
  destruct (split_x_c_comma_depth Examples.xc_alias Examples.xc_codes Examples.xc_keys
              Examples.upper_ascii Examples.str_int0
              "loop" "LOOP" "LOOP" "LOOP" "LOOP" "LOOP"
              eq_refl eq_refl eq_refl eq_refl eq_refl) as [_ H].
  - repeat constructor.
  - apply H. reflexivity.
Defined.

(** X19: every XCSplitError that [split_x_c_comma] raises carries a message.
    When the set [XC_KEYS] has every key of [XC_CODES], the bare
    [raise myerr] of line 62 is never executed, so [__str__] (line 24),
    which reads [self.message], is never called on an instance that lacks
    the attribute. *)
Theorem split_x_c_comma_error_has_message
  (XC_ALIAS : list (string * string)) (XC_CODES : list (string * LibxcSplit.code_value))
  (XC_KEYS : list string) (upper : string -> string) (str_int : Z -> string)
  (xc path : string) :
  (forall k v, LibxcSplit.lookup XC_CODES k = Some v ->
               existsb (String.eqb k) XC_KEYS = true) ->
  LibxcSplit.split_x_c_comma XC_ALIAS XC_CODES XC_KEYS upper str_int xc
  <> LibxcSplit.Raise (LibxcSplit.XCSplitError None path).
Proof.
  intros Hkeys. unfold LibxcSplit.split_x_c_comma. cbv zeta.
  pose proof (loop_message XC_ALIAS XC_CODES XC_KEYS str_int
                LibxcSplit.max_recurse (upper xc) (LibxcSplit.path_init (upper xc))
                path Hkeys) as Hl.
  destruct (LibxcSplit.loop _ _ _ _ _ _ _) as [[final p]|e]; cbn [LibxcSplit.bind fst snd].
  - destruct (negb _); discriminate.
  - intros E. apply Hl. inversion E. reflexivity.
Qed.

Lemma lookup_in_keys {V} (d : list (string * V)) (k : string) (v : V) :
  LibxcSplit.lookup d k = Some v -> existsb (String.eqb k) (map fst d) = true.
Proof.
  induction d as [|[k' v'] d IH]; cbn [LibxcSplit.lookup map fst existsb]; [discriminate|].
  rewrite (String.eqb_sym k k'). destruct (String.eqb k' k); [reflexivity|].
  exact IH.
Qed.

Lemma split_x_c_comma_error_has_message_witness :
  LibxcSplit.split_x_c_comma Examples.xc_alias Examples.xc_codes Examples.xc_keys
                             Examples.upper_ascii Examples.str_int0 "slater"
  <> LibxcSplit.Raise (LibxcSplit.XCSplitError None "SLATER->?"%string).
Proof.
  apply split_x_c_comma_error_has_message.
  intros k v H. exact (lookup_in_keys Examples.xc_codes k v H).
Defined.

(* ------------------------------------------------------------------------- *)
(** ** The single-hop rule cannot return *)

Section SingleHopFails.

Import Py Np Assembly.

Lemma select_too_many (sh : list nat) (idxs : list index) :
  (List.length sh < List.length idxs)%nat ->
  exists e, select sh idxs = Raise e.
Proof.
  revert sh. induction idxs as [|ix idxs IH]; intros sh H; [cbn in H; lia|].
  destruct sh as [|n sh]; [eexists; reflexivity|].
  cbn [List.length] in H.
  destruct (IH sh ltac:(lia)) as [e He].
  cbn [select]. destruct ix as [i|lo hi|].
  - destruct (i <? n)%nat; [|eexists; reflexivity].
    rewrite He. eexists. reflexivity.
  - rewrite He. eexists. reflexivity.
  - rewrite He. eexists. reflexivity.
Qed.

(** A computation that raises whenever [tdm1s] has five axes. *)
Let fails5 {A} (c : M A) : Prop :=
  forall st, ndim (fst st) = 5%nat -> exists e, snd (c st) = Raise e.

Lemma fails5_write (idxs : list index) (v : ndarray) :
  (5 < List.length idxs)%nat -> fails5 (write_tdm1s idxs v).
Proof.
  intros Hlen st Hnd. unfold write_tdm1s, setitem.
  destruct (select_too_many (shape (fst st)) idxs) as [e He].
  { unfold ndim in Hnd. lia. }
  rewrite He. cbn [bind snd]. exists e. reflexivity.
Qed.

Lemma fails5_bind_left {A B} (c : M A) (k : A -> M B) :
  fails5 c -> fails5 (bindM c k).
Proof.
  intros Hc st Hnd. unfold bindM. destruct (Hc st Hnd) as [e He].
  destruct (c st) as [st' [a|e']]; cbn [snd] in *; [discriminate|].
  exists e'. reflexivity.
Qed.

Lemma fails5_bind_right {A B} (bra ket : nat) (c : M A) (k : A -> M B) :
  local_to bra ket c -> (forall a, fails5 (k a)) -> fails5 (bindM c k).
Proof.
  intros Hloc Hk st Hnd. unfold bindM.
  destruct (Hloc st) as (Hshape & _).
  destruct (c st) as [st' [a|e']]; cbn [fst snd] in *.
  - apply Hk. unfold ndim in *. rewrite Hshape. exact Hnd.
  - exists e'. reflexivity.
Qed.

Lemma crunch_1e_tdm2_fails bra ket s1 d2_ijkk i0 i1 j0 j1 k0 k1 :
  fails5 (crunch_1e_tdm2 bra ket s1 d2_ijkk i0 i1 j0 j1 k0 k1).
Proof.
  unfold crunch_1e_tdm2. cbv zeta. apply fails5_bind_left.
  apply fails5_write. cbn [List.length]. lia.
Qed.

Lemma crunch_1e_fails nelec_fsr nroots nlas ints bra ket s1 st :
  ndim (fst st) = 5%nat ->
  exists e, snd (crunch_1e_rule nelec_fsr nroots nlas ints bra ket s1 st) = Raise e.
Proof.
  revert st. change (fails5 (crunch_1e_rule nelec_fsr nroots nlas ints bra ket s1)).
  unfold crunch_1e_rule.
  repeat first
    [ apply fails5_bind_left; apply crunch_1e_tdm2_fails
    | apply (fails5_bind_right bra ket);
      [ repeat first
          [ apply local_lift
          | apply local_read_tdm1s
          | apply local_write_tdm1s
          | apply local_bind; [|intros ?] ]
      | intros ? ]
    | progress cbv zeta ].
Qed.

End SingleHopFails.

(** X20: the single-hop rule [_crunch_1e] never returns.  [tdm1s] is
    created with five axes (line 231) and no statement changes its shape;
    the block assignments of lines 296-299 go through [d2], the three-axis
    view [tdm1s[bra,ket]] of line 280, with five indices, so the first of
    them raises IndexError if nothing has raised before.  In
    [Examples.one_hop], with amplitudes of the numbers of axes that lines
    291 and 301 accept, the rule raises there. *)
Theorem crunch_1e_never_returns :
  (forall nelec_fsr nroots nlas ints bra ket s1 st,
      Np.ndim (fst st) = 5%nat ->
      exists e,
        snd (Assembly.crunch_1e_rule nelec_fsr nroots nlas ints bra ket s1 st)
        = Py.Raise e) /\
  (let h2 := Np.mk [1; 1]%nat (fun _ => Examples.one) in
   let p3 := Np.mk [1; 1; 1]%nat (fun _ => Examples.one) in
   let int0 := Store.with_h (Examples.blank 1 [(1, 0); (0, 0)])
                 [[[None; Some h2]; [None; None]]; Examples.empty2] in
   let int1 := Store.with_phh
                 (Store.with_h (Examples.blank 1 [(0, 0); (1, 0)])
                    [[[None; None]; [Some h2; None]]; Examples.empty2])
                 [[[None; None]; [Some p3; None]]; Examples.empty2] in
   snd (Assembly.crunch_1e_rule Examples.one_hop 2 [1; 1]%nat [int0; int1]
          0 1 0 (Examples.tdm1s0, Examples.tdm2s0))
   = Py.Raise (Py.IndexError "too many indices for array")).
Proof.
  split.
  - intros. apply crunch_1e_fails. assumption.
  - cbv zeta. vm_compute. reflexivity.
Qed.

Lemma crunch_1e_never_returns_witness :
  exists e,
    snd (Assembly.crunch_1e_rule Examples.one_hop 2 [1; 1]%nat
           [Examples.frag0; Examples.frag1] 0 1 0 (Examples.tdm1s0, Examples.tdm2s0))
    = Py.Raise e.
Proof.
  destruct crunch_1e_never_returns as [H _].
  apply H. reflexivity.
Defined.

(* ------------------------------------------------------------------------- *)
(** ** The second pass assembles null excitations only *)

Section SecondPass.

Import Py Np Assembly.

Variable nelec_fsr : list (list (list Z)).
Variable nroots : nat.
Variable nlas : list nat.
Variable ints : list Store.LSTDMint.
Variable format_amax : ndarray -> string.
Variable crunch_null_rule crunch_spin_hop_rule : nat -> nat -> M unit.

Let body := second_pass_body nelec_fsr nroots nlas ints format_amax
                             crunch_null_rule crunch_spin_hop_rule.

Lemma dispatch_cases (b k : nat) :
  dispatch nelec_fsr b k = Ok None \/
  (Hop.conserv_index nelec_fsr b k = true /\ Hop.nop_index nelec_fsr b k = 0 /\
   dispatch nelec_fsr b k = Ok (Some (crunch_null b k))) \/
  (exists s, dispatch nelec_fsr b k = Ok (Some (crunch_1e b k s))) \/
  dispatch nelec_fsr b k = Raise (NameError "nop_idnex").
Proof.
  unfold dispatch. cbv zeta.
  destruct (Hop.conserv_index nelec_fsr b k); cbn [negb]; [|left; reflexivity].
  destruct (Z.eqb_spec (Hop.nop_index nelec_fsr b k) 0) as [E0|_].
  - right. left. repeat split. exact E0.
  - destruct (Hop.nop_index nelec_fsr b k =? 2).
    + right. right. left. eexists. reflexivity.
    + right. right. right. reflexivity.
Qed.

Lemma body_cases (b k : nat) (st : arrays) :
  ndim (fst st) = 5%nat ->
  body b k st = (st, Ok tt) \/
  (Hop.conserv_index nelec_fsr b k = true /\ Hop.nop_index nelec_fsr b k = 0 /\
   body b k st = crunch_null_rule b k st) \/
  (exists e, snd (body b k st) = Raise e /\ snd (fst (body b k st)) = snd st).
Proof.
  intros Hnd. unfold body, second_pass_body, bindM, lift.
  destruct (dispatch_cases b k) as [E|[(Hc & Hn & E)|[[s E]|E]]]; rewrite E; cbn [run].
  - left. reflexivity.
  - right. left. repeat split; assumption.
  - right. right.
    destruct (crunch_1e_fails nelec_fsr nroots nlas ints b k (Z.to_nat s) st Hnd)
      as [e He].
    exists e. split; [exact He|]. apply crunch_1e_rule_keeps.
  - right. right. eexists. split; reflexivity.
Qed.

Lemma second_pass_ok (pairs : list (nat * nat)) (st st' : arrays) :
  (forall b k s, shape (fst (fst (crunch_null_rule b k s))) = shape (fst s)) ->
  ndim (fst st) = 5%nat ->
  for_eachM pairs (fun bk => body (fst bk) (snd bk)) st = (st', Ok tt) ->
  forall b k, In (b, k) pairs ->
              Hop.conserv_index nelec_fsr b k = false \/
              Hop.nop_index nelec_fsr b k = 0.
Proof.
  intros Hnull. revert st. induction pairs as [|[b0 k0] pairs IH]; intros st Hnd H b k Hin.
  - destruct Hin.
  - cbn [for_eachM fst snd] in H. unfold bindM in H.
    destruct (body_cases b0 k0 st Hnd) as [E|[(Hc & Hn & E)|[e [He _]]]].
    + rewrite E in H.
      destruct Hin as [Ein|Hin].
      * inversion Ein. subst b0 k0.
        unfold body, second_pass_body, bindM, lift in E.
        destruct (dispatch_cases b k) as [D|[(Hc & Hn & D)|[[s D]|D]]].
        -- unfold dispatch in D. cbv zeta in D.
           destruct (Hop.conserv_index nelec_fsr b k); [|left; reflexivity].
           cbn [negb] in D. right.
           destruct (Z.eqb_spec (Hop.nop_index nelec_fsr b k) 0) as [E0|_]; [exact E0|].
           destruct (Hop.nop_index nelec_fsr b k =? 2); discriminate.
        -- right. exact Hn.
        -- rewrite D in E. cbn [run] in E.
           destruct (crunch_1e_fails nelec_fsr nroots nlas ints b k (Z.to_nat s) st Hnd)
             as [e He].
           rewrite E in He. discriminate.
        -- rewrite D in E. discriminate.
      * exact (IH st Hnd H b k Hin).
    + destruct Hin as [Ein|Hin].
      * inversion Ein. subst b0 k0. right. exact Hn.
      * rewrite E in H.
        destruct (crunch_null_rule b0 k0 st) as [st1 [[]|e]] eqn:En; [|discriminate].
        apply (IH st1); [|exact H|exact Hin].
        unfold ndim in *. specialize (Hnull b0 k0 st). rewrite En in Hnull.
        cbn [fst] in Hnull. rewrite Hnull. exact Hnd.
    + destruct (body b0 k0 st) as [st1 [u|e']]; cbn [snd] in He; discriminate.
Qed.

End SecondPass.

(** X21: the second pass assembles null excitations only.  For a state pair
    the body of the loop of line 399 either skips the pair and leaves both
    tensors as they were, or calls [_crunch_null] (the pair has opCount 0),
    or raises with the 2-body tensor as it was before.  So the second pass
    returns only if every pair (bra, ket) with bra < ket is either skipped
    by the [conserv_index] test or has opCount 0; [_crunch_null] is assumed
    to keep the shape of [tdm1s], which it only assigns into. *)
Theorem second_pass_assembles_only_null
  (nelec_fsr : list (list (list Z))) (nroots : nat) (nlas : list nat)
  (ints : list Store.LSTDMint) (format_amax : Np.ndarray -> string)
  (crunch_null_rule crunch_spin_hop_rule : nat -> nat -> Assembly.M unit)
  (st : Assembly.arrays) :
  Np.ndim (fst st) = 5%nat ->
  let body := Assembly.second_pass_body nelec_fsr nroots nlas ints format_amax
                                        crunch_null_rule crunch_spin_hop_rule in
  (forall b k,
      body b k st = (st, Py.Ok tt) \/
      (Hop.conserv_index nelec_fsr b k = true /\ Hop.nop_index nelec_fsr b k = 0 /\
       body b k st = crunch_null_rule b k st) \/
      (exists e, snd (body b k st) = Py.Raise e /\ snd (fst (body b k st)) = snd st)) /\
  ((forall b k s, Np.shape (fst (fst (crunch_null_rule b k s))) = Np.shape (fst s)) ->
   forall st',
     Assembly.second_pass nelec_fsr nroots nlas ints format_amax
                          crunch_null_rule crunch_spin_hop_rule st = (st', Py.Ok tt) ->
     forall b k, In (b, k) (NpMore.combinations2 nroots) ->
                 Hop.conserv_index nelec_fsr b k = false \/
                 Hop.nop_index nelec_fsr b k = 0).
Proof.
  intros Hnd. cbv zeta. split.
  - intros b k. apply body_cases. exact Hnd.
  - intros Hnull st' H b k Hin.
    exact (second_pass_ok nelec_fsr nroots nlas ints format_amax
             crunch_null_rule crunch_spin_hop_rule _ st st' Hnull Hnd H b k Hin).
Qed.

Lemma second_pass_assembles_only_null_witness :
  exists e,
    snd (Assembly.second_pass_body Examples.spin_exchange 2 [1; 1]%nat
           [Examples.frag0; Examples.frag1] Examples.format0
           (fun _ _ => Assembly.ret tt) (fun _ _ => Assembly.ret tt) 0 1
           (Examples.tdm1s0, Examples.tdm2s0))
    = Py.Raise e.
Proof.
  destruct (second_pass_assembles_only_null Examples.spin_exchange 2 [1; 1]%nat
              [Examples.frag0; Examples.frag1] Examples.format0
              (fun _ _ => Assembly.ret tt) (fun _ _ => Assembly.ret tt)
              (Examples.tdm1s0, Examples.tdm2s0) eq_refl) as [H _].
  destruct (H 0 1)%nat as [E|[(_ & Hn & _)|[e [He _]]]].
  - vm_compute in E. discriminate.
  - vm_compute in Hn. discriminate.
  - exists e. exact He.
Defined.

(* ------------------------------------------------------------------------- *)
(** ** The same-spin 2-operator amplitude, element by element *)

Section SameSpinEntries.

Import Py Np NpMore.

Lemma pair_eqb_eq (x y : nat * nat) : pair_eqb x y = true <-> x = y.
Proof.
  destruct x as [a b], y as [c d]. unfold pair_eqb. cbn [fst snd].
  rewrite andb_true_iff, !Nat.eqb_eq. split.
  - intros [-> ->]. reflexivity.
  - intros E. inversion E. split; reflexivity.
Qed.

Lemma in_combinations2 (n q p : nat) :
  In (q, p) (combinations2 n) <-> (q < p)%nat /\ (p < n)%nat.
Proof.
  unfold combinations2. rewrite in_flat_map. split.
  - intros [q' [Hq' Hin]]. apply in_map_iff in Hin. destruct Hin as [p' [E Hp']].
    inversion E. subst q' p'. apply in_seq in Hq', Hp'. lia.
  - intros [Hqp Hpn]. exists q. split; [apply in_seq; lia|].
    apply in_map_iff. exists p. split; [reflexivity|]. apply in_seq. lia.
Qed.

Lemma find_map_m {Y} (f : nat * nat -> result Y) (l : list (nat * nat)) (ys : list Y)
      (key : nat * nat) :
  map_m f l = Ok ys -> In key l ->
  exists y, f key = Ok y /\
            option_map snd (find (fun e => pair_eqb (fst e) key) (combine l ys)) = Some y.
Proof.
  revert ys. induction l as [|x l IH]; intros ys H Hin; [destruct Hin|].
  cbn [map_m] in H. apply bind_ok in H. destruct H as [y0 [Hy0 H]].
  apply bind_ok in H. destruct H as [ys' [Hys' H]]. inversion H. subst ys. clear H.
  cbn [combine find fst].
  destruct (pair_eqb x key) eqn:E.
  - apply pair_eqb_eq in E. subst x. exists y0. split; [exact Hy0|reflexivity].
  - destruct Hin as [Ex|Hin].
    + subst x. assert (pair_eqb key key = true) by (apply pair_eqb_eq; reflexivity).
      congruence.
    + exact (IH ys' Hys' Hin).
Qed.

Lemma find_absent {Y} (l : list (nat * nat)) (ys : list Y) (key : nat * nat) :
  ~ In key l -> find (fun e => pair_eqb (fst e) key) (combine l ys) = None.
Proof.
  revert ys. induction l as [|x l IH]; intros ys Hnot; [reflexivity|].
  destruct ys as [|y ys]; [reflexivity|]. cbn [combine find fst].
  destruct (pair_eqb x key) eqn:E.
  - apply pair_eqb_eq in E. subst x. exfalso. apply Hnot. left. reflexivity.
  - apply IH. intros Hin. apply Hnot. right. exact Hin.
Qed.

Lemma cx_sub_zero_r (x : Cx.t) : Cx.sub x Cx.zero = x.
Proof. destruct x. unfold Cx.sub, Cx.zero. cbn. f_equal; lia. Qed.

Lemma cx_sub_zero_l (x : Cx.t) : Cx.sub Cx.zero x = Cx.opp x.
Proof. destruct x. unfold Cx.sub, Cx.opp, Cx.zero. cbn. reflexivity. Qed.

End SameSpinEntries.

(** X22: the elements of the same-spin 2-operator amplitude (lines 187-191
    and 213-217).  For orbitals q < p the element [q,p] is the overlap of
    the bra with the second annihilation applied to [apket[p]],
    <bra| a_q a_p |ket>; the element [p,q] is its negative; the diagonal is
    zero. *)
Theorem same_spin_amplitude_entries
  (des : Np.ndarray -> nat -> Z * Z -> nat -> Np.ndarray) (n : nat) (nelec : Z * Z)
  (bravec : list Cx.t) (pket : list Np.ndarray) (hh : Np.ndarray) :
  Kernel.hh_same_spin des n nelec bravec pket = Py.Ok hh ->
  (forall q p, (q < p)%nat -> (p < n)%nat ->
     exists pk amp,
       Store.getl pket p = Py.Ok pk /\
       NpMore.dot bravec (NpMore.ravel (des pk n nelec q)) = Py.Ok amp /\
       Np.item hh [q; p] = amp /\
       Np.item hh [p; q] = Cx.opp amp) /\
  (forall p, (p < n)%nat -> Np.item hh [p; p] = Cx.zero).
Proof.
  intros H. unfold Kernel.hh_same_spin in H.
  apply bind_ok in H. destruct H as [hh_triu [Hm H]].
  unfold Np.isub, Np.iop in H. cbn [Np.T Np.shape NpMore.fill_triu] in H.
  change (rev [n; n]) with [n; n] in H. rewrite bc_ok_refl in H.
  inversion H. subst hh. clear H. cbn [Np.shape Np.item].
  split.
  - intros q p Hqp Hpn.
    assert (Hin : In (q, p) (NpMore.combinations2 n))
      by (apply in_combinations2; split; assumption).
    destruct (find_map_m _ _ _ _ Hm Hin) as [amp [Hamp Hfind]].
    cbn [fst snd] in Hamp. apply bind_ok in Hamp. destruct Hamp as [pk [Hpk Hdot]].
    exists pk, amp. split; [exact Hpk|]. split; [exact Hdot|].
    assert (Hb1 : Np.in_bounds [n; n] [q; p] = true).
    { cbn [Np.in_bounds].
      rewrite (proj2 (Nat.ltb_lt q n)), (proj2 (Nat.ltb_lt p n)) by lia.
      reflexivity. }
    assert (Hb2 : Np.in_bounds [n; n] [p; q] = true).
    { cbn [Np.in_bounds].
      rewrite (proj2 (Nat.ltb_lt q n)), (proj2 (Nat.ltb_lt p n)) by lia.
      reflexivity. }
    rewrite (bc_index_in_bounds _ _ Hb1), (bc_index_in_bounds _ _ Hb2).
    cbn [rev app nth].
    assert (Hnone : find (fun e => NpMore.pair_eqb (fst e) (p, q))
                         (combine (NpMore.combinations2 n) hh_triu) = None).
    { apply find_absent. intros Hin'. apply in_combinations2 in Hin'. lia. }
    rewrite Hnone.
    destruct (find _ _) as [e|]; [|discriminate].
    cbn [option_map] in Hfind. inversion Hfind. subst amp.
    split; [apply cx_sub_zero_r|apply cx_sub_zero_l].
  - intros p Hpn.
    assert (Hb : Np.in_bounds [n; n] [p; p] = true).
    { cbn [Np.in_bounds]. rewrite (proj2 (Nat.ltb_lt p n)) by lia. reflexivity. }
    rewrite (bc_index_in_bounds _ _ Hb). cbn [rev app nth].
    assert (Hnone : find (fun e => NpMore.pair_eqb (fst e) (p, p))
                         (combine (NpMore.combinations2 n) hh_triu) = None).
    { apply find_absent. intros Hin'. apply in_combinations2 in Hin'. lia. }
    rewrite Hnone. reflexivity.
Qed.

Lemma same_spin_amplitude_entries_witness :
  exists hh,
    Kernel.hh_same_spin Examples.des_scale 2 (1, 0)
      [Examples.one; Examples.imag]
      [Np.of_list [Examples.one; Examples.imag];
       Np.of_list [Examples.imag; Examples.one]] = Py.Ok hh /\
    Np.item hh [0; 0]%nat = Cx.zero /\
    Np.item hh [1; 1]%nat = Cx.zero.
Proof.
  destruct (Kernel.hh_same_spin Examples.des_scale 2 (1, 0)
              [Examples.one; Examples.imag]
              [Np.of_list [Examples.one; Examples.imag];
               Np.of_list [Examples.imag; Examples.one]]) as [hh|e] eqn:Hh;
    [|vm_compute in Hh; discriminate].
  exists hh. split; [reflexivity|].
  destruct (same_spin_amplitude_entries _ _ _ _ _ _ Hh) as [_ Hd].
  split; apply Hd; lia.
Defined.

(* ------------------------------------------------------------------------- *)
(** ** The 3-operator amplitude that the builder stores *)

Section PhhAxes.

Import Py Np NpMore Store.

Lemma map_m_forall {X Y} (f : X -> result Y) (P : Y -> Prop) (xs : list X) (ys : list Y) :
  (forall x y, f x = Ok y -> P y) -> map_m f xs = Ok ys -> Forall P ys.
Proof.
  intros Hf. revert ys. induction xs as [|x xs IH]; intros ys H; cbn [map_m] in H.
  - inversion H. constructor.
  - apply bind_ok in H. destruct H as [y [Hy H]].
    apply bind_ok in H. destruct H as [ys' [Hys' H]]. inversion H. subst.
    constructor; [exact (Hf x y Hy)|exact (IH ys' Hys')].
Qed.

Lemma phh_amplitude_ndim
      (trans_rdm12s : nat -> ndarray -> ndarray -> nat -> Z * Z -> ndarray * ndarray)
      (d : nat) (self : LSTDMint) (bra : nat) (pket : list ndarray) (phh : ndarray) :
  (forall i b k norb nelec, ndim (fst (trans_rdm12s i b k norb nelec)) = d) ->
  Kernel.phh_amplitude trans_rdm12s self bra pket = Ok phh ->
  ndim phh = S d.
Proof.
  intros Hd H. unfold Kernel.phh_amplitude in H.
  apply bind_ok in H. destruct H as [dms [Hm H]].
  assert (Hall : Forall (fun a => ndim a = d) dms).
  { revert Hm. apply map_m_forall. intros x y Hy.
    apply bind_ok in Hy. destruct Hy as [c [_ Hy]].
    apply bind_ok in Hy. destruct Hy as [nelec [_ Hy]].
    inversion Hy. apply Hd. }
  unfold stack_last in H. destruct dms as [|a0 dms]; [discriminate|].
  destruct (forallb _ _); [|discriminate].
  inversion H. unfold ndim. cbn [shape]. rewrite length_app. cbn [List.length].
  inversion Hall. subst. unfold ndim in *. lia.
Qed.

End PhhAxes.

(** X23: the 3-operator amplitude that the builder stores cannot be read
    back as its adjoint.  [set_dm1] (line 120) needs the solver's 1-body
    transition density to have three axes; the builder stacks such arrays
    along a new last axis (lines 173-175 and 208-210), so the stored
    amplitude has four axes, and [get_pph] (line 98), which exchanges the
    last two of three axes, raises ValueError on it. *)
Theorem stored_phh_has_no_adjoint
  (trans_rdm12s : nat -> Np.ndarray -> Np.ndarray -> nat -> Z * Z -> Np.ndarray * Np.ndarray)
  (self store : Store.LSTDMint) (bra i j s : nat) (pket : list Np.ndarray)
  (phh : Np.ndarray) :
  (forall i b k norb nelec, Np.ndim (fst (trans_rdm12s i b k norb nelec)) = 3%nat) ->
  Kernel.phh_amplitude trans_rdm12s self bra pket = Py.Ok phh ->
  Np.ndim phh = 4%nat /\
  (Store.get_phh store j i s = Py.Ok (Some phh) ->
   Store.get_pph store i j s = Py.Raise (Py.ValueError "axes don't match array")).
Proof.
  intros Hd H.
  pose proof (phh_amplitude_ndim trans_rdm12s 3 self bra pket phh Hd H) as Hn.
  split; [exact Hn|].
  intros Hg. unfold Store.get_pph. unfold Store.get_phh in Hg. rewrite Hg.
  cbn [Py.bind Store.attr]. apply transpose_bad_arity.
  unfold Np.ndim in *. cbn [Np.conj Np.shape List.length]. lia.
Qed.

Lemma stored_phh_has_no_adjoint_witness :
  exists phh,
    Kernel.phh_amplitude Examples.trans_rdm12s0 Examples.attached 0
                         [Np.of_list [Examples.one]] = Py.Ok phh /\
    Np.ndim phh = 4%nat.
Proof.
  destruct (Kernel.phh_amplitude Examples.trans_rdm12s0 Examples.attached 0
              [Np.of_list [Examples.one]]) as [phh|e] eqn:Hp;
    [|vm_compute in Hp; discriminate].
  exists phh. split; [reflexivity|].
  destruct (stored_phh_has_no_adjoint Examples.trans_rdm12s0 Examples.attached
              Examples.attached 0 0 1 0 [Np.of_list [Examples.one]] phh) as [H _].
  - intros. reflexivity.
  - exact Hp.
  - exact H.
Defined.

(* ------------------------------------------------------------------------- *)
(** ** The pair-hop rule: what it writes when it returns *)

Section PairHopBlock.

Import Py Np NpMore Store Assembly.

Lemma bindM_ok {A B} (c : M A) (k : A -> M B) (st st' : arrays) (b : B) :
  bindM c k st = (st', Ok b) ->
  exists a st1, c st = (st1, Ok a) /\ k a st1 = (st', Ok b).
Proof.
  unfold bindM. destruct (c st) as [st1 [a|e]]; intros H; [|discriminate].
  exists a, st1. split; [reflexivity|exact H].
Qed.

Lemma lift_ok {A} (c : result A) (st st1 : arrays) (a : A) :
  lift c st = (st1, Ok a) -> st1 = st /\ c = Ok a.
Proof. unfold lift. intros H. inversion H. split; reflexivity. Qed.

Lemma read2_lift_ok {A} (f : ndarray -> result A) (st st1 : arrays) (a : A) :
  bindM read_tdm2s (fun t2 => lift (f t2)) st = (st1, Ok a) ->
  st1 = st /\ f (snd st) = Ok a.
Proof. unfold bindM, read_tdm2s, lift. intros H. inversion H. split; reflexivity. Qed.

Lemma write_tdm2s_ok (idxs : list index) (v : ndarray) (st st1 : arrays) (u : unit) :
  write_tdm2s idxs v st = (st1, Ok u) ->
  exists t, setitem (snd st) idxs v = Ok t /\ st1 = (fst st, t).
Proof.
  unfold write_tdm2s. destruct (setitem (snd st) idxs v) as [t|e]; intros H;
    [|discriminate].
  exists t. split; [reflexivity|]. inversion H. reflexivity.
Qed.

(** An assignment to a block [a[b,k,c,p:q,r:s,p:q,r:s]] of a tensor of seven
    axes, from a value of the shape of the block. *)
Lemma setitem_block7 (a v a' : ndarray) (n0 n1 n2 n b k c p r ni nj : nat) :
  shape a = [n0; n1; n2; n; n; n; n] ->
  shape v = [ni; nj; ni; nj] ->
  (p + ni <= n)%nat -> (r + nj <= n)%nat ->
  setitem a [Int b; Int k; Int c;
             Slice p (p + ni); Slice r (r + nj); Slice p (p + ni); Slice r (r + nj)] v
  = Ok a' ->
  shape a' = shape a /\
  (forall w x y z, (w < ni)%nat -> (x < nj)%nat -> (y < ni)%nat -> (z < nj)%nat ->
     item a' [b; k; c; p + w; r + x; p + y; r + z]%nat = item v [w; x; y; z]) /\
  (forall c' tl, c' <> c -> item a' (b :: k :: c' :: tl) = item a (b :: k :: c' :: tl)).
Proof.
  intros Ha Hv Hp Hr H.
  split; [exact (setitem_shape _ _ _ _ H)|].
  unfold setitem in H. rewrite Ha in H. cbn [select] in H.
  destruct (b <? n0)%nat; [|discriminate].
  destruct (k <? n1)%nat; [|discriminate].
  destruct (c <? n2)%nat; [|discriminate].
  cbn [bind map] in H.
  rewrite !(Nat.min_l p n), !(Nat.min_l r n), !(Nat.min_l (p + ni) n),
    !(Nat.min_l (r + nj) n) in H by lia.
  replace (p + ni - p)%nat with ni in H by lia.
  replace (r + nj - r)%nat with nj in H by lia.
  cbn [region_shape flat_map snd app List.length] in H.
  unfold ndim in H. rewrite Hv in H. cbn [List.length Nat.sub strip_ones] in H.
  destruct (bc_ok _ _); [|discriminate].
  injection H as <-. cbn [item]. split.
  - intros w x y z Hw Hx Hy Hz. cbn [rel_index].
    rewrite !Nat.eqb_refl.
    rewrite !(proj2 (Nat.leb_le p (p + w))), !(proj2 (Nat.leb_le p (p + y))),
      !(proj2 (Nat.leb_le r (r + x))), !(proj2 (Nat.leb_le r (r + z))) by lia.
    rewrite !(proj2 (Nat.ltb_lt (p + w) (p + ni))), !(proj2 (Nat.ltb_lt (p + y) (p + ni))),
      !(proj2 (Nat.ltb_lt (r + x) (r + nj))), !(proj2 (Nat.ltb_lt (r + z) (r + nj))) by lia.
    cbn [andb option_map repeat app].
    replace (p + w - p)%nat with w by lia. replace (p + y - p)%nat with y by lia.
    replace (r + x - r)%nat with x by lia. replace (r + z - r)%nat with z by lia.
    rewrite bc_index_in_bounds; [reflexivity|].
    cbn [in_bounds].
    rewrite !(proj2 (Nat.ltb_lt w ni)), !(proj2 (Nat.ltb_lt y ni)),
      !(proj2 (Nat.ltb_lt x nj)), !(proj2 (Nat.ltb_lt z nj)) by lia.
    reflexivity.
  - intros c' tl Hc. cbn [rel_index]. rewrite !Nat.eqb_refl.
    destruct (Nat.eqb_spec c' c) as [E|_]; [contradiction|]. reflexivity.
Qed.

End PairHopBlock.

Section PairHopProduct.

Import Py Np NpMore Store Assembly.

Lemma transpose_0312_outer (pp hh d : ndarray) (ni nj : nat) :
  shape pp = [ni; ni] -> shape hh = [nj; nj] ->
  transpose [0; 3; 1; 2]%nat (outer pp hh) = Ok d ->
  shape d = [ni; nj; ni; nj] /\
  forall w x y z, item d [w; x; y; z] = Cx.mul (item pp [w; y]) (item hh [z; x]).
Proof.
  intros Hp Hh H. unfold transpose, outer, ndim in H. cbn [shape] in H.
  rewrite Hp, Hh in H. cbn in H. injection H as <-. split; reflexivity.
Qed.

Lemma transpose_2301 (d v : ndarray) (ni nj : nat) :
  shape d = [ni; nj; ni; nj] ->
  transpose [2; 3; 0; 1]%nat d = Ok v ->
  shape v = [ni; nj; ni; nj] /\
  forall w x y z, item v [w; x; y; z] = item d [y; z; w; x].
Proof.
  intros Hd H. unfold transpose, ndim in H. rewrite Hd in H. cbn in H.
  injection H as <-. split; reflexivity.
Qed.

End PairHopProduct.

(** X24: what the pair-hop rule writes when it returns.  A run of
    [_crunch_pair_hop] that returns has found the fragment i that gains two
    electrons and the fragment j that loses two, has read the creation-pair
    amplitude pp of i and the annihilation-pair amplitude hh of j, and has
    left [tdm1s] alone.  With amplitudes of the shapes of the two fragments
    the block [tdm2s[bra,ket,s2,p:q,r:s,p:q,r:s]] then holds the product in
    Mulliken order, [pp[w,y] * hh[z,x]] at [w,x,y,z], and in the mixed
    channel the block of spin index 2 holds the same product with the two
    electrons exchanged. *)
Theorem pair_hop_writes_product
  (nelec_fsr : list (list (list Z))) (nroots : nat) (nlas : list nat)
  (ints : list Store.LSTDMint) (format_amax : Np.ndarray -> string)
  (bra ket s2lt : nat) (st st' : Assembly.arrays) (n0 n1 n2 ncas : nat) :
  Assembly.crunch_pair_hop_rule nelec_fsr nroots nlas ints format_amax bra ket s2lt st
  = (st', Py.Ok tt) ->
  Np.shape (snd st) = [n0; n1; n2; ncas; ncas; ncas; ncas] ->
  let net := map (fun f => Hop.hop_sum1 nelec_fsr f bra ket) (Hop.frags nelec_fsr) in
  exists i j ni nj inti intj pp hh s2,
    Assembly.first_index 2 net = Py.Ok i /\
    Assembly.first_index (-2) net = Py.Ok j /\
    Store.getl nlas i = Py.Ok ni /\ Store.getl nlas j = Py.Ok nj /\
    Store.getl ints i = Py.Ok inti /\ Store.getl ints j = Py.Ok intj /\
    Store.get_pp inti bra ket s2lt = Py.Ok pp /\
    Store.get_hh intj bra ket s2lt = Py.Ok (Some hh) /\
    Store.getl [0; 1; 3]%nat s2lt = Py.Ok s2 /\
    fst st' = fst st /\
    let p := Assembly.offset nlas i in
    let r := Assembly.offset nlas j in
    (Np.shape pp = [ni; ni] -> Np.shape hh = [nj; nj] ->
     (p + ni <= ncas)%nat -> (r + nj <= ncas)%nat ->
     forall w x y z, (w < ni)%nat -> (x < nj)%nat -> (y < ni)%nat -> (z < nj)%nat ->
       Np.item (snd st') [bra; ket; s2; p + w; r + x; p + y; r + z]%nat
       = Cx.mul (Np.item pp [w; y]) (Np.item hh [z; x]) /\
       (s2lt = 1%nat ->
        Np.item (snd st') [bra; ket; 2; p + w; r + x; p + y; r + z]%nat
        = Cx.mul (Np.item pp [y; w]) (Np.item hh [x; z]))).
Proof.
  intros H Hsh. cbv zeta.
  pose proof (crunch_pair_hop_keeps1 bra ket nelec_fsr nroots nlas ints format_amax
                s2lt st) as Hk1.
  rewrite H in Hk1. cbn [fst] in Hk1.
  unfold Assembly.crunch_pair_hop_rule in H.
  apply bindM_ok in H. destruct H as (s2 & st1 & E & H).
  apply lift_ok in E. destruct E as [-> Es2].
  apply bindM_ok in H. destruct H as (blk & st1 & E & H).
  apply read2_lift_ok in E. destruct E as [-> _].
  cbv zeta in H.
  apply bindM_ok in H. destruct H as (u0 & st1 & E & H).
  apply lift_ok in E. destruct E as [-> _].
  apply bindM_ok in H. destruct H as (i & st1 & E & H).
  apply lift_ok in E. destruct E as [-> Ei].
  apply bindM_ok in H. destruct H as (j & st1 & E & H).
  apply lift_ok in E. destruct E as [-> Ej].
  apply bindM_ok in H. destruct H as (ni & st1 & E & H).
  apply lift_ok in E. destruct E as [-> Eni].
  apply bindM_ok in H. destruct H as (nj & st1 & E & H).
  apply lift_ok in E. destruct E as [-> Enj].
  apply bindM_ok in H. destruct H as (inti & st1 & E & H).
  apply lift_ok in E. destruct E as [-> Einti].
  apply bindM_ok in H. destruct H as (pp & st1 & E & H).
  apply lift_ok in E. destruct E as [-> Epp].
  apply bindM_ok in H. destruct H as (u1 & st1 & E & H).
  apply lift_ok in E. destruct E as [-> _].
  apply bindM_ok in H. destruct H as (intj & st1 & E & H).
  apply lift_ok in E. destruct E as [-> Eintj].
  apply bindM_ok in H. destruct H as (hh0 & st1 & E & H).
  apply lift_ok in E. destruct E as [-> Ehh].
  apply bindM_ok in H. destruct H as (u2 & st1 & E & H).
  apply lift_ok in E. destruct E as [-> _].
  apply bindM_ok in H. destruct H as (hh & st1 & E & H).
  apply lift_ok in E. destruct E as [-> Eop].
  destruct hh0 as [hh'|]; [|discriminate]. cbn [Assembly.operand] in Eop.
  injection Eop as <-.
  apply bindM_ok in H. destruct H as (d & st1 & E & H).
  apply lift_ok in E. destruct E as [-> Ed].
  apply bindM_ok in H. destruct H as (u3 & st1 & E & H).
  apply write_tdm2s_ok in E. destruct E as (t & Et & ->).
  exists i, j, ni, nj, inti, intj, pp, hh', s2.
  repeat (split; [assumption|]).
  intros Hpp Hhh Hp Hr w x y z Hw Hx Hy Hz.
  destruct (transpose_0312_outer pp hh' d ni nj Hpp Hhh Ed) as [Hdsh Hd].
  destruct (setitem_block7 _ _ _ _ _ _ _ _ _ _ _ _ _ _ Hsh Hdsh Hp Hr Et)
    as (Htsh & Hblock & Hother).
  destruct (Nat.eqb_spec s2lt 1) as [E1|N1].
  - subst s2lt. cbn in Es2. injection Es2 as <-.
    apply bindM_ok in H. destruct H as (v & st1 & E & H).
    apply lift_ok in E. destruct E as [-> Ev].
    apply write_tdm2s_ok in H. destruct H as (t' & Et' & ->).
    cbn [fst snd] in *.
    destruct (transpose_2301 d v ni nj Hdsh Ev) as [Hvsh Hv].
    rewrite Hsh in Htsh.
    destruct (setitem_block7 _ _ _ _ _ _ _ _ _ _ _ _ _ _ Htsh Hvsh Hp Hr Et')
      as (_ & Hblock' & Hother').
    split.
    + rewrite Hother' by discriminate. rewrite (Hblock w x y z) by assumption.
      apply Hd.
    + intros _. rewrite (Hblock' w x y z) by assumption. rewrite Hv. apply Hd.
  - unfold Assembly.ret in H. injection H as <-. cbn [fst snd].
    split.
    + rewrite (Hblock w x y z) by assumption. apply Hd.
    + intros E1. contradiction.
Qed.

Lemma pair_hop_writes_product_witness :
  exists st',
    Assembly.crunch_pair_hop_rule Examples.pair_hop 2 [2; 2]%nat
      [Examples.pair0 Examples.sym2; Examples.pair1 Examples.sym2]
      Examples.format0 0 1 0 (Examples.tdm1s4, Examples.tdm2s4) = (st', Py.Ok tt) /\
    fst st' = Examples.tdm1s4.
Proof.
  destruct (Assembly.crunch_pair_hop_rule Examples.pair_hop 2 [2; 2]%nat
              [Examples.pair0 Examples.sym2; Examples.pair1 Examples.sym2]
              Examples.format0 0 1 0 (Examples.tdm1s4, Examples.tdm2s4))
    as [st' [[]|e]] eqn:Hr; [|vm_compute in Hr; discriminate].
  exists st'. split; [reflexivity|].
  destruct (pair_hop_writes_product _ _ _ _ _ _ _ _ _ _ 2 2 4 4 Hr eq_refl)
    as (i & j & ni & nj & inti & intj & pp & hh & s2 & _ & _ & _ & _ & _ & _ & _ & _ & _
        & Hfst & _).
  exact Hfst.
Defined.

(* ------------------------------------------------------------------------- *)
(** ** The pair-split rule in the mixed channel *)

Section PairSplitBlock.

Import Py Np NpMore Store Assembly.

(** An assignment to a block of a tensor of seven axes with four different
    orbital ranges, from a value of the shape of the block. *)
Lemma setitem_block7g (a v a' : ndarray) (n0 n1 n2 n b k c : nat)
      (p1 p2 p3 p4 m1 m2 m3 m4 : nat) :
  shape a = [n0; n1; n2; n; n; n; n] ->
  shape v = [m1; m2; m3; m4] ->
  (p1 + m1 <= n)%nat -> (p2 + m2 <= n)%nat -> (p3 + m3 <= n)%nat -> (p4 + m4 <= n)%nat ->
  setitem a [Int b; Int k; Int c;
             Slice p1 (p1 + m1); Slice p2 (p2 + m2); Slice p3 (p3 + m3); Slice p4 (p4 + m4)] v
  = Ok a' ->
  shape a' = shape a /\
  (forall w x y z, (w < m1)%nat -> (x < m2)%nat -> (y < m3)%nat -> (z < m4)%nat ->
     item a' [b; k; c; p1 + w; p2 + x; p3 + y; p4 + z]%nat = item v [w; x; y; z]) /\
  (forall c' tl, c' <> c -> item a' (b :: k :: c' :: tl) = item a (b :: k :: c' :: tl)).
Proof.
  intros Ha Hv H1 H2 H3 H4 H.
  split; [exact (setitem_shape _ _ _ _ H)|].
  unfold setitem in H. rewrite Ha in H. cbn [select] in H.
  destruct (b <? n0)%nat; [|discriminate].
  destruct (k <? n1)%nat; [|discriminate].
  destruct (c <? n2)%nat; [|discriminate].
  cbn [bind map] in H.
  rewrite (Nat.min_l p1 n), (Nat.min_l p2 n), (Nat.min_l p3 n), (Nat.min_l p4 n),
    (Nat.min_l (p1 + m1) n), (Nat.min_l (p2 + m2) n), (Nat.min_l (p3 + m3) n),
    (Nat.min_l (p4 + m4) n) in H by lia.
  replace (p1 + m1 - p1)%nat with m1 in H by lia.
  replace (p2 + m2 - p2)%nat with m2 in H by lia.
  replace (p3 + m3 - p3)%nat with m3 in H by lia.
  replace (p4 + m4 - p4)%nat with m4 in H by lia.
  cbn [region_shape flat_map snd app List.length] in H.
  unfold ndim in H. rewrite Hv in H. cbn [List.length Nat.sub strip_ones] in H.
  destruct (bc_ok _ _); [|discriminate].
  injection H as <-. cbn [item]. split.
  - intros w x y z Hw Hx Hy Hz. cbn [rel_index].
    rewrite !Nat.eqb_refl.
    rewrite (proj2 (Nat.leb_le p1 (p1 + w))), (proj2 (Nat.leb_le p2 (p2 + x))),
      (proj2 (Nat.leb_le p3 (p3 + y))), (proj2 (Nat.leb_le p4 (p4 + z))) by lia.
    rewrite (proj2 (Nat.ltb_lt (p1 + w) (p1 + m1))), (proj2 (Nat.ltb_lt (p2 + x) (p2 + m2))),
      (proj2 (Nat.ltb_lt (p3 + y) (p3 + m3))), (proj2 (Nat.ltb_lt (p4 + z) (p4 + m4)))
      by lia.
    cbn [andb option_map repeat app].
    replace (p1 + w - p1)%nat with w by lia. replace (p2 + x - p2)%nat with x by lia.
    replace (p3 + y - p3)%nat with y by lia. replace (p4 + z - p4)%nat with z by lia.
    rewrite bc_index_in_bounds; [reflexivity|].
    cbn [in_bounds].
    rewrite (proj2 (Nat.ltb_lt w m1)), (proj2 (Nat.ltb_lt x m2)),
      (proj2 (Nat.ltb_lt y m3)), (proj2 (Nat.ltb_lt z m4)) by lia.
    reflexivity.
  - intros c' tl Hc. cbn [rel_index]. rewrite !Nat.eqb_refl.
    destruct (Nat.eqb_spec c' c) as [E|_]; [contradiction|]. reflexivity.
Qed.

Lemma transpose_0312_outer3 (pi pj hh d : ndarray) (ni nj nk : nat) :
  shape pi = [ni] -> shape pj = [nj] -> shape hh = [nk; nk] ->
  transpose [0; 3; 1; 2]%nat (outer (outer pi pj) hh) = Ok d ->
  shape d = [ni; nk; nj; nk] /\
  forall w x y z,
    item d [w; x; y; z] = Cx.mul (Cx.mul (item pi [w]) (item pj [y])) (item hh [z; x]).
Proof.
  intros Hi Hj Hh H. unfold transpose, outer, ndim in H. cbn [shape] in H.
  rewrite Hi, Hj, Hh in H. cbn in H. injection H as <-. split; [reflexivity|].
  intros w x y z. reflexivity.
Qed.

Lemma transpose_2301g (d v : ndarray) (m1 m2 m3 m4 : nat) :
  shape d = [m1; m2; m3; m4] ->
  transpose [2; 3; 0; 1]%nat d = Ok v ->
  shape v = [m3; m4; m1; m2] /\
  forall w x y z, item v [w; x; y; z] = item d [y; z; w; x].
Proof.
  intros Hd H. unfold transpose, ndim in H. rewrite Hd in H. cbn in H.
  injection H as <-. split; reflexivity.
Qed.

End PairSplitBlock.

(** X25: what the pair-split rule writes in the mixed channel.  A run of
    [_crunch_pair_split (bra, ket, 1)] that returns has found the fragment i
    that gains an alpha electron, the fragment j that gains a beta electron
    and the fragment k that loses two, and has left [tdm1s] alone.  With
    amplitudes of the shapes of the three fragments the block
    [tdm2s[bra,ket,1,p:q,t:u,r:s,t:u]] holds [p_i[w] * p_j[y] * hh[z,x]] at
    [w,x,y,z] and the block [tdm2s[bra,ket,2,r:s,t:u,p:q,t:u]] holds the same
    number at [y,z,w,x]. *)
Theorem pair_split_writes_product
  (nelec_fsr : list (list (list Z))) (nroots : nat) (nlas : list nat)
  (ints : list Store.LSTDMint) (format_amax : Np.ndarray -> string)
  (bra ket : nat) (st st' : Assembly.arrays) (n0 n1 n2 ncas : nat) :
  Assembly.crunch_pair_split_rule nelec_fsr nroots nlas ints format_amax bra ket 1 st
  = (st', Py.Ok tt) ->
  Np.shape (snd st) = [n0; n1; n2; ncas; ncas; ncas; ncas] ->
  let frags := Hop.frags nelec_fsr in
  let alpha := map (fun f => Hop.hopping_index nelec_fsr f 0 bra ket) frags in
  let beta := map (fun f => Hop.hopping_index nelec_fsr f 1 bra ket) frags in
  let net := map (fun f => Hop.hop_sum1 nelec_fsr f bra ket) frags in
  exists i j k ni nj nk inti intj intk pi pj hh,
    Assembly.first_index 1 alpha = Py.Ok i /\
    Assembly.first_index 1 beta = Py.Ok j /\
    Assembly.first_index (-2) net = Py.Ok k /\
    Store.getl nlas i = Py.Ok ni /\ Store.getl nlas j = Py.Ok nj /\
    Store.getl nlas k = Py.Ok nk /\
    Store.getl ints i = Py.Ok inti /\ Store.getl ints j = Py.Ok intj /\
    Store.getl ints k = Py.Ok intk /\
    Store.get_p inti bra ket 0 = Py.Ok pi /\
    Store.get_p intj bra ket 1 = Py.Ok pj /\
    Store.get_hh intk bra ket 1 = Py.Ok (Some hh) /\
    fst st' = fst st /\
    let p := Assembly.offset nlas i in
    let r := Assembly.offset nlas j in
    let t := Assembly.offset nlas k in
    (Np.shape pi = [ni] -> Np.shape pj = [nj] -> Np.shape hh = [nk; nk] ->
     (p + ni <= ncas)%nat -> (r + nj <= ncas)%nat -> (t + nk <= ncas)%nat ->
     forall w x y z, (w < ni)%nat -> (x < nk)%nat -> (y < nj)%nat -> (z < nk)%nat ->
       let amp := Cx.mul (Cx.mul (Np.item pi [w]) (Np.item pj [y])) (Np.item hh [z; x]) in
       Np.item (snd st') [bra; ket; 1; p + w; t + x; r + y; t + z]%nat = amp /\
       Np.item (snd st') [bra; ket; 2; r + y; t + z; p + w; t + x]%nat = amp).
Proof.
  intros H Hsh. cbv zeta.
  pose proof (crunch_pair_split_keeps1 bra ket nelec_fsr nroots nlas ints format_amax
                1 st) as Hk1.
  rewrite H in Hk1. cbn [fst] in Hk1.
  unfold Assembly.crunch_pair_split_rule in H.
  apply bindM_ok in H. destruct H as (s2 & st1 & E & H).
  apply lift_ok in E. destruct E as [-> Es2]. cbn in Es2. injection Es2 as <-.
  apply bindM_ok in H. destruct H as (s2T & st1 & E & H).
  apply lift_ok in E. destruct E as [-> Es2T]. cbn in Es2T. injection Es2T as <-.
  apply bindM_ok in H. destruct H as (blk & st1 & E & H).
  apply read2_lift_ok in E. destruct E as [-> _].
  apply bindM_ok in H. destruct H as (u0 & st1 & E & H).
  apply lift_ok in E. destruct E as [-> _].
  cbv zeta in H. cbn [Nat.eqb] in H.
  apply bindM_ok in H. destruct H as (sel & st1 & E & H).
  apply lift_ok in E. destruct E as [-> Esel].
  apply bind_ok in Esel. destruct Esel as [i [Ei Esel]].
  apply bind_ok in Esel. destruct Esel as [j [Ej Esel]].
  injection Esel as <-. cbn [fst snd] in H.
  apply bindM_ok in H. destruct H as (k & st1 & E & H).
  apply lift_ok in E. destruct E as [-> Ek].
  apply bindM_ok in H. destruct H as (inti & st1 & E & H).
  apply lift_ok in E. destruct E as [-> Einti].
  apply bindM_ok in H. destruct H as (pi & st1 & E & H).
  apply lift_ok in E. destruct E as [-> Epi].
  apply bindM_ok in H. destruct H as (intj & st1 & E & H).
  apply lift_ok in E. destruct E as [-> Eintj].
  apply bindM_ok in H. destruct H as (pj & st1 & E & H).
  apply lift_ok in E. destruct E as [-> Epj].
  apply bindM_ok in H. destruct H as (intk & st1 & E & H).
  apply lift_ok in E. destruct E as [-> Eintk].
  apply bindM_ok in H. destruct H as (hh0 & st1 & E & H).
  apply lift_ok in E. destruct E as [-> Ehh].
  apply bindM_ok in H. destruct H as (u2 & st1 & E & H).
  apply lift_ok in E. destruct E as [-> _].
  apply bindM_ok in H. destruct H as (hh & st1 & E & H).
  apply lift_ok in E. destruct E as [-> Eop].
  destruct hh0 as [hh'|]; [|discriminate]. cbn [Assembly.operand] in Eop.
  injection Eop as <-.
  apply bindM_ok in H. destruct H as (d & st1 & E & H).
  apply lift_ok in E. destruct E as [-> Ed].
  apply bindM_ok in H. destruct H as (ni & st1 & E & H).
  apply lift_ok in E. destruct E as [-> Eni].
  apply bindM_ok in H. destruct H as (nj & st1 & E & H).
  apply lift_ok in E. destruct E as [-> Enj].
  apply bindM_ok in H. destruct H as (nk & st1 & E & H).
  apply lift_ok in E. destruct E as [-> Enk].
  apply bindM_ok in H. destruct H as (u3 & st1 & E & H).
  apply write_tdm2s_ok in E. destruct E as (t1 & Et1 & ->).
  apply bindM_ok in H. destruct H as (v & st1 & E & H).
  apply lift_ok in E. destruct E as [-> Ev].
  apply bindM_ok in H. destruct H as (u4 & st1 & E & H).
  apply write_tdm2s_ok in E. destruct E as (t2 & Et2 & ->).
  unfold Assembly.ret in H. injection H as <-. cbn [fst snd] in *.
  exists i, j, k, ni, nj, nk, inti, intj, intk, pi, pj, hh'.
  repeat (split; [assumption|]).
  intros Hpi Hpj Hhh Hp Hr Ht w x y z Hw Hx Hy Hz.
  destruct (transpose_0312_outer3 pi pj hh' d ni nj nk Hpi Hpj Hhh Ed) as [Hdsh Hd].
  destruct (transpose_2301g d v _ _ _ _ Hdsh Ev) as [Hvsh Hv].
  destruct (setitem_block7g _ _ _ _ _ _ _ _ _ _ _ _ _ _ _ _ _ _ Hsh Hdsh Hp Ht Hr Ht Et1)
    as (Ht1sh & Hblock1 & _).
  rewrite Hsh in Ht1sh.
  destruct (setitem_block7g _ _ _ _ _ _ _ _ _ _ _ _ _ _ _ _ _ _ Ht1sh Hvsh Hr Ht Hp Ht Et2)
    as (_ & Hblock2 & Hother2).
  split.
  - rewrite Hother2 by discriminate. rewrite (Hblock1 w x y z) by assumption. apply Hd.
  - rewrite (Hblock2 y z w x) by assumption. rewrite Hv. apply Hd.
Qed.

Lemma pair_split_writes_product_witness :
  exists st',
    Assembly.crunch_pair_split_rule Examples.split_hop 2 [1; 1; 2]%nat Examples.ints3
      Examples.format0 0 1 1 (Examples.tdm1s4, Examples.tdm2s4) = (st', Py.Ok tt) /\
    fst st' = Examples.tdm1s4.
Proof.
  destruct (Assembly.crunch_pair_split_rule Examples.split_hop 2 [1; 1; 2]%nat
              Examples.ints3 Examples.format0 0 1 1 (Examples.tdm1s4, Examples.tdm2s4))
    as [st' [[]|e]] eqn:Hr; [|vm_compute in Hr; discriminate].
  exists st'. split; [reflexivity|].
  destruct (pair_split_writes_product _ _ _ _ _ _ _ _ _ 2 2 4 4 Hr eq_refl)
    as (i & j & k & ni & nj & nk & inti & intj & intk & pi & pj & hh
        & _ & _ & _ & _ & _ & _ & _ & _ & _ & _ & _ & _ & Hfst & _).
  exact Hfst.
Defined.
